(** * The sun-and-sky emitter (src/emitters/sunsky.cpp)

    A shallow embedding of [SunskyEmitter]: the Bezier blend of the
    radiance coefficients, the construction of the truncated Gaussian
    mixture table, the sky density, the sky/sun balance weight, the
    constructor and the change-propagation logic.

    Numeric model.  [Float] quantities are real numbers ([R]): sums,
    products and comparisons are the exact ones, so the algebraic
    identities below are identities of exact arithmetic, not of rounded
    arithmetic.  The one place where the source observes an IEEE special
    value (the NaN guard of the balance weight) is modelled with an
    explicit quotient type.  [UInt32] values are integers ([Z]) reduced
    modulo 2^32.  Buffers ([FloatStorage], the array of a tensor) are
    lists of reals. *)

From Stdlib Require Import Reals Lra Lia Psatz ZArith List String Bool.
Import ListNotations.

Open Scope string_scope.
Open Scope list_scope.
Open Scope R_scope.

(** ** Dr.Jit primitives *)

Module dr.

Definition minimum (a b : R) : R := Rmin a b.
Definition maximum (a b : R) : R := Rmax a b.

(** [dr::clip(value, min, max)]. *)
Definition clip (value lo hi : R) : R := maximum (minimum value hi) lo.

Definition rad_to_deg (a : R) : R := a * (180 / PI).

Definition rcp (a : R) : R := / a.

Definition safe_sqrt (a : R) : R := sqrt (maximum a 0).

(** Real cube root, odd in its argument. *)
Definition cbrt (a : R) : R :=
  if Rlt_dec 0 a then Rpower a (/ 3)
  else if Rlt_dec a 0 then - Rpower (- a) (/ 3)
  else 0.

(** Arithmetic of [UInt32]. *)
Definition u32 (z : Z) : Z := (z mod 2 ^ 32)%Z.

(** [dr::floor2int<UInt32>]. *)
Definition floor2int (a : R) : Z := u32 (Zfloor a).

(** [dr::arange<UInt32Storage>(n)]. *)
Definition arange (n : Z) : list Z := map Z.of_nat (seq 0 (Z.to_nat n)).

Definition zeros (n : Z) : list R := repeat 0 (Z.to_nat n).

(** Read of one entry.  A read past the end is undefined in the source;
    here it yields 0. *)
Definition entry (buf : list R) (i : Z) : R := nth (Z.to_nat i) buf 0.

Definition gather (buf : list R) (idx : list Z) : list R :=
  map (entry buf) idx.

Fixpoint update (n : nat) (v : R) (buf : list R) : list R :=
  match buf, n with
  | [], _ => []
  | _ :: t, O => v :: t
  | h :: t, S n' => h :: update n' v t
  end.

(** [dr::scatter(buf, v, i)] with a scalar index. *)
Definition scatter1 (buf : list R) (v : R) (i : Z) : list R :=
  update (Z.to_nat i) v buf.

(** [dr::scatter(buf, vals, idx)] with an index array. *)
Definition scatter (buf vals : list R) (idx : list Z) : list R :=
  fold_left (fun b vi => scatter1 b (fst vi) (snd vi)) (combine vals idx) buf.

Definition sum (l : list R) : R := fold_right Rplus 0 l.

(** Boolean comparisons of [Float] values. *)
Definition leb (a b : R) : bool := if Rle_dec a b then true else false.
Definition ltb (a b : R) : bool := if Rlt_dec a b then true else false.
Definition eqb (a b : R) : bool := if Req_dec_T a b then true else false.

Definition select {A : Type} (m : bool) (a b : A) : A := if m then a else b.

End dr.

(** [DiscreteDistribution<Float>], built from its probability mass
    function. *)
Record DiscreteDistribution : Type := mkDiscrete { m_pmf : list R }.

(** ** The mixture builder *)

Section MixtureBuilder.

(** Constants of [mitsuba/render/sunsky.h]. *)
Variables TURBITDITY_LVLS ELEVATION_CTRL_PTS : Z.
Variables TGMM_COMPONENTS TGMM_GAUSSIAN_PARAMS : Z.

(** Indices and remainders of the bilinear set-up. *)
Record TgmmGrid : Type := mkGrid {
  eta_idx_low : Z; eta_idx_high : Z;
  t_idx_low : Z; t_idx_high : Z;
  eta_rem : R; t_rem : R
}.

Definition tgmm_grid (turbidity eta : R) : TgmmGrid :=
  let eta := dr.rad_to_deg eta in
  let eta_idx_f := dr.clip ((eta - 2) / 3) 0 (IZR (ELEVATION_CTRL_PTS - 1)) in
  let t_idx_f := dr.clip (turbidity - 2) 0 (IZR ((TURBITDITY_LVLS - 1) - 1)) in
  let eta_idx_low := dr.floor2int eta_idx_f in
  let t_idx_low := dr.floor2int t_idx_f in
  let eta_idx_high := Z.min (dr.u32 (eta_idx_low + 1)) (ELEVATION_CTRL_PTS - 1) in
  let t_idx_high := Z.min (dr.u32 (t_idx_low + 1)) ((TURBITDITY_LVLS - 1) - 1) in
  mkGrid eta_idx_low eta_idx_high t_idx_low t_idx_high
         (eta_idx_f - IZR eta_idx_low) (t_idx_f - IZR t_idx_low).

Definition t_block_size (size : Z) : Z :=
  dr.u32 (size / (TURBITDITY_LVLS - 1)).

Definition result_size (size : Z) : Z :=
  (t_block_size size / ELEVATION_CTRL_PTS)%Z.

Definition mad32 (a b c d : Z) : Z :=
  dr.u32 (dr.u32 (a * b) + dr.u32 (c * d)).

(** [indices[4]]. *)
Definition tgmm_indices (size : Z) (g : TgmmGrid) : list Z :=
  let tb := t_block_size size in
  let rs := result_size size in
  [ mad32 (t_idx_low g) tb (eta_idx_low g) rs;
    mad32 (t_idx_low g) tb (eta_idx_high g) rs;
    mad32 (t_idx_high g) tb (eta_idx_low g) rs;
    mad32 (t_idx_high g) tb (eta_idx_high g) rs ].

(** [lerp_factors[4]]. *)
Definition tgmm_lerp_factors (g : TgmmGrid) : list R :=
  [ (1 - t_rem g) * (1 - eta_rem g);
    (1 - t_rem g) * eta_rem g;
    t_rem g * (1 - eta_rem g);
    t_rem g * eta_rem g ].

(** Position of the weight of component [weight_idx] in a block. *)
Definition gaussian_weight_idx (weight_idx : Z) : Z :=
  dr.u32 (weight_idx * TGMM_GAUSSIAN_PARAMS + (TGMM_GAUSSIAN_PARAMS - 1)).

(** The inner loop: the weight of each component times the factor. *)
Definition apply_lerp_factor (factor : R) (params : list R) : list R :=
  fold_left
    (fun params weight_idx =>
       let i := gaussian_weight_idx weight_idx in
       dr.scatter1 params (dr.entry params i * factor) i)
    (dr.arange TGMM_COMPONENTS) params.

(** One turn of the loop over the four mixtures. *)
Definition tgmm_corner (dataset : list R) (rs : Z)
    (distrib_params : list R) (mixture_idx : Z) (index : Z) (factor : R)
    : list R :=
  let param_indices := dr.arange rs in
  let params :=
    dr.gather dataset (map (fun p => dr.u32 (index + p)) param_indices) in
  let params := apply_lerp_factor factor params in
  dr.scatter distrib_params params
    (map (fun p => dr.u32 (mixture_idx * rs + p)) param_indices).

Definition mis_weight_idx : list Z :=
  map (fun k => dr.u32 (dr.u32 (TGMM_GAUSSIAN_PARAMS * k)
                        + (TGMM_GAUSSIAN_PARAMS - 1)))
      (dr.arange (4 * TGMM_COMPONENTS)).

Definition build_tgmm_distribution (tgmm_datasets : list R)
    (turbidity eta : R) : list R * DiscreteDistribution :=
  let size := Z.of_nat (List.length tgmm_datasets) in
  let g := tgmm_grid turbidity eta in
  let rs := result_size size in
  let indices := tgmm_indices size g in
  let lerp_factors := tgmm_lerp_factors g in
  let distrib_params :=
    fold_left
      (fun acc m =>
         tgmm_corner tgmm_datasets rs acc m
           (nth (Z.to_nat m) indices 0%Z) (nth (Z.to_nat m) lerp_factors 0))
      (dr.arange 4) (dr.zeros (4 * rs)) in
  let mis_weights := dr.gather distrib_params mis_weight_idx in
  (distrib_params, mkDiscrete mis_weights).

(** Sum of the component weights of the dataset block at [index]. *)
Definition block_weight_sum (dataset : list R) (index : Z) : R :=
  dr.sum (map (fun w => dr.entry dataset (index + gaussian_weight_idx w))
              (dr.arange TGMM_COMPONENTS)).

End MixtureBuilder.

(** ** Tensors, vectors and records of the emitter *)

(** [TensorXf]: the extent of the first axis and the flat array. *)
Record TensorXf : Type := mkTensor { shape0 : nat; array : list R }.

Definition tensor_size (t : TensorXf) : nat := List.length (array t).

(** [dr::take(t, i).array()]: slice [i] along the first axis. *)
Definition take (t : TensorXf) (i : nat) : list R :=
  let inner := (tensor_size t / shape0 t)%nat in
  firstn inner (skipn (i * inner) (array t)).

Definition Vector3f : Type := (R * R * R)%type.
Definition Point2f : Type := (R * R)%type.

Definition vec_z (v : Vector3f) : R := snd v.

Record DateTimeRecord : Type := mkDateTime {
  year : Z; month : Z; day : Z; hour : R; minute : R; second : R
}.

Record LocationRecord : Type := mkLocation {
  latitude : R; longitude : R; timezone : R
}.

(** [ContinuousDistribution<Wavelength>]: default-constructed, or built
    from a range and a tabulated density. *)
Inductive ContinuousDistribution : Type :=
| EmptyDistribution
| RangeDistribution (range : Point2f) (pdf : list R).

(** A [Float] as the NaN guard sees it. *)
Inductive FloatValue : Type :=
| NaN
| Inf
| Finite (r : R).

(** IEEE division of two finite values. *)
Definition float_div (a b : R) : FloatValue :=
  if Req_dec_T b 0 then (if Req_dec_T a 0 then NaN else Inf)
  else Finite (a / b).

Definition isnan (f : FloatValue) : bool :=
  match f with NaN => true | _ => false end.

(** The rendering variant: the template arguments [Float], [Spectrum]. *)
Inductive ColorMode : Type := Monochromatic | Rgb | Spectral.

Record Variant : Type := mkVariant { float_is_array : bool; color : ColorMode }.

Definition is_rgb_v (v : Variant) : bool :=
  match color v with Rgb => true | _ => false end.

Definition is_spectral_v (v : Variant) : bool :=
  match color v with Spectral => true | _ => false end.

(** Exceptions of the plugin: the error raised by [Log(Error, ...)],
    the one raised by the macro [NotImplementedError], and the failure
    of a property look-up. *)
Inductive Exception : Type :=
| LogError (msg : string)
| NotImplementedError (name : string)
| PropertyError (name : string).

(** Values of a [Properties] object. *)
Inductive PropValue : Type :=
| PFloat (r : R)
| PInt (z : Z)
| PVector (v : Vector3f).

Definition Properties : Type := list (string * PropValue).

Fixpoint find_property (props : Properties) (name : string) : option PropValue :=
  match props with
  | [] => None
  | (k, v) :: rest => if String.eqb k name then Some v else find_property rest name
  end.

Definition has_property (props : Properties) (name : string) : bool :=
  match find_property props name with Some _ => true | None => false end.

(** [string::contains(keys, word)]. *)
Definition contains (keys : list string) (word : string) : bool :=
  existsb (String.eqb word) keys.

(** The members of [BaseSunskyEmitter] the plugin reads. *)
Record BaseSunskyEmitter (Transform4f : Type) : Type := mkBase {
  m_turbidity : R;
  m_sky_scale : R;
  m_sun_scale : R;
  m_albedo : list R;
  m_sun_half_aperture : R;
  m_sky_rad_dataset : TensorXf;
  m_sky_params_dataset : TensorXf;
  m_to_world : Transform4f
}.

Arguments m_turbidity {Transform4f}.
Arguments m_sky_scale {Transform4f}.
Arguments m_sun_scale {Transform4f}.
Arguments m_albedo {Transform4f}.
Arguments m_sun_half_aperture {Transform4f}.
Arguments m_sky_rad_dataset {Transform4f}.
Arguments m_sky_params_dataset {Transform4f}.
Arguments m_to_world {Transform4f}.

(** The members of [SunskyEmitter]. *)
Record SunskyEmitter (Transform4f : Type) : Type := mkEmitter {
  base : BaseSunskyEmitter Transform4f;
  m_sun_dir : Vector3f;
  m_sun_angles : Point2f;
  m_active_record : bool;
  m_time : DateTimeRecord;
  m_location : LocationRecord;
  m_sky_params : list R;
  m_sky_radiance : list R;
  m_sky_sampling_w : FloatValue;
  m_gaussian_distr : DiscreteDistribution;
  m_spectral_distr : ContinuousDistribution;
  m_tgmm_datasets : TensorXf;
  m_tgmm_tables : list R
}.

Arguments base {Transform4f}.
Arguments m_sun_dir {Transform4f}.
Arguments m_sun_angles {Transform4f}.
Arguments m_active_record {Transform4f}.
Arguments m_time {Transform4f}.
Arguments m_location {Transform4f}.
Arguments m_sky_params {Transform4f}.
Arguments m_sky_radiance {Transform4f}.
Arguments m_sky_sampling_w {Transform4f}.
Arguments m_gaussian_distr {Transform4f}.
Arguments m_spectral_distr {Transform4f}.
Arguments m_tgmm_datasets {Transform4f}.
Arguments m_tgmm_tables {Transform4f}.

(** ** The constructor's monad: exceptions and a log of the table
    computations performed so far *)

Inductive Event : Type :=
| EvWarn (msg : string)
| EvBilinearInterp
| EvBezierInterp
| EvLoadTgmmTables
| EvBuildTgmmDistribution
| EvEstimateSkySunRatio.

Inductive Outcome (A : Type) : Type :=
| Done (a : A) (log : list Event)
| Raised (e : Exception) (log : list Event).

Arguments Done {A}.
Arguments Raised {A}.

Definition M (A : Type) : Type := list Event -> Outcome A.

Definition ret {A : Type} (a : A) : M A := fun log => Done a log.

Definition bind {A B : Type} (m : M A) (k : A -> M B) : M B :=
  fun log =>
    match m log with
    | Done a log' => k a log'
    | Raised e log' => Raised e log'
    end.

Definition raise {A : Type} (e : Exception) : M A := fun log => Raised e log.

Definition tell (ev : Event) : M unit := fun log => Done tt (log ++ [ev]).

Notation "x <- m ;; k" := (bind m (fun x => k))
  (at level 61, m at next level, right associativity).
Notation "m ;;; k" := (bind m (fun _ => k))
  (at level 61, right associativity).

(** Modelled from the spec: the macro [Log] of the core library, which
    is not part of the sources at hand.  At level [Error] it raises
    (section 7: the configuration error is fatal, reported at
    construction); at level [Warn] it only records a message (section 7:
    non-fatal, logged). *)
Definition Log_Error {A : Type} (msg : string) : M A := raise (LogError msg).
Definition Log_Warn (msg : string) : M unit := tell (EvWarn msg).

(** [props.get<T>(name)] and [props.get<T>(name, default)]. *)
Definition get_vector (props : Properties) (name : string) : M Vector3f :=
  match find_property props name with
  | Some (PVector v) => ret v
  | _ => raise (PropertyError name)
  end.

Definition get_float (props : Properties) (name : string) (dflt : R) : M R :=
  match find_property props name with
  | None => ret dflt
  | Some (PFloat r) => ret r
  | Some (PInt z) => ret (IZR z)
  | Some (PVector _) => raise (PropertyError name)
  end.

Definition get_int (props : Properties) (name : string) (dflt : Z) : M Z :=
  match find_property props name with
  | None => ret dflt
  | Some (PInt z) => ret z
  | Some _ => raise (PropertyError name)
  end.

(** ** The emitter *)

(** Modelled from the spec: the constant [SKY_CTRL_PTS] of
    [mitsuba/render/sunsky.h], which is not part of the sources at hand
    (section 4.1: C = 6 control points; the initializer of [coefs] has
    six entries). *)
Definition SKY_CTRL_PTS : nat := 6.

Definition coefs : list R := [1; 5; 10; 10; 5; 1].

(** [dr::OneMinusEpsilon<Float>]. *)
Definition OneMinusEpsilon (Epsilon : R) : R := 1 - Epsilon.

(** [dr::Epsilon<double>]. *)
Definition Epsilon_double : R := / 2 ^ 53.

(** Entrywise operations on arrays of equal length. *)
Definition vadd (a b : list R) : list R :=
  map (fun p => fst p + snd p) (combine a b).

Definition vmul (a b : list R) : list R :=
  map (fun p => fst p * snd p) (combine a b).

Definition vscale (c : R) (a : list R) : list R := map (Rmult c) a.

(** [dr::meshgrid(a, b)], as the list of the paired entries. *)
Definition meshgrid {A B : Type} (a : list A) (b : list B) : list (A * B) :=
  flat_map (fun y => map (fun x => (x, y)) a) b.

(** [dr::sum_inner]: for each of [n] channels, the sum over the samples. *)
Definition sum_inner (n : nat) (rays : list (list R)) : list R :=
  map (fun c => dr.sum (map (fun ray => nth c ray 0) rays)) (seq 0 n).

(** *** [bezier_interp] *)

Section Bezier.

(** [dr::Epsilon<Float>]. *)
Variable Epsilon : R.

Definition bezier_x (eta : R) : R :=
  let x := dr.cbrt (2 * / PI * eta) in
  dr.minimum x (OneMinusEpsilon Epsilon).

Definition bezier_interp (dataset : TensorXf) (eta : R) : list R :=
  let res := dr.zeros (Z.of_nat (tensor_size dataset / shape0 dataset)) in
  let x := bezier_x eta in
  let x_pow := 1 in
  let x_pow_inv := (1 - x) ^ (SKY_CTRL_PTS - 1) in
  let x_pow_inv_scale := dr.rcp (1 - x) in
  fst (fold_left
    (fun st ctrl_pt =>
       let '(res, (x_pow, x_pow_inv)) := st in
       let data := take dataset ctrl_pt in
       let res := vadd res (vscale (nth ctrl_pt coefs 0 * x_pow * x_pow_inv) data) in
       (res, (x_pow * x, x_pow_inv * x_pow_inv_scale)))
    (seq 0 SKY_CTRL_PTS) (res, (x_pow, x_pow_inv))).

End Bezier.

(** What the plugin takes from the rest of the renderer: the constants
    of [mitsuba/render/sunsky.h], the rendering variant, and the
    functions of the base class and of the core library. *)
Module Env.

Record Environment : Type := mkEnvironment {
  TURBITDITY_LVLS : Z;
  ELEVATION_CTRL_PTS : Z;
  TGMM_COMPONENTS : Z;
  TGMM_GAUSSIAN_PARAMS : Z;
  CHANNEL_COUNT : nat;
  WAVELENGTH_COUNT : nat;
  WAVELENGTHS : list R;
  WAVELENGTH_STEP : R;
  SPEC_TO_RGB_SUN_CONV : R;
  (** [dr::Epsilon<Float>]. *)
  Epsilon : R;
  (** The rendering variant the plugin is instantiated for. *)
  variant : Variant;
  (** Transforms, frames and spherical coordinates. *)
  Transform4f : Type;
  transform_apply : Transform4f -> Vector3f -> Vector3f;
  transform_inverse : Transform4f -> Transform4f;
  normalize : Vector3f -> Vector3f;
  sph_to_dir : R -> R -> Vector3f;
  dir_to_sph : Vector3f -> Point2f;
  Frame3f_sin_theta : Vector3f -> R;
  Frame3f_cos_theta : Vector3f -> R;
  Frame3f_to_world : Vector3f -> Vector3f -> Vector3f;
  unit_angle : Vector3f -> Vector3f -> R;
  unit_angle_z : Vector3f -> R;
  (** Members of the base class and of the libraries it uses. *)
  sun_coordinates : DateTimeRecord -> LocationRecord -> R * R;
  bilinear_interp : TensorXf -> list R -> R -> TensorXf;
  Base_parameters_changed :
    list string -> BaseSunskyEmitter Transform4f -> BaseSunskyEmitter Transform4f;
  gaussian_cdf : Point2f -> Point2f -> Point2f -> Point2f;
  square_to_std_normal_pdf : Point2f -> R;
  eval_sky : list Z -> R -> R -> list R -> list R -> list R;
  eval_sun : list Z -> R -> R -> bool -> list R;
  compute_sun_ld : list Z -> R -> bool -> list R;
  get_area_ratio : R -> R;
  luminance_rgb : list R -> R;
  luminance_spec : list R -> list R -> R;
  gauss_legendre : nat -> list R * list R;
  sample_shifted : R -> list R;
  sample_pdf : ContinuousDistribution -> list R -> bool -> list R * list R;
  (** The tensor stored in the file [tgmm_tables.bin]. *)
  tgmm_tables_file : TensorXf;
  (** Values of the members before the constructor assigns them. *)
  default_time : DateTimeRecord;
  default_location : LocationRecord
}.

End Env.

Section Emitter.

Variable env : Env.Environment.

Local Abbreviation TURBITDITY_LVLS := (Env.TURBITDITY_LVLS env).
Local Abbreviation ELEVATION_CTRL_PTS := (Env.ELEVATION_CTRL_PTS env).
Local Abbreviation TGMM_COMPONENTS := (Env.TGMM_COMPONENTS env).
Local Abbreviation TGMM_GAUSSIAN_PARAMS := (Env.TGMM_GAUSSIAN_PARAMS env).
Local Abbreviation CHANNEL_COUNT := (Env.CHANNEL_COUNT env).
Local Abbreviation WAVELENGTH_COUNT := (Env.WAVELENGTH_COUNT env).
Local Abbreviation WAVELENGTHS := (Env.WAVELENGTHS env).
Local Abbreviation WAVELENGTH_STEP := (Env.WAVELENGTH_STEP env).
Local Abbreviation SPEC_TO_RGB_SUN_CONV := (Env.SPEC_TO_RGB_SUN_CONV env).
Local Abbreviation Epsilon := (Env.Epsilon env).
Local Abbreviation variant := (Env.variant env).
Local Abbreviation Transform4f := (Env.Transform4f env).
Local Abbreviation transform_apply := (Env.transform_apply env).
Local Abbreviation transform_inverse := (Env.transform_inverse env).
Local Abbreviation normalize := (Env.normalize env).
Local Abbreviation sph_to_dir := (Env.sph_to_dir env).
Local Abbreviation dir_to_sph := (Env.dir_to_sph env).
Local Abbreviation Frame3f_sin_theta := (Env.Frame3f_sin_theta env).
Local Abbreviation Frame3f_cos_theta := (Env.Frame3f_cos_theta env).
Local Abbreviation Frame3f_to_world := (Env.Frame3f_to_world env).
Local Abbreviation unit_angle := (Env.unit_angle env).
Local Abbreviation unit_angle_z := (Env.unit_angle_z env).
Local Abbreviation sun_coordinates := (Env.sun_coordinates env).
Local Abbreviation bilinear_interp := (Env.bilinear_interp env).
Local Abbreviation Base_parameters_changed := (Env.Base_parameters_changed env).
Local Abbreviation gaussian_cdf := (Env.gaussian_cdf env).
Local Abbreviation square_to_std_normal_pdf := (Env.square_to_std_normal_pdf env).
Local Abbreviation eval_sky := (Env.eval_sky env).
Local Abbreviation eval_sun := (Env.eval_sun env).
Local Abbreviation compute_sun_ld := (Env.compute_sun_ld env).
Local Abbreviation get_area_ratio := (Env.get_area_ratio env).
Local Abbreviation luminance_rgb := (Env.luminance_rgb env).
Local Abbreviation luminance_spec := (Env.luminance_spec env).
Local Abbreviation gauss_legendre := (Env.gauss_legendre env).
Local Abbreviation sample_shifted := (Env.sample_shifted env).
Local Abbreviation sample_pdf := (Env.sample_pdf env).
Local Abbreviation tgmm_tables_file := (Env.tgmm_tables_file env).
Local Abbreviation default_time := (Env.default_time env).
Local Abbreviation default_location := (Env.default_location env).
Local Abbreviation bezier_interp := (bezier_interp (Env.Epsilon env)).

Definition Base : Type := BaseSunskyEmitter Transform4f.
Definition Emitter : Type := SunskyEmitter Transform4f.

(** *** [sky_pdf] *)

Definition flip (p : Point2f) : Point2f := (snd p, fst p).

(** One turn of the loop over the Gaussians of the mixture table. *)
Definition tgmm_term (tables : list R) (angles : Point2f) (gaussian_idx : Z) : R :=
  let a : Point2f := (0, 0) in
  let b : Point2f := (2 * PI, 0.5 * PI) in
  let mu : Point2f :=
    (dr.entry tables (gaussian_idx + 0), dr.entry tables (gaussian_idx + 1)) in
  let sigma : Point2f :=
    (dr.entry tables (gaussian_idx + 2), dr.entry tables (gaussian_idx + 3)) in
  let cdf_a := gaussian_cdf mu sigma a in
  let cdf_b := gaussian_cdf mu sigma b in
  let volume := (fst cdf_b - fst cdf_a) * (snd cdf_b - snd cdf_a)
                * (fst sigma * snd sigma) in
  let sample : Point2f :=
    ((fst angles - fst mu) / fst sigma, (snd angles - snd mu) / snd sigma) in
  let gaussian_pdf := square_to_std_normal_pdf sample in
  dr.entry tables (gaussian_idx + 4) * gaussian_pdf / volume.

(** The values [gaussian_idx] takes: 0, P, 2P, ... below 4*C*P, for
    P = [TGMM_GAUSSIAN_PARAMS] > 0 and C = [TGMM_COMPONENTS]. *)
Definition gaussian_indices : list Z :=
  map (fun k => (k * TGMM_GAUSSIAN_PARAMS)%Z) (dr.arange (4 * TGMM_COMPONENTS)).

Definition tgmm_pdf (tables : list R) (angles : Point2f) : R :=
  fold_left (fun pdf gaussian_idx => pdf + tgmm_term tables angles gaussian_idx)
            gaussian_indices 0.

(** The angles of a direction in the frame where the sun's azimuth is
    pi/2. *)
Definition canonical_angles (local_dir : Vector3f) (sun_angles : Point2f) : Point2f :=
  let angles := flip (dir_to_sph local_dir) in
  let ax := fst angles - (fst sun_angles - 0.5 * PI) in
  let ax := dr.select (dr.ltb ax 0) (ax + 2 * PI) ax in
  let ax := dr.select (dr.ltb (2 * PI) ax) (ax - 2 * PI) ax in
  (ax, snd angles).

Definition sky_pdf (st : Emitter) (local_dir : Vector3f)
    (sun_angles : Point2f) (active : bool) : R :=
  let sin_theta := Frame3f_sin_theta local_dir in
  let active :=
    active && (dr.leb 0 (Frame3f_cos_theta local_dir)
               && negb (dr.eqb sin_theta 0)) in
  let sin_theta := dr.maximum sin_theta Epsilon in
  let angles := canonical_angles local_dir sun_angles in
  let active :=
    active && (dr.leb 0 (snd angles) && dr.leb (snd angles) (0.5 * PI)) in
  if negb active then 0
  else
    let pdf := tgmm_pdf (m_tgmm_tables st) angles in
    dr.select active (pdf / sin_theta) 0.

(** *** [sample_wlgth] *)

Definition sample_wlgth (st : Emitter) (sample : R) (active : bool)
    : Exception + (list R * list R) :=
  if is_spectral_v variant then
    let w_sample := sample_shifted sample in
    let sampled := sample_pdf (m_spectral_distr st) w_sample active in
    let wavelengths := fst sampled in
    let pdf := snd sampled in
    inr (wavelengths, map dr.rcp pdf)
  else inl (NotImplementedError "sample_wavelengths").

(** *** [estimate_sky_sun_ratio] *)

Definition channel_idx : list Z :=
  match color variant with
  | Rgb => [0; 1; 2]%Z
  | Spectral => [0; 1; 2; 3; 4; 5; 6; 7; 8; 9; 10]%Z
  | Monochromatic => [0]%Z
  end.

Definition wavelength_range : Point2f :=
  (nth 1 WAVELENGTHS 0, nth (WAVELENGTH_COUNT - 1) WAVELENGTHS 0).

(** Quadrature of the sky radiance over the hemisphere. *)
Definition integrate_sky (sun_angles : Point2f)
    (sky_radiance sky_params : list R) : list R :=
  let local_sun_dir := sph_to_dir (snd sun_angles) (fst sun_angles) in
  let x := fst (gauss_legendre 200) in
  let w_x := snd (gauss_legendre 200) in
  let J := 0.5 * PI in
  let phi := map (fun x => PI * (x + 1)) x in
  let cos_theta := map (fun x => 0.5 * (x + 1)) x in
  let samples := meshgrid (combine phi w_x) (combine cos_theta w_x) in
  let ray_radiance :=
    map (fun s : (R * R) * (R * R) =>
           let phi := fst (fst s) in
           let w_phi := snd (fst s) in
           let cos_theta := fst (snd s) in
           let w_cos_theta := snd (snd s) in
           let sin_theta := dr.safe_sqrt (1 - cos_theta * cos_theta) in
           let sky_wo : Vector3f :=
             (sin_theta * cos phi, sin_theta * sin phi, cos_theta) in
           let gamma := unit_angle local_sun_dir sky_wo in
           map (fun r => r * w_phi * w_cos_theta)
               (eval_sky channel_idx cos_theta gamma sky_params sky_radiance))
        samples in
  map (fun r => r * J) (sum_inner (List.length channel_idx) ray_radiance).

(** Quadrature of the sun radiance over the sun's disk. *)
Definition integrate_sun (sun_half_aperture : R) (sun_angles : Point2f) : list R :=
  let local_sun_dir := sph_to_dir (snd sun_angles) (fst sun_angles) in
  let x := fst (gauss_legendre 200) in
  let w_x := snd (gauss_legendre 200) in
  let cosine_cutoff := cos sun_half_aperture in
  let J := 0.5 * PI * (1 - cosine_cutoff) in
  let phi := map (fun x => PI * (x + 1)) x in
  let cos_gamma :=
    map (fun x => 0.5 * ((1 - cosine_cutoff) * x + (1 + cosine_cutoff))) x in
  let samples := meshgrid (combine phi w_x) (combine cos_gamma w_x) in
  let ray_radiance :=
    map (fun s : (R * R) * (R * R) =>
           let phi := fst (fst s) in
           let w_phi := snd (fst s) in
           let cos_gamma := fst (snd s) in
           let w_cos_theta := snd (snd s) in
           let sin_gamma := dr.safe_sqrt (1 - cos_gamma * cos_gamma) in
           let sun_wo : Vector3f :=
             (sin_gamma * cos phi, sin_gamma * sin phi, cos_gamma) in
           let gamma := unit_angle_z sun_wo in
           let sun_wo := Frame3f_to_world local_sun_dir sun_wo in
           let cos_theta := Frame3f_cos_theta sun_wo in
           let active := dr.leb 0 cos_theta in
           let ray :=
             map (fun r => r * w_phi * w_cos_theta)
                 (eval_sun channel_idx cos_theta gamma active) in
           if is_spectral_v variant
           then vmul ray (compute_sun_ld channel_idx gamma active)
           else ray)
        samples in
  map (fun r => r * J) (sum_inner (List.length channel_idx) ray_radiance).

(** The values of [sky_lum] and [sun_lum] where the ratio is taken. *)
Definition spectral_wavelengths : list R :=
  map (fun c => WAVELENGTH_STEP * IZR c + nth 0 WAVELENGTHS 0) channel_idx.

Definition sky_lum (b : Base) (sky_radiance : list R) : R :=
  if is_rgb_v variant
  then m_sky_scale b * luminance_rgb sky_radiance
  else m_sky_scale b * luminance_spec sky_radiance spectral_wavelengths.

Definition sun_lum (b : Base) (sun_radiance : list R) : R :=
  if is_rgb_v variant
  then m_sun_scale b * (luminance_rgb sun_radiance
                        * get_area_ratio (m_sun_half_aperture b)
                        * SPEC_TO_RGB_SUN_CONV)
  else m_sun_scale b * (luminance_spec sun_radiance spectral_wavelengths
                        * get_area_ratio (m_sun_half_aperture b)).

(** The two terms of the ratio: the luminances in the array variants,
    the scale factors in the scalar ones. *)
Definition sky_luminance (b : Base) (sun_angles : Point2f)
    (m_sky_radiance m_sky_params : list R) : R :=
  if negb (float_is_array variant) then m_sky_scale b
  else sky_lum b (integrate_sky sun_angles m_sky_radiance m_sky_params).

Definition sun_luminance (b : Base) (sun_angles : Point2f) : R :=
  if negb (float_is_array variant) then m_sun_scale b
  else sun_lum b (integrate_sun (m_sun_half_aperture b) sun_angles).

(** [dr::select(dr::isnan(res), 0.f, res)]. *)
Definition nan_to_zero (res : FloatValue) : FloatValue :=
  dr.select (isnan res) (Finite 0) res.

Definition all_zero (l : list R) : bool := forallb (fun r => dr.eqb r 0) l.

Definition estimate_sky_sun_ratio (b : Base) (sun_angles : Point2f)
    (m_sky_radiance m_sky_params : list R)
    : FloatValue * ContinuousDistribution :=
  let range := wavelength_range in
  if negb (float_is_array variant) then
    let distribution := [1; 1] in
    let sky_weight := float_div (m_sky_scale b) (m_sky_scale b + m_sun_scale b) in
    let sky_weight := nan_to_zero sky_weight in
    (sky_weight, RangeDistribution range distribution)
  else
    let sky_radiance := integrate_sky sun_angles m_sky_radiance m_sky_params in
    let sun_radiance := integrate_sun (m_sun_half_aperture b) sun_angles in
    let sky_lum := sky_lum b sky_radiance in
    let sun_lum := sun_lum b sun_radiance in
    let res := float_div sky_lum (sky_lum + sun_lum) in
    let res := nan_to_zero res in
    if is_spectral_v variant then
      let avg_spec := vadd sun_radiance sky_radiance in
      let spectrum :=
        map (fun i => nth (i + 1) avg_spec 0) (seq 0 (CHANNEL_COUNT - 1)) in
      let spectrum :=
        if all_zero spectrum then map (fun r => r + 1) spectrum else spectrum in
      (res, RangeDistribution range spectrum)
    else (res, EmptyDistribution).

(** *** The constructor, after the base class has been constructed *)

Definition location_time_given (props : Properties) : bool :=
  has_property props "latitude" || has_property props "longitude"
  || has_property props "timezone" || has_property props "year"
  || has_property props "month" || has_property props "day"
  || has_property props "hour" || has_property props "minute"
  || has_property props "second".

Definition both_given_message : string :=
  "Both the 'sun_direction' and parameters for time/location were provided, both information cannot be given at the same time!".

Definition below_horizon_message : string :=
  "The sun is below the horizon at the specified time and location!".

(** The table computations, each recorded in the log.  The TGMM file
    is taken to be present and well formed and the distributions to be
    accepted by their constructors: a failure of the file resolver, of
    [load_field] or of a distribution constructor is outside the
    model. *)
Definition bilinear_interp_logged (d : TensorXf) (albedo : list R) (t : R)
    : M TensorXf :=
  tell EvBilinearInterp ;;; ret (bilinear_interp d albedo t).

Definition bezier_interp_logged (d : TensorXf) (eta : R) : M (list R) :=
  tell EvBezierInterp ;;; ret (bezier_interp d eta).

Definition load_tgmm_tables : M TensorXf :=
  tell EvLoadTgmmTables ;;; ret tgmm_tables_file.

Definition build_tgmm_distribution_logged (d : list R) (t eta : R)
    : M (list R * DiscreteDistribution) :=
  tell EvBuildTgmmDistribution ;;;
  ret (build_tgmm_distribution TURBITDITY_LVLS ELEVATION_CTRL_PTS
         TGMM_COMPONENTS TGMM_GAUSSIAN_PARAMS d t eta).

Definition estimate_sky_sun_ratio_logged (b : Base) (sun_angles : Point2f)
    (sky_radiance sky_params : list R)
    : M (FloatValue * ContinuousDistribution) :=
  tell EvEstimateSkySunRatio ;;;
  ret (estimate_sky_sun_ratio b sun_angles sky_radiance sky_params).

(** The first part of the constructor: the mode, the sun direction and
    the time and location records. *)
Definition read_sun_configuration (props : Properties) (b : Base)
    : M (bool * Vector3f * DateTimeRecord * LocationRecord) :=
  if has_property props "sun_direction" then
    (if location_time_given props
     then Log_Error both_given_message
     else ret tt) ;;;
    d <- get_vector props "sun_direction" ;;
    ret (false, normalize d, default_time, default_location)
  else
    lat <- get_float props "latitude" (356894 / 10000) ;;
    lon <- get_float props "longitude" (1396917 / 10000) ;;
    tz <- get_float props "timezone" 9 ;;
    y <- get_int props "year" 2010 ;;
    mo <- get_int props "month" 7 ;;
    d <- get_int props "day" 10 ;;
    h <- get_float props "hour" 15 ;;
    mi <- get_float props "minute" 0 ;;
    s <- get_float props "second" 0 ;;
    let location := mkLocation lat lon tz in
    let time := mkDateTime y mo d h mi s in
    let theta := fst (sun_coordinates time location) in
    let phi := snd (sun_coordinates time location) in
    ret (true, transform_apply (m_to_world b) (sph_to_dir theta phi),
         time, location).

Definition SunskyEmitter_ctor (props : Properties) (b : Base) : M Emitter :=
  cfg <- read_sun_configuration props b ;;
  let active_record := fst (fst (fst cfg)) in
  let sun_dir := snd (fst (fst cfg)) in
  let time := snd (fst cfg) in
  let location := snd cfg in
  let local_sun_dir :=
    transform_apply (transform_inverse (m_to_world b)) sun_dir in
  (if dr.ltb (vec_z local_sun_dir) 0
   then Log_Warn below_horizon_message
   else ret tt) ;;;
  let sun_angles := flip (dir_to_sph local_sun_dir) in
  let sun_eta := 0.5 * PI - snd sun_angles in
  temp_sky_params <-
    bilinear_interp_logged (m_sky_params_dataset b) (m_albedo b) (m_turbidity b) ;;
  sky_params <- bezier_interp_logged temp_sky_params sun_eta ;;
  temp_sky_radiance <-
    bilinear_interp_logged (m_sky_rad_dataset b) (m_albedo b) (m_turbidity b) ;;
  sky_radiance <- bezier_interp_logged temp_sky_radiance sun_eta ;;
  tgmm_datasets <- load_tgmm_tables ;;
  tgmm <- build_tgmm_distribution_logged (array tgmm_datasets) (m_turbidity b) sun_eta ;;
  ratio <- estimate_sky_sun_ratio_logged b sun_angles sky_radiance sky_params ;;
  ret (mkEmitter Transform4f b sun_dir sun_angles active_record time location
         sky_params sky_radiance (fst ratio) (snd tgmm) (snd ratio)
         tgmm_datasets (fst tgmm)).

(** *** [parameters_changed] *)

Definition parameters_changed (keys : list string) (st : Emitter) : Emitter :=
  let b := Base_parameters_changed keys (base st) in
  let CHANGED := contains keys in
  let keys_empty := match keys with [] => true | _ :: _ => false end in
  let changed_atmosphere :=
    keys_empty || CHANGED "albedo" || CHANGED "turbidity" in
  let changed_time_record :=
    keys_empty || (m_active_record st && (
      CHANGED "timezone" || CHANGED "year" ||
      CHANGED "day" || CHANGED "month" || CHANGED "hour" ||
      CHANGED "minute" || CHANGED "second" || CHANGED "latitude" ||
      CHANGED "longitude")) in
  let changed_sun_dir :=
    (negb (m_active_record st) && CHANGED "sun_direction")
    || changed_time_record in
  let sun :=
    if changed_time_record then
      let theta := fst (sun_coordinates (m_time st) (m_location st)) in
      let phi := snd (sun_coordinates (m_time st) (m_location st)) in
      (transform_apply (m_to_world b) (sph_to_dir theta phi), (phi, theta))
    else if changed_sun_dir then
      (m_sun_dir st,
       flip (dir_to_sph
               (transform_apply (transform_inverse (m_to_world b)) (m_sun_dir st))))
    else (m_sun_dir st, m_sun_angles st) in
  let sun_dir := fst sun in
  let sun_angles := snd sun in
  let eta := 0.5 * PI - snd sun_angles in
  let sky :=
    if changed_sun_dir || changed_atmosphere then
      let temp_sky_params :=
        bilinear_interp (m_sky_params_dataset b) (m_albedo b) (m_turbidity b) in
      let temp_sky_radiance :=
        bilinear_interp (m_sky_rad_dataset b) (m_albedo b) (m_turbidity b) in
      (bezier_interp temp_sky_params eta, bezier_interp temp_sky_radiance eta)
    else (m_sky_params st, m_sky_radiance st) in
  let tgmm :=
    if changed_sun_dir || CHANGED "turbidity" then
      build_tgmm_distribution TURBITDITY_LVLS ELEVATION_CTRL_PTS
        TGMM_COMPONENTS TGMM_GAUSSIAN_PARAMS
        (array (m_tgmm_datasets st)) (m_turbidity b) eta
    else (m_tgmm_tables st, m_gaussian_distr st) in
  let ratio := estimate_sky_sun_ratio b sun_angles (snd sky) (fst sky) in
  mkEmitter Transform4f b sun_dir sun_angles (m_active_record st)
    (m_time st) (m_location st) (fst sky) (snd sky) (fst ratio) (snd tgmm)
    (snd ratio) (m_tgmm_datasets st) (fst tgmm).

End Emitter.

(** ** The statements of the specification, in its own words *)

(** Section 4.1: the sum over the control points of
    coef[i] x^i (1-x)^(C-1-i) dataset[i], at entry [j]. *)
Definition bernstein_blend (dataset : TensorXf) (x : R) (j : nat) : R :=
  dr.sum (map (fun i => nth i coefs 0 * x ^ i * (1 - x) ^ (SKY_CTRL_PTS - 1 - i)
                        * nth j (take dataset i) 0)
              (seq 0 SKY_CTRL_PTS)).

(** Section 4.1: x = clamp(cbrt((2/pi) eta), 0, 1 - epsilon). *)
Definition clamped_x (Epsilon eta : R) : R :=
  dr.clip (dr.cbrt (2 / PI * eta)) 0 (1 - Epsilon).

(** The exact limit over the reals: as eta tends to pi/2 from inside
    the range of elevations, entry [j] of the blend tends to entry [j]
    of the last control point. *)
Definition converges_to_last_control_point
    (Epsilon : R) (dataset : TensorXf) (j : nat) : Prop :=
  limit1_in (fun eta => nth j (bezier_interp Epsilon dataset eta) 0)
            (fun eta => 0 <= eta < PI / 2)
            (nth j (take dataset (SKY_CTRL_PTS - 1)) 0)
            (PI / 2).


(** ** A closed instance of the environment

    The constants are those of the shipped plugin in its vectorized
    spectral double-precision variant; transforms are trivial and the
    collaborators are simple stand-ins.  It serves to exhibit the
    theorems at concrete inputs. *)

Definition reference_env : Env.Environment :=
  Env.mkEnvironment
    10 30 5 5 11 11
    [320; 360; 400; 440; 480; 520; 560; 600; 640; 680; 720] 40
    (467069280386 / 1000000000)
    Epsilon_double
    (mkVariant true Spectral)
    unit
    (fun _ v => v)
    (fun t => t)
    (fun v => v)
    (fun theta phi => (sin theta * cos phi, sin theta * sin phi, cos theta))
    (fun v => (acos (vec_z v), 0))
    (fun v => dr.safe_sqrt (1 - vec_z v * vec_z v))
    vec_z
    (fun _ v => v)
    (fun _ _ => 0)
    (fun v => acos (vec_z v))
    (fun _ _ => (PI / 2, 0))
    (fun d _ _ => d)
    (fun _ b => b)
    (fun _ _ _ => (0, 0))
    (fun _ => 0)
    (fun _ _ _ _ _ => [])
    (fun _ _ _ _ => [])
    (fun _ _ _ => [])
    (fun _ => 1)
    (fun _ => 1)
    (fun _ _ => 1)
    (fun _ => ([], []))
    (fun _ => [])
    (fun _ _ _ => ([], []))
    (mkTensor 270 (repeat (/ 5) (Z.to_nat 6750)))
    (mkDateTime 0 0 0 0 0 0)
    (mkLocation 0 0 0).

Definition reference_base : Base reference_env :=
  mkBase unit 3 1 1 [3 / 10] (388 / 100000)
    (mkTensor 6 [1; 2; 3; 4; 5; 6]) (mkTensor 6 [1; 2; 3; 4; 5; 6]) tt.

(** An emitter in direct sun-direction mode, the sun at the zenith. *)
Definition reference_emitter : Emitter reference_env :=
  mkEmitter unit reference_base (0, 0, 1) (0, 0) false
    (mkDateTime 0 0 0 0 0 0) (mkLocation 0 0 0)
    [] [] (Finite 0) (mkDiscrete []) EmptyDistribution
    (mkTensor 270 (repeat (/ 5) (Z.to_nat 6750))) [].
(** ** Further members of the emitter *)

(** [ParamFlags], as far as the plugin uses them. *)
Inductive ParamFlags : Type := Differentiable | NonDifferentiable.

(** [dr::lerp(a, b, t)]. *)
Definition lerp (a b t : R) : R := b * t + (a - a * t).

Section Members.

Variable env : Env.Environment.

(** The entries [traverse] puts into the callback after the call of
    [Base::traverse]. *)
Definition own_parameters (st : Emitter env) : list (string * ParamFlags) :=
  if m_active_record st then
    [ ("latitude", NonDifferentiable); ("longitude", NonDifferentiable);
      ("timezone", NonDifferentiable); ("year", NonDifferentiable);
      ("day", NonDifferentiable); ("month", NonDifferentiable);
      ("hour", NonDifferentiable); ("minute", NonDifferentiable);
      ("second", NonDifferentiable) ]
  else [ ("sun_direction", Differentiable) ].

(** [traverse], the callback being the list of the entries put so far;
    [base_entries] are those [Base::traverse] puts. *)
Definition traverse (base_entries : list (string * ParamFlags))
    (cb : list (string * ParamFlags)) (st : Emitter env)
    : list (string * ParamFlags) :=
  cb ++ base_entries ++ own_parameters st.

Definition get_sun_angles (st : Emitter env) (time : R) : Point2f :=
  m_sun_angles st.

Definition get_sky_sampling_weight (st : Emitter env)
    (sun_angles : Point2f) (active : bool) : FloatValue :=
  m_sky_sampling_w st.

(** *** [sample_sky] *)

(** [DiscreteDistribution::sample_reuse], [dr::erfinv] and
    [dr::sphdir], of the core library and of Dr.Jit. *)
Variable sample_reuse : DiscreteDistribution -> R -> bool -> Z * R.
Variable erfinv : R -> R.
Variable sphdir : R -> R -> Vector3f.

(** The uniform values handed to [dr::erfinv], after the clamp. *)
Definition sample_sky_uniforms (st : Emitter env) (sample : Point2f)
    (active : bool) : Point2f :=
  let gaussian_idx := fst (sample_reuse (m_gaussian_distr st) (fst sample) active) in
  let temp_sample := snd (sample_reuse (m_gaussian_distr st) (fst sample) active) in
  let P := Env.TGMM_GAUSSIAN_PARAMS env in
  let gaussian := fun i => dr.entry (m_tgmm_tables st) (gaussian_idx * P + i) in
  let a : Point2f := (0, 0) in
  let b : Point2f := (2 * PI, 0.5 * PI) in
  let mu : Point2f := (gaussian 0%Z, gaussian 1%Z) in
  let sigma : Point2f := (gaussian 2%Z, gaussian 3%Z) in
  let cdf_a := Env.gaussian_cdf env mu sigma a in
  let cdf_b := Env.gaussian_cdf env mu sigma b in
  let sx := lerp (fst cdf_a) (fst cdf_b) temp_sample in
  let sy := lerp (snd cdf_a) (snd cdf_b) (snd sample) in
  (dr.clip sx (Env.Epsilon env) (OneMinusEpsilon (Env.Epsilon env)),
   dr.clip sy (Env.Epsilon env) (OneMinusEpsilon (Env.Epsilon env))).

(** The sampled angles (phi, theta) in the local frame. *)
Definition sample_sky_angles (st : Emitter env) (sample : Point2f)
    (sun_angles : Point2f) (active : bool) : Point2f :=
  let gaussian_idx := fst (sample_reuse (m_gaussian_distr st) (fst sample) active) in
  let P := Env.TGMM_GAUSSIAN_PARAMS env in
  let gaussian := fun i => dr.entry (m_tgmm_tables st) (gaussian_idx * P + i) in
  let mu : Point2f := (gaussian 0%Z, gaussian 1%Z) in
  let sigma : Point2f := (gaussian 2%Z, gaussian 3%Z) in
  let sample := sample_sky_uniforms st sample active in
  let ax := sqrt 2 * erfinv (2 * fst sample - 1) * fst sigma + fst mu in
  let ay := sqrt 2 * erfinv (2 * snd sample - 1) * snd sigma + snd mu in
  let ax := ax + (fst sun_angles - 0.5 * PI) in
  let ay := dr.minimum ay (0.5 * PI - Env.Epsilon env) in
  (ax, ay).

Definition sample_sky (st : Emitter env) (sample : Point2f)
    (sun_angles : Point2f) (active : bool) : Vector3f :=
  let angles := sample_sky_angles st sample sun_angles active in
  sphdir (snd angles) (fst angles).

(** *** The cached tables against the configuration *)

(** The derived members are those computed from the base members and
    the sun angles the emitter holds. *)
Definition derived_state_consistent (st : Emitter env) : Prop :=
  let b := base st in
  let eta := 0.5 * PI - snd (m_sun_angles st) in
  m_sky_params st =
    bezier_interp (Env.Epsilon env)
      (Env.bilinear_interp env (m_sky_params_dataset b) (m_albedo b) (m_turbidity b))
      eta /\
  m_sky_radiance st =
    bezier_interp (Env.Epsilon env)
      (Env.bilinear_interp env (m_sky_rad_dataset b) (m_albedo b) (m_turbidity b))
      eta /\
  (m_tgmm_tables st, m_gaussian_distr st) =
    build_tgmm_distribution (Env.TURBITDITY_LVLS env) (Env.ELEVATION_CTRL_PTS env)
      (Env.TGMM_COMPONENTS env) (Env.TGMM_GAUSSIAN_PARAMS env)
      (array (m_tgmm_datasets st)) (m_turbidity b) eta /\
  (m_sky_sampling_w st, m_spectral_distr st) =
    estimate_sky_sun_ratio env b (m_sun_angles st) (m_sky_radiance st) (m_sky_params st).

(** The sun angles of the configuration: in record mode those of the
    time and location records, in direct mode those of the stored
    direction taken to the local frame. *)
Definition configured_sun_angles (st : Emitter env) : Point2f :=
  if m_active_record st then
    (snd (Env.sun_coordinates env (m_time st) (m_location st)),
     fst (Env.sun_coordinates env (m_time st) (m_location st)))
  else
    flip (Env.dir_to_sph env
            (Env.transform_apply env
               (Env.transform_inverse env (m_to_world (base st)))
               (m_sun_dir st))).

End Members.

(** Whether the keys name a member of the time or location record. *)
Definition names_record_key (keys : list string) : bool :=
  contains keys "timezone" || contains keys "year" ||
  contains keys "day" || contains keys "month" || contains keys "hour" ||
  contains keys "minute" || contains keys "second" || contains keys "latitude" ||
  contains keys "longitude".

(** The density of the mixture stored at block [index] of the dataset:
    the sum of the terms of its components. *)
Definition block_pdf (env : Env.Environment) (dataset : list R)
    (angles : Point2f) (index : Z) : R :=
  dr.sum (map (fun w => tgmm_term env dataset angles
                          (index + w * Env.TGMM_GAUSSIAN_PARAMS env))
              (dr.arange (Env.TGMM_COMPONENTS env))).

(** A computation of the constructor's monad that leaves the log as it
    is and can only fail on a property look-up. *)
Definition only_property_errors {A : Type} (m : M A) : Prop :=
  forall log,
    (exists a, m log = Done a log) \/
    (exists name, m log = Raised (PropertyError name) log).

(** The events of the table computations of the constructor, in the
    order of the source. *)
Definition constructor_events : list Event :=
  [EvBilinearInterp; EvBezierInterp; EvBilinearInterp; EvBezierInterp;
   EvLoadTgmmTables; EvBuildTgmmDistribution; EvEstimateSkySunRatio].

(** The reference emitter after a full recomputation. *)
Definition reference_constructed : Emitter reference_env :=
  parameters_changed reference_env [] reference_emitter.

(** An emitter whose mixture table holds a single Gaussian centred at
    azimuth pi/2 and elevation 0. *)
Definition reference_single_gaussian : Emitter reference_env :=
  mkEmitter unit reference_base (0, 0, 1) (0, 0) false
    (mkDateTime 0 0 0 0 0 0) (mkLocation 0 0 0)
    [] [] (Finite 0) (mkDiscrete [1]) EmptyDistribution
    (mkTensor 270 (repeat (/ 5) (Z.to_nat 6750))) [PI / 2; 0; 1; 1; 1].

(** * Properties *)

(** ** Facts about the primitives *)

Lemma clip_bounds (v lo hi : R) :
  lo <= hi -> lo <= dr.clip v lo hi <= hi.
Proof.
  intros Hle. unfold dr.clip, dr.maximum, dr.minimum.
  split.
  - apply Rmax_r.
  - apply Rmax_lub; [apply Rmin_r | exact Hle].
Qed.

Lemma u32_range (z : Z) : (0 <= dr.u32 z < 2 ^ 32)%Z.
Proof. unfold dr.u32. apply Z.mod_pos_bound. lia. Qed.

Lemma u32_le (z : Z) : (0 <= z -> dr.u32 z <= z)%Z.
Proof. intros Hz. unfold dr.u32. apply Z.mod_le; lia. Qed.

Lemma u32_small (z : Z) : (0 <= z < 2 ^ 32 -> dr.u32 z = z)%Z.
Proof. intros Hz. unfold dr.u32. apply Z.mod_small. exact Hz. Qed.

Lemma floor2int_bounds (a : R) (n : Z) :
  0 <= a <= IZR n -> (0 <= dr.floor2int a <= n)%Z.
Proof.
  intros [H0 Hn]. unfold dr.floor2int.
  assert (Hlo : (0 <= Zfloor a)%Z) by (apply Zfloor_lub; exact H0).
  assert (Hhi : (Zfloor a <= n)%Z).
  { apply le_IZR. apply Rle_trans with a; [apply Zfloor_bound | exact Hn]. }
  pose proof (u32_range (Zfloor a)). pose proof (u32_le (Zfloor a) Hlo). lia.
Qed.

Lemma in_arange (n p : Z) : In p (dr.arange n) <-> (0 <= p < n)%Z.
Proof.
  unfold dr.arange. rewrite in_map_iff. split.
  - intros [k [Hk Hin]]. apply in_seq in Hin. lia.
  - intros Hp. exists (Z.to_nat p). split; [lia | apply in_seq; lia].
Qed.

Lemma update_length (n : nat) (v : R) (buf : list R) :
  List.length (dr.update n v buf) = List.length buf.
Proof.
  revert n. induction buf as [|h t IH]; intros [|n]; simpl; auto.
Qed.

Lemma nth_update (n k : nat) (v : R) (buf : list R) :
  nth k (dr.update n v buf) 0 =
  if (Nat.eqb k n && Nat.ltb n (List.length buf))%bool then v else nth k buf 0.
Proof.
  revert n k. induction buf as [|h t IH]; intros n k.
  - simpl. rewrite andb_false_r. destruct n; reflexivity.
  - destruct n as [|n]; destruct k as [|k]; simpl; try reflexivity.
    rewrite IH. reflexivity.
Qed.

Lemma sum_app (a b : list R) : dr.sum (a ++ b) = dr.sum a + dr.sum b.
Proof.
  unfold dr.sum. induction a as [|x a IH]; simpl.
  - lra.
  - rewrite IH. lra.
Qed.

Lemma sum_map_scale (A : Type) (f : A -> R) (c : R) (l : list A) :
  dr.sum (map (fun a => f a * c) l) = dr.sum (map f l) * c.
Proof.
  unfold dr.sum. induction l as [|x l IH]; simpl.
  - lra.
  - rewrite IH. lra.
Qed.

(** ** The mixture builder: bounds of the gathers *)

Section MixtureBounds.

Variables TURBITDITY_LVLS ELEVATION_CTRL_PTS : Z.
Hypothesis turbidity_levels : (2 <= TURBITDITY_LVLS)%Z.
Hypothesis elevation_points : (1 <= ELEVATION_CTRL_PTS)%Z.

Local Abbreviation grid := (tgmm_grid TURBITDITY_LVLS ELEVATION_CTRL_PTS).
Local Abbreviation tbs := (t_block_size TURBITDITY_LVLS).
Local Abbreviation rs := (result_size TURBITDITY_LVLS ELEVATION_CTRL_PTS).

Lemma grid_bounds (turbidity eta : R) :
  let g := grid turbidity eta in
  (0 <= t_idx_low g <= TURBITDITY_LVLS - 2)%Z /\
  (0 <= t_idx_high g <= TURBITDITY_LVLS - 2)%Z /\
  (0 <= eta_idx_low g <= ELEVATION_CTRL_PTS - 1)%Z /\
  (0 <= eta_idx_high g <= ELEVATION_CTRL_PTS - 1)%Z.
Proof.
  unfold tgmm_grid; simpl.
  set (ef := dr.clip _ 0 (IZR (ELEVATION_CTRL_PTS - 1))).
  set (tf := dr.clip _ 0 (IZR (TURBITDITY_LVLS - 1 - 1))).
  assert (He : (0 <= dr.floor2int ef <= ELEVATION_CTRL_PTS - 1)%Z).
  { apply floor2int_bounds. apply clip_bounds. apply IZR_le. lia. }
  assert (Ht : (0 <= dr.floor2int tf <= TURBITDITY_LVLS - 1 - 1)%Z).
  { apply floor2int_bounds. apply clip_bounds. apply IZR_le. lia. }
  pose proof (u32_range (dr.floor2int ef + 1)).
  pose proof (u32_range (dr.floor2int tf + 1)).
  repeat split; lia.
Qed.

Lemma sizes_bounds (size : Z) :
  (0 <= size)%Z ->
  (0 <= tbs size)%Z /\ (0 <= rs size)%Z /\
  (ELEVATION_CTRL_PTS * rs size <= tbs size)%Z /\
  ((TURBITDITY_LVLS - 1) * tbs size <= size)%Z.
Proof.
  intros Hsize. unfold result_size, t_block_size.
  set (q := (size / (TURBITDITY_LVLS - 1))%Z).
  assert (Hq : (0 <= q)%Z) by (apply Z.div_pos; lia).
  pose proof (u32_range q) as Hr. pose proof (u32_le q Hq) as Hle.
  assert (Hmul : ((TURBITDITY_LVLS - 1) * q <= size)%Z)
    by (apply Z.mul_div_le; lia).
  repeat split.
  - lia.
  - apply Z.div_pos; lia.
  - apply Z.mul_div_le; lia.
  - nia.
Qed.

Lemma mad32_le (a b c d : Z) :
  (0 <= a -> 0 <= b -> 0 <= c -> 0 <= d ->
   0 <= mad32 a b c d <= a * b + c * d)%Z.
Proof.
  intros Ha Hb Hc Hd. unfold mad32.
  assert (0 <= a * b)%Z by nia. assert (0 <= c * d)%Z by nia.
  pose proof (u32_range (a * b)). pose proof (u32_le (a * b)).
  pose proof (u32_range (c * d)). pose proof (u32_le (c * d)).
  pose proof (u32_range (dr.u32 (a * b) + dr.u32 (c * d))).
  pose proof (u32_le (dr.u32 (a * b) + dr.u32 (c * d))).
  lia.
Qed.

Lemma index_bound (size : Z) (g : TgmmGrid) (index : Z) :
  (0 <= size)%Z ->
  (0 <= t_idx_low g <= TURBITDITY_LVLS - 2)%Z ->
  (0 <= t_idx_high g <= TURBITDITY_LVLS - 2)%Z ->
  (0 <= eta_idx_low g <= ELEVATION_CTRL_PTS - 1)%Z ->
  (0 <= eta_idx_high g <= ELEVATION_CTRL_PTS - 1)%Z ->
  In index (tgmm_indices TURBITDITY_LVLS ELEVATION_CTRL_PTS size g) ->
  (0 <= index /\ index + rs size <= size)%Z.
Proof.
  intros Hsize Htl Hth Hel Heh Hin.
  destruct (sizes_bounds size Hsize) as (Hb & Hr & Her & Htb).
  assert (Hgen : forall t e,
    (0 <= t <= TURBITDITY_LVLS - 2)%Z -> (0 <= e <= ELEVATION_CTRL_PTS - 1)%Z ->
    (0 <= mad32 t (tbs size) e (rs size)
     /\ mad32 t (tbs size) e (rs size) + rs size <= size)%Z).
  { intros t e Ht He.
    pose proof (mad32_le t (tbs size) e (rs size)) as Hm.
    assert (t * tbs size <= (TURBITDITY_LVLS - 2) * tbs size)%Z by nia.
    assert (e * rs size <= (ELEVATION_CTRL_PTS - 1) * rs size)%Z by nia.
    split; [lia | nia]. }
  simpl in Hin.
  destruct Hin as [<- | [<- | [<- | [<- | []]]]]; apply Hgen; assumption.
Qed.

(** C10.  Whatever the turbidity and the elevation, the turbidity
    indices of the four corners are at most TURBITDITY_LVLS - 2, the
    elevation indices at most ELEVATION_CTRL_PTS - 1, and every index
    of the TGMM dataset that the four gathers read lies inside the
    buffer. *)
Theorem tgmm_gather_in_bounds (tgmm_datasets : list R) (turbidity eta : R) :
  let size := Z.of_nat (List.length tgmm_datasets) in
  let g := grid turbidity eta in
  (0 <= t_idx_low g <= TURBITDITY_LVLS - 2)%Z /\
  (0 <= t_idx_high g <= TURBITDITY_LVLS - 2)%Z /\
  (0 <= eta_idx_low g <= ELEVATION_CTRL_PTS - 1)%Z /\
  (0 <= eta_idx_high g <= ELEVATION_CTRL_PTS - 1)%Z /\
  forall index p,
    In index (tgmm_indices TURBITDITY_LVLS ELEVATION_CTRL_PTS size g) ->
    In p (dr.arange (rs size)) ->
    (0 <= dr.u32 (index + p) < size)%Z.
Proof.
  intros size g.
  destruct (grid_bounds turbidity eta) as (Htl & Hth & Hel & Heh).
  fold g in Htl, Hth, Hel, Heh.
  repeat (split; [assumption |]).
  intros index p Hin Hp. apply in_arange in Hp.
  assert (Hsize : (0 <= size)%Z) by (unfold size; lia).
  destruct (index_bound size g index Hsize Htl Hth Hel Heh Hin) as [Hi0 Hi1].
  pose proof (u32_range (index + p)). pose proof (u32_le (index + p)).
  lia.
Qed.

End MixtureBounds.

(** The bounds at the constants of the plugin, for a table of the
    shipped size and a sun at 45 degrees. *)
Lemma tgmm_gather_in_bounds_witness :
  let tgmm_datasets := dr.zeros 6750 in
  let g := tgmm_grid 10 30 3 (PI / 4) in
  (0 <= t_idx_low g <= 10 - 2)%Z /\
  (0 <= t_idx_high g <= 10 - 2)%Z /\
  (0 <= eta_idx_low g <= 30 - 1)%Z /\
  (0 <= eta_idx_high g <= 30 - 1)%Z /\
  forall index p,
    In index (tgmm_indices 10 30 (Z.of_nat (List.length tgmm_datasets)) g) ->
    In p (dr.arange (result_size 10 30 (Z.of_nat (List.length tgmm_datasets)))) ->
    (0 <= dr.u32 (index + p) < Z.of_nat (List.length tgmm_datasets))%Z.
Proof.
  apply (tgmm_gather_in_bounds 10 30); lia.
Defined.

(** ** Facts about gathers and scatters *)

Lemma scatter_length (vals : list R) (idx : list Z) (buf : list R) :
  List.length (dr.scatter buf vals idx) = List.length buf.
Proof.
  unfold dr.scatter. revert buf.
  induction (combine vals idx) as [|vi l IH]; intros buf; simpl.
  - reflexivity.
  - rewrite IH. apply update_length.
Qed.

Lemma scatter_seq_nth (vals : list R) :
  forall (off : nat) (buf : list R) (k : nat),
    (off + List.length vals <= List.length buf)%nat ->
    nth k (dr.scatter buf vals (map Z.of_nat (seq off (List.length vals)))) 0 =
    if (Nat.leb off k && Nat.ltb k (off + List.length vals))%bool
    then nth (k - off) vals 0 else nth k buf 0.
Proof.
  induction vals as [|v vs IH]; intros off buf k Hlen.
  - simpl. replace (off + 0)%nat with off by lia.
    destruct (Nat.leb_spec off k); destruct (Nat.ltb_spec k off);
      simpl; try reflexivity; lia.
  - simpl in Hlen. cbn [List.length seq map]. unfold dr.scatter.
    cbn [combine fold_left fst snd].
    change (fold_left _ (combine vs ?i) ?b) with (dr.scatter b vs i).
    rewrite IH by (unfold dr.scatter1; rewrite update_length; lia).
    unfold dr.scatter1. rewrite Nat2Z.id, nth_update.
    destruct (Nat.leb_spec (S off) k); destruct (Nat.ltb_spec k (S off + List.length vs));
      destruct (Nat.leb_spec off k); destruct (Nat.ltb_spec k (off + S (List.length vs)));
      destruct (Nat.eqb_spec k off); destruct (Nat.ltb_spec off (List.length buf));
      cbn [andb]; try lia; try reflexivity.
    + replace (k - off)%nat with (S (k - S off)) by lia. reflexivity.
    + subst k. replace (off - off)%nat with 0%nat by lia. reflexivity.
Qed.

Lemma map_seq_shift (off : nat) :
  forall n s,
    map (fun i => Z.of_nat (off + i)) (seq s n) = map Z.of_nat (seq (off + s) n).
Proof.
  induction n as [|n IH]; intros s; simpl.
  - reflexivity.
  - rewrite IH. replace (off + S s)%nat with (S (off + s)) by lia. reflexivity.
Qed.

(** A window of indices that does not wrap around. *)
Lemma window_indices (off n : Z) :
  (0 <= off)%Z -> (0 <= n)%Z -> (off + n <= 2 ^ 32)%Z ->
  map (fun p => dr.u32 (off + p)) (dr.arange n) =
  map Z.of_nat (seq (Z.to_nat off) (Z.to_nat n)).
Proof.
  intros Hoff Hn Hfit. unfold dr.arange. rewrite map_map.
  rewrite <- (Nat.add_0_r (Z.to_nat off)) at 1.
  rewrite <- map_seq_shift. apply map_ext_in.
  intros i Hi. apply in_seq in Hi. rewrite u32_small; lia.
Qed.

Lemma gather_length (buf : list R) (idx : list Z) :
  List.length (dr.gather buf idx) = List.length idx.
Proof. unfold dr.gather. apply length_map. Qed.

Lemma arange_length (n : Z) : List.length (dr.arange n) = Z.to_nat n.
Proof. unfold dr.arange. rewrite length_map, length_seq. reflexivity. Qed.

Lemma arange_add (a b : Z) :
  (0 <= a)%Z -> (0 <= b)%Z ->
  dr.arange (a + b) = dr.arange a ++ map (fun w => (a + w)%Z) (dr.arange b).
Proof.
  intros Ha Hb. unfold dr.arange.
  rewrite Z2Nat.inj_add, seq_app, map_app by lia. f_equal.
  rewrite map_map. simpl.
  rewrite <- (Nat.add_0_r (Z.to_nat a)) at 1.
  rewrite <- map_seq_shift. apply map_ext_in.
  intros i Hi. lia.
Qed.

Lemma nth_map_in (A : Type) (f : A -> R) (d : A) (l : list A) :
  forall k, (k < List.length l)%nat -> nth k (map f l) 0 = f (nth k l d).
Proof.
  induction l as [|x l IH]; intros k Hk; simpl in *.
  - lia.
  - destruct k as [|k]; [reflexivity | apply IH; lia].
Qed.

Lemma nth_arange (n : Z) (k : nat) :
  (k < Z.to_nat n)%nat -> nth k (dr.arange n) 0%Z = Z.of_nat k.
Proof.
  intros Hk. unfold dr.arange.
  change 0%Z with (Z.of_nat 0). rewrite map_nth, seq_nth by lia. reflexivity.
Qed.

Lemma entry_gather_window (buf : list R) (off n p : Z) :
  (0 <= p < n)%Z ->
  dr.entry (dr.gather buf (map (fun p => dr.u32 (off + p)) (dr.arange n))) p =
  dr.entry buf (dr.u32 (off + p)).
Proof.
  intros Hp. unfold dr.entry at 1, dr.gather.
  rewrite map_map.
  rewrite (nth_map_in _ _ 0%Z) by (rewrite arange_length; lia).
  rewrite nth_arange by lia. rewrite Z2Nat.id by lia. reflexivity.
Qed.

Lemma arange_NoDup (n : Z) : NoDup (dr.arange n).
Proof.
  unfold dr.arange. apply NoDup_map_NoDup_ForallPairs.
  - intros x y _ _ Hxy. lia.
  - apply seq_NoDup.
Qed.

(** The inner loop of the builder, for any placement [pos] of the
    weights: the touched entries are scaled once, the others kept. *)
Section ScaleLoop.

Variable pos : Z -> Z.
Variable factor : R.

Local Abbreviation step :=
  (fun (params : list R) (w : Z) =>
     dr.scatter1 params (dr.entry params (pos w) * factor) (pos w)).

Lemma scale_loop_length (ws : list Z) :
  forall params, List.length (fold_left step ws params) = List.length params.
Proof.
  induction ws as [|w ws IH]; intros params; simpl.
  - reflexivity.
  - rewrite IH. unfold dr.scatter1. apply update_length.
Qed.

Lemma scale_loop_nth (ws : list Z) :
  forall (params : list R) (k : nat),
    NoDup (map (fun w => Z.to_nat (pos w)) ws) ->
    nth k (fold_left step ws params) 0 =
    if existsb (fun w => Nat.eqb k (Z.to_nat (pos w))) ws
    then nth k params 0 * factor else nth k params 0.
Proof.
  induction ws as [|w ws IH]; intros params k Hnd.
  - reflexivity.
  - cbn [map] in Hnd. apply NoDup_cons_iff in Hnd. destruct Hnd as [Hnotin Hnd].
    cbn [fold_left existsb]. rewrite IH by exact Hnd.
    assert (Hstep :
              nth k (dr.scatter1 params (dr.entry params (pos w) * factor) (pos w)) 0 =
              if (Nat.eqb k (Z.to_nat (pos w))
                  && Nat.ltb (Z.to_nat (pos w)) (List.length params))%bool
              then nth (Z.to_nat (pos w)) params 0 * factor
              else nth k params 0)
      by (unfold dr.scatter1, dr.entry; apply nth_update).
    cbv beta. rewrite Hstep. clear Hstep.
    destruct (Nat.eqb_spec k (Z.to_nat (pos w))) as [-> | Hne].
    + cbn [andb orb].
      assert (Hex : existsb (fun w0 => Nat.eqb (Z.to_nat (pos w)) (Z.to_nat (pos w0))) ws
                    = false).
      { apply not_true_is_false. intros Hex. apply existsb_exists in Hex.
        destruct Hex as [w0 [Hin Heq]]. apply Nat.eqb_eq in Heq.
        apply Hnotin. rewrite Heq. apply in_map_iff. exists w0.
        split; [reflexivity | exact Hin]. }
      rewrite Hex.
      destruct (Nat.ltb_spec (Z.to_nat (pos w)) (List.length params)) as [Hlt | Hge].
      * reflexivity.
      * rewrite nth_overflow by lia. lra.
    + cbn [andb orb]. reflexivity.
Qed.

End ScaleLoop.

(** ** The mixture builder: normalization of the combined weights *)

Section MixtureWeights.

Variables TURBITDITY_LVLS ELEVATION_CTRL_PTS : Z.
Variables TGMM_COMPONENTS TGMM_GAUSSIAN_PARAMS : Z.
Hypothesis turbidity_levels : (2 <= TURBITDITY_LVLS)%Z.
Hypothesis elevation_points : (1 <= ELEVATION_CTRL_PTS)%Z.
Hypothesis components : (1 <= TGMM_COMPONENTS)%Z.
Hypothesis gaussian_params : (1 <= TGMM_GAUSSIAN_PARAMS)%Z.
Hypothesis table_fits :
  (4 * (TGMM_COMPONENTS * TGMM_GAUSSIAN_PARAMS) < 2 ^ 32)%Z.

Local Abbreviation C := TGMM_COMPONENTS.
Local Abbreviation P := TGMM_GAUSSIAN_PARAMS.
Local Abbreviation gwi := (gaussian_weight_idx TGMM_GAUSSIAN_PARAMS).
Local Abbreviation lerp := (apply_lerp_factor TGMM_COMPONENTS TGMM_GAUSSIAN_PARAMS).
Local Abbreviation corner := (tgmm_corner TGMM_COMPONENTS TGMM_GAUSSIAN_PARAMS).

Lemma gwi_small (w : Z) :
  (0 <= w < C)%Z ->
  gwi w = (w * P + (P - 1))%Z /\ (0 <= gwi w < C * P)%Z.
Proof.
  intros Hw. unfold gaussian_weight_idx.
  assert (0 <= w * P + (P - 1) < C * P)%Z by nia.
  rewrite u32_small by lia. lia.
Qed.

Lemma lerp_length (factor : R) (params : list R) :
  List.length (lerp factor params) = List.length params.
Proof. unfold apply_lerp_factor. apply (scale_loop_length gwi factor). Qed.

Lemma lerp_entry (factor : R) (params : list R) (w : Z) :
  (0 <= w < C)%Z ->
  dr.entry (lerp factor params) (gwi w) = dr.entry params (gwi w) * factor.
Proof.
  intros Hw. unfold apply_lerp_factor, dr.entry.
  rewrite (scale_loop_nth gwi factor).
  - replace (existsb _ _) with true; [reflexivity |].
    symmetry. apply existsb_exists. exists w. split.
    + apply in_arange. exact Hw.
    + apply Nat.eqb_refl.
  - apply NoDup_map_NoDup_ForallPairs; [| apply arange_NoDup].
    intros x y Hx Hy Hxy. apply in_arange in Hx, Hy.
    destruct (gwi_small x Hx) as [Ex Bx]. destruct (gwi_small y Hy) as [Ey By].
    assert (gwi x = gwi y) by lia. nia.
Qed.

Lemma corner_length (dataset D : list R) (rs m index : Z) (factor : R) :
  List.length (corner dataset rs D m index factor) = List.length D.
Proof. unfold tgmm_corner. apply scatter_length. Qed.

Lemma corner_entry (dataset D : list R) (rs m index : Z) (factor : R) (z : Z) :
  (0 <= rs)%Z -> (0 <= m)%Z -> (0 <= z)%Z ->
  ((m + 1) * rs <= Z.of_nat (List.length D))%Z ->
  ((m + 1) * rs <= 2 ^ 32)%Z ->
  dr.entry (corner dataset rs D m index factor) z =
  if ((m * rs <=? z) && (z <? (m + 1) * rs))%Z
  then dr.entry
         (lerp factor
            (dr.gather dataset (map (fun p => dr.u32 (index + p)) (dr.arange rs))))
         (z - m * rs)
  else dr.entry D z.
Proof.
  intros Hrs Hm Hz Hlen Hfit. unfold tgmm_corner.
  set (params := lerp factor _).
  assert (Hpl : List.length params = Z.to_nat rs).
  { unfold params. rewrite lerp_length, gather_length, length_map, arange_length.
    reflexivity. }
  rewrite window_indices by nia. rewrite <- Hpl.
  unfold dr.entry. rewrite scatter_seq_nth by (rewrite Hpl; nia).
  rewrite Hpl.
  destruct (Nat.leb_spec (Z.to_nat (m * rs)) (Z.to_nat z));
    destruct (Nat.ltb_spec (Z.to_nat z) (Z.to_nat (m * rs) + Z.to_nat rs));
    destruct (Z.leb_spec (m * rs) z); destruct (Z.ltb_spec z ((m + 1) * rs));
    cbn [andb]; try nia; try reflexivity.
  f_equal. nia.
Qed.

Lemma lerp_factors_sum (g : TgmmGrid) : dr.sum (tgmm_lerp_factors g) = 1.
Proof. unfold tgmm_lerp_factors, dr.sum. simpl. ring. Qed.

Section Table.

Variable tgmm_datasets : list R.
Variables turbidity eta : R.

Local Abbreviation size := (Z.of_nat (List.length tgmm_datasets)).
Local Abbreviation g :=
  (tgmm_grid TURBITDITY_LVLS ELEVATION_CTRL_PTS turbidity eta).
Local Abbreviation rs :=
  (result_size TURBITDITY_LVLS ELEVATION_CTRL_PTS size).
Local Abbreviation indices :=
  (tgmm_indices TURBITDITY_LVLS ELEVATION_CTRL_PTS size g).
Local Abbreviation factors := (tgmm_lerp_factors g).
Local Abbreviation table :=
  (fst (build_tgmm_distribution TURBITDITY_LVLS ELEVATION_CTRL_PTS
          TGMM_COMPONENTS TGMM_GAUSSIAN_PARAMS tgmm_datasets turbidity eta)).

Hypothesis dataset_shape :
  size = ((TURBITDITY_LVLS - 1) * (ELEVATION_CTRL_PTS * (C * P)))%Z.
Hypothesis dataset_fits : (size < 2 ^ 32)%Z.

Lemma rs_value : rs = (C * P)%Z.
Proof.
  unfold result_size, t_block_size. rewrite dataset_shape.
  rewrite Z.mul_comm, Z.div_mul by lia.
  rewrite u32_small by (rewrite dataset_shape in dataset_fits; nia).
  rewrite Z.mul_comm, Z.div_mul by lia. reflexivity.
Qed.

(** The block of the combined table written for mixture [m]. *)
Local Abbreviation block m :=
  (lerp (nth m factors 0)
     (dr.gather tgmm_datasets
        (map (fun p => dr.u32 (nth m indices 0%Z + p)) (dr.arange rs)))).

Lemma table_entry (m : nat) (j : Z) :
  (m < 4)%nat -> (0 <= j < rs)%Z ->
  dr.entry table (Z.of_nat m * rs + j) = dr.entry (block m) j.
Proof.
  intros Hm Hj.
  assert (Hrs : (0 < rs)%Z) by lia.
  assert (Hfit : (4 * rs < 2 ^ 32)%Z) by (rewrite rs_value; exact table_fits).
  unfold build_tgmm_distribution. cbv zeta. cbn [fst].
  change (dr.arange 4) with [0; 1; 2; 3]%Z. cbn [fold_left].
  change (Z.to_nat 0) with 0%nat. change (Z.to_nat 1) with 1%nat.
  change (Z.to_nat 2) with 2%nat. change (Z.to_nat 3) with 3%nat.
  assert (Hz : List.length (dr.zeros (4 * rs)) = Z.to_nat (4 * rs))
    by (unfold dr.zeros; apply repeat_length).
  rewrite !corner_entry;
    rewrite ?corner_length, ?Hz; try lia.
  destruct m as [|[|[|[|m]]]]; try lia;
    repeat match goal with
           | |- context [(?a <=? ?b)%Z] => destruct (Z.leb_spec a b); try lia
           | |- context [(?a <? ?b)%Z] => destruct (Z.ltb_spec a b); try lia
           end;
    cbn [andb]; f_equal; lia.
Qed.

Lemma index_fits (index : Z) :
  In index indices -> (0 <= index /\ index + rs <= size)%Z.
Proof.
  intros Hin.
  destruct (grid_bounds TURBITDITY_LVLS ELEVATION_CTRL_PTS
              turbidity_levels elevation_points turbidity eta)
    as (Htl & Hth & Hel & Heh).
  apply (index_bound TURBITDITY_LVLS ELEVATION_CTRL_PTS
           turbidity_levels elevation_points size g); try assumption.
  lia.
Qed.

Lemma weight_entry (m : nat) (w : Z) :
  (m < 4)%nat -> (0 <= w < C)%Z ->
  dr.entry table (Z.of_nat m * rs + gwi w) =
  dr.entry tgmm_datasets (nth m indices 0%Z + gwi w) * nth m factors 0.
Proof.
  intros Hm Hw. destruct (gwi_small w Hw) as [Eg Bg].
  assert (Hin : In (nth m indices 0%Z) indices)
    by (apply nth_In; unfold tgmm_indices; simpl; lia).
  destruct (index_fits _ Hin) as [Hi0 Hi1].
  rewrite table_entry by (rewrite ?rs_value; lia).
  rewrite lerp_entry by exact Hw.
  rewrite entry_gather_window by (rewrite rs_value; lia).
  rewrite u32_small by (rewrite rs_value in Hi1; lia). reflexivity.
Qed.

Lemma block_sum (m : nat) :
  (m < 4)%nat ->
  dr.sum (map (fun w => dr.entry table
                 (dr.u32 (dr.u32 (P * (Z.of_nat m * C + w)) + (P - 1))))
              (dr.arange C)) =
  block_weight_sum TGMM_COMPONENTS TGMM_GAUSSIAN_PARAMS tgmm_datasets
    (nth m indices 0%Z) * nth m factors 0.
Proof.
  intros Hm. unfold block_weight_sum.
  rewrite <- sum_map_scale. f_equal. apply map_ext_in.
  intros w Hw. apply in_arange in Hw.
  destruct (gwi_small w Hw) as [Eg Bg].
  rewrite <- weight_entry by assumption. f_equal.
  rewrite rs_value, Eg.
  rewrite (u32_small (P * _)) by nia. rewrite u32_small by nia. ring.
Qed.

Hypothesis corners_normalized :
  forall index, In index indices ->
    block_weight_sum TGMM_COMPONENTS TGMM_GAUSSIAN_PARAMS tgmm_datasets index = 1.

Lemma pmf_sum :
  dr.sum (m_pmf (snd (build_tgmm_distribution TURBITDITY_LVLS
                        ELEVATION_CTRL_PTS TGMM_COMPONENTS
                        TGMM_GAUSSIAN_PARAMS tgmm_datasets turbidity eta))) = 1.
Proof.
  unfold build_tgmm_distribution at 1. cbv zeta. cbn [snd m_pmf].
  change (fold_left _ _ _) with table.
  unfold dr.gather, mis_weight_idx. rewrite map_map.
  replace (4 * C)%Z with (C + (C + (C + C)))%Z by ring.
  rewrite !arange_add by lia.
  rewrite !map_app, !map_map, !sum_app.
  pose proof (block_sum 0) as H0. pose proof (block_sum 1) as H1.
  pose proof (block_sum 2) as H2. pose proof (block_sum 3) as H3.
  cbn [Z.of_nat Pos.of_succ_nat Pos.succ] in H0, H1, H2, H3.
  assert (E0 : forall f : Z -> R,
             map (fun w => f (P * w)%Z) (dr.arange C)
             = map (fun w => f (P * (0 * C + w))%Z) (dr.arange C))
    by (intros f; apply map_ext; intros w; do 2 f_equal; ring).
  assert (E1 : forall f : Z -> R,
             map (fun w => f (P * (C + w))%Z) (dr.arange C)
             = map (fun w => f (P * (1 * C + w))%Z) (dr.arange C))
    by (intros f; apply map_ext; intros w; do 2 f_equal; ring).
  assert (E2 : forall f : Z -> R,
             map (fun w => f (P * (C + (C + w)))%Z) (dr.arange C)
             = map (fun w => f (P * (2 * C + w))%Z) (dr.arange C))
    by (intros f; apply map_ext; intros w; do 2 f_equal; ring).
  assert (E3 : forall f : Z -> R,
             map (fun w => f (P * (C + (C + (C + w))))%Z) (dr.arange C)
             = map (fun w => f (P * (3 * C + w))%Z) (dr.arange C))
    by (intros f; apply map_ext; intros w; do 2 f_equal; ring).
  rewrite (E0 (fun z => dr.entry table (dr.u32 (dr.u32 z + (P - 1))))).
  rewrite (E1 (fun z => dr.entry table (dr.u32 (dr.u32 z + (P - 1))))).
  rewrite (E2 (fun z => dr.entry table (dr.u32 (dr.u32 z + (P - 1))))).
  rewrite (E3 (fun z => dr.entry table (dr.u32 (dr.u32 z + (P - 1))))).
  rewrite H0, H1, H2, H3 by lia.
  rewrite !corners_normalized
    by (apply nth_In; unfold tgmm_indices; simpl; lia).
  unfold tgmm_lerp_factors. simpl. ring.
Qed.

End Table.

End MixtureWeights.

(** C1.  If the component weights of each of the four corner blocks of
    the TGMM dataset sum to 1, the component weights of the combined
    mixture table that [build_tgmm_distribution] returns sum to 1: the
    four bilinear factors sum to 1, and the weight of component [w] of
    corner [m] is the dataset's weight times the factor of that corner. *)
Theorem combined_weights_sum_to_one
    (TURBITDITY_LVLS ELEVATION_CTRL_PTS TGMM_COMPONENTS TGMM_GAUSSIAN_PARAMS : Z)
    (tgmm_datasets : list R) (turbidity eta : R) :
  let size := Z.of_nat (List.length tgmm_datasets) in
  let g := tgmm_grid TURBITDITY_LVLS ELEVATION_CTRL_PTS turbidity eta in
  let indices := tgmm_indices TURBITDITY_LVLS ELEVATION_CTRL_PTS size g in
  let factors := tgmm_lerp_factors g in
  let built :=
    build_tgmm_distribution TURBITDITY_LVLS ELEVATION_CTRL_PTS
      TGMM_COMPONENTS TGMM_GAUSSIAN_PARAMS tgmm_datasets turbidity eta in
  (2 <= TURBITDITY_LVLS)%Z -> (1 <= ELEVATION_CTRL_PTS)%Z ->
  (1 <= TGMM_COMPONENTS)%Z -> (1 <= TGMM_GAUSSIAN_PARAMS)%Z ->
  (4 * (TGMM_COMPONENTS * TGMM_GAUSSIAN_PARAMS) < 2 ^ 32)%Z ->
  size = ((TURBITDITY_LVLS - 1)
          * (ELEVATION_CTRL_PTS * (TGMM_COMPONENTS * TGMM_GAUSSIAN_PARAMS)))%Z ->
  (size < 2 ^ 32)%Z ->
  (forall index, In index indices ->
     block_weight_sum TGMM_COMPONENTS TGMM_GAUSSIAN_PARAMS tgmm_datasets index = 1) ->
  dr.sum factors = 1 /\
  (forall (m : nat) (w : Z),
     (m < 4)%nat -> (0 <= w < TGMM_COMPONENTS)%Z ->
     dr.entry (fst built)
       (Z.of_nat m * result_size TURBITDITY_LVLS ELEVATION_CTRL_PTS size
        + gaussian_weight_idx TGMM_GAUSSIAN_PARAMS w) =
     dr.entry tgmm_datasets
       (nth m indices 0%Z + gaussian_weight_idx TGMM_GAUSSIAN_PARAMS w)
     * nth m factors 0) /\
  dr.sum (m_pmf (snd built)) = 1.
Proof.
  intros size g indices factors built HT HE HC HP Hfit Hshape Hsize Hnorm.
  split; [apply lerp_factors_sum |]. split.
  - intros m w Hm Hw. apply weight_entry; assumption.
  - apply pmf_sum; assumption.
Qed.

(** The normalization at the constants of the plugin (10 turbidity
    levels, 30 elevation points, 5 components of 5 parameters), for a
    table whose entries are all 1/5, turbidity 3 and a sun at 45
    degrees. *)
Lemma combined_weights_sum_to_one_witness :
  dr.sum (m_pmf (snd (build_tgmm_distribution 10 30 5 5
                        (repeat (/ 5) (Z.to_nat 6750)) 3 (PI / 4)))) = 1.
Proof.
  assert (Hlen : Z.of_nat (List.length (repeat (/ 5) (Z.to_nat 6750))) = 6750%Z)
    by (rewrite repeat_length; lia).
  apply (combined_weights_sum_to_one 10 30 5 5 (repeat (/ 5) (Z.to_nat 6750)) 3 (PI / 4));
    try rewrite Hlen; try lia.
  intros index Hin.
  assert (Hb : (0 <= index /\ index + result_size 10 30 6750 <= 6750)%Z).
  { destruct (grid_bounds 10 30 ltac:(lia) ltac:(lia) 3 (PI / 4))
      as (Htl & Hth & Hel & Heh).
    apply (index_bound 10 30 ltac:(lia) ltac:(lia) 6750
             (tgmm_grid 10 30 3 (PI / 4))); try assumption. lia. }
  change (result_size 10 30 6750) with 25%Z in Hb.
  unfold block_weight_sum.
  rewrite (map_ext_in _ (fun _ => / 5)).
  - change (dr.arange 5) with [0; 1; 2; 3; 4]%Z. unfold dr.sum. simpl. lra.
  - intros w Hw. apply in_arange in Hw.
    destruct (gwi_small 5 5 ltac:(lia) ltac:(lia) ltac:(lia) w Hw) as [_ Hg].
    unfold dr.entry.
    rewrite (nth_indep _ 0 (/ 5)) by (rewrite repeat_length; lia).
    apply nth_repeat.
Defined.

(** ** The Bezier blend *)

Lemma Rpower_one_base (y : R) : Rpower 1 y = 1.
Proof. unfold Rpower. rewrite ln_1, Rmult_0_r. apply exp_0. Qed.

Lemma cbrt_0 : dr.cbrt 0 = 0.
Proof.
  unfold dr.cbrt.
  destruct (Rlt_dec 0 0) as [H | _]; [lra |].
  destruct (Rlt_dec 0 0) as [H | _]; [lra | reflexivity].
Qed.

Lemma cbrt_nonneg (a : R) : 0 <= a -> 0 <= dr.cbrt a.
Proof.
  intros Ha. unfold dr.cbrt.
  destruct (Rlt_dec 0 a) as [_ | _].
  - unfold Rpower. left. apply exp_pos.
  - destruct (Rlt_dec a 0) as [H | _]; lra.
Qed.

Lemma cbrt_minus_one : dr.cbrt (- 1) = - 1.
Proof.
  unfold dr.cbrt.
  destruct (Rlt_dec 0 (- 1)) as [H | _]; [lra |].
  destruct (Rlt_dec (- 1) 0) as [_ | H]; [| lra].
  replace (- -1) with 1 by lra. rewrite Rpower_one_base. reflexivity.
Qed.

Lemma cbrt_cube (b : R) : 0 < b -> dr.cbrt (b ^ 3) = b.
Proof.
  intros Hb. unfold dr.cbrt.
  assert (Hc : 0 < b ^ 3) by (apply pow_lt; exact Hb).
  destruct (Rlt_dec 0 (b ^ 3)) as [_ | H]; [| lra].
  rewrite <- (Rpower_pow 3 b Hb), Rpower_mult.
  replace (INR 3 * / 3) with 1 by (simpl; field).
  apply Rpower_1. exact Hb.
Qed.

Lemma cbrt_le (a b : R) : 0 < a <= b -> dr.cbrt a <= dr.cbrt b.
Proof.
  intros [Ha Hab]. unfold dr.cbrt.
  destruct (Rlt_dec 0 a) as [_ | H]; [| lra].
  destruct (Rlt_dec 0 b) as [_ | H]; [| lra].
  apply Rle_Rpower_l; lra.
Qed.

Lemma nth_vscale (c : R) (a : list R) (j : nat) :
  nth j (vscale c a) 0 = c * nth j a 0.
Proof.
  unfold vscale. revert j. induction a as [|x a IH]; intros [|j]; simpl;
    try lra; try reflexivity. apply IH.
Qed.

Lemma nth_vadd (a b : list R) (j : nat) :
  List.length a = List.length b ->
  nth j (vadd a b) 0 = nth j a 0 + nth j b 0.
Proof.
  unfold vadd. revert b j.
  induction a as [|x a IH]; intros [|y b] j Hlen; simpl in Hlen; try discriminate.
  - destruct j; simpl; lra.
  - destruct j as [|j]; simpl; [reflexivity | apply IH; lia].
Qed.

Lemma vadd_length (a b : list R) :
  List.length a = List.length b -> List.length (vadd a b) = List.length a.
Proof.
  intros Hlen. unfold vadd. rewrite length_map, length_combine. lia.
Qed.

Lemma vscale_length (c : R) (a : list R) :
  List.length (vscale c a) = List.length a.
Proof. unfold vscale. apply length_map. Qed.

Lemma take_length (dataset : TensorXf) (i : nat) :
  shape0 dataset = SKY_CTRL_PTS -> (i < SKY_CTRL_PTS)%nat ->
  List.length (take dataset i) = (tensor_size dataset / shape0 dataset)%nat.
Proof.
  intros Hshape Hi. unfold take. rewrite Hshape.
  set (inner := (tensor_size dataset / SKY_CTRL_PTS)%nat).
  assert (Hin : (SKY_CTRL_PTS * inner <= tensor_size dataset)%nat)
    by (apply Nat.Div0.mul_div_le).
  rewrite length_firstn, length_skipn. fold (tensor_size dataset).
  unfold SKY_CTRL_PTS in *. nia.
Qed.

Lemma accumulate_nth (n : nat) (res data : list R) (c : R) :
  List.length res = n -> List.length data = n ->
  List.length (vadd res (vscale c data)) = n /\
  forall j, nth j (vadd res (vscale c data)) 0 = nth j res 0 + c * nth j data 0.
Proof.
  intros Hres Hdata. split.
  - rewrite vadd_length; rewrite ?vscale_length; congruence.
  - intros j. rewrite nth_vadd by (rewrite vscale_length; congruence).
    rewrite nth_vscale. reflexivity.
Qed.

Section BezierFacts.

Variable Epsilon : R.
Hypothesis Epsilon_pos : 0 < Epsilon.

Local Abbreviation x_of := (bezier_x Epsilon).

Lemma bezier_x_lt_1 (eta : R) : x_of eta < 1.
Proof.
  unfold bezier_x, dr.minimum, OneMinusEpsilon.
  apply Rle_lt_trans with (1 - Epsilon); [apply Rmin_r | lra].
Qed.

(** The loop of [bezier_interp], unrolled: the length of the result
    and each of its entries. *)
Lemma bezier_interp_entries (dataset : TensorXf) (eta : R) :
  shape0 dataset = SKY_CTRL_PTS ->
  List.length (bezier_interp Epsilon dataset eta) =
    (tensor_size dataset / shape0 dataset)%nat /\
  forall j, nth j (bezier_interp Epsilon dataset eta) 0 =
            bernstein_blend dataset (x_of eta) j.
Proof.
  intros Hshape.
  pose proof (bezier_x_lt_1 eta) as Hx.
  unfold bezier_interp, bernstein_blend.
  set (x := x_of eta) in *.
  set (n := (tensor_size dataset / shape0 dataset)%nat).
  cbn [SKY_CTRL_PTS seq fold_left fst coefs nth Nat.sub map].
  assert (Hz : List.length (dr.zeros (Z.of_nat n)) = n)
    by (unfold dr.zeros; rewrite repeat_length; lia).
  assert (Hz0 : forall j, nth j (dr.zeros (Z.of_nat n)) 0 = 0)
    by (intros j; unfold dr.zeros; apply nth_repeat).
  assert (Ht : forall i, (i < 6)%nat -> List.length (take dataset i) = n)
    by (intros i Hi; apply take_length; [exact Hshape | exact Hi]).
  destruct (accumulate_nth n _ (take dataset 0)
              (1 * 1 * (1 - x) ^ 5) Hz (Ht 0%nat ltac:(lia))) as [L0 E0].
  destruct (accumulate_nth n _ (take dataset 1)
              (5 * (1 * x) * ((1 - x) ^ 5 * dr.rcp (1 - x)))
              L0 (Ht 1%nat ltac:(lia))) as [L1 E1].
  destruct (accumulate_nth n _ (take dataset 2)
              (10 * (1 * x * x) * ((1 - x) ^ 5 * dr.rcp (1 - x) * dr.rcp (1 - x)))
              L1 (Ht 2%nat ltac:(lia))) as [L2 E2].
  destruct (accumulate_nth n _ (take dataset 3)
              (10 * (1 * x * x * x)
               * ((1 - x) ^ 5 * dr.rcp (1 - x) * dr.rcp (1 - x) * dr.rcp (1 - x)))
              L2 (Ht 3%nat ltac:(lia))) as [L3 E3].
  destruct (accumulate_nth n _ (take dataset 4)
              (5 * (1 * x * x * x * x)
               * ((1 - x) ^ 5 * dr.rcp (1 - x) * dr.rcp (1 - x) * dr.rcp (1 - x)
                  * dr.rcp (1 - x)))
              L3 (Ht 4%nat ltac:(lia))) as [L4 E4].
  destruct (accumulate_nth n _ (take dataset 5)
              (1 * (1 * x * x * x * x * x)
               * ((1 - x) ^ 5 * dr.rcp (1 - x) * dr.rcp (1 - x) * dr.rcp (1 - x)
                  * dr.rcp (1 - x) * dr.rcp (1 - x)))
              L4 (Ht 5%nat ltac:(lia))) as [L5 E5].
  split; [exact L5 |].
  intros j. rewrite E5, E4, E3, E2, E1, E0, Hz0.
  unfold dr.sum, dr.rcp. cbn [fold_right]. field. lra.
Qed.

Hypothesis Epsilon_lt_1 : Epsilon < 1.

Lemma bezier_x_zenith : x_of 0 = 0.
Proof.
  unfold bezier_x, dr.minimum, OneMinusEpsilon.
  rewrite Rmult_0_r, cbrt_0. apply Rmin_left. lra.
Qed.

Lemma bezier_x_horizon (eta : R) :
  PI / 2 * (1 - Epsilon) ^ 3 <= eta -> x_of eta = 1 - Epsilon.
Proof.
  intros Heta. unfold bezier_x, dr.minimum, OneMinusEpsilon.
  apply Rmin_right.
  assert (Hpi : 0 < PI) by apply PI_RGT_0.
  assert (Hb : 0 < 1 - Epsilon) by lra.
  assert (Hc : 0 < (1 - Epsilon) ^ 3) by (apply pow_lt; exact Hb).
  rewrite <- (cbrt_cube (1 - Epsilon) Hb) at 1.
  apply cbrt_le. split; [exact Hc |].
  apply Rmult_le_reg_l with (PI / 2); [lra |].
  replace (PI / 2 * (2 * / PI * eta)) with eta by (field; lra).
  exact Heta.
Qed.

Lemma bezier_x_clamped (eta : R) : 0 <= eta -> x_of eta = clamped_x Epsilon eta.
Proof.
  intros Heta. unfold bezier_x, clamped_x, dr.clip, dr.maximum, dr.minimum,
    OneMinusEpsilon.
  replace (2 / PI * eta) with (2 * / PI * eta) by (unfold Rdiv; reflexivity).
  assert (Hpi : 0 < PI) by apply PI_RGT_0.
  assert (Harg : 0 <= 2 * / PI * eta).
  { apply Rmult_le_pos; [| exact Heta].
    apply Rmult_le_pos; [lra |]. left. apply Rinv_0_lt_compat. exact Hpi. }
  pose proof (cbrt_nonneg _ Harg) as Hc.
  symmetry. apply Rmax_left. apply Rmin_glb; lra.
Qed.

Lemma bezier_interp_zenith (dataset : TensorXf) :
  shape0 dataset = SKY_CTRL_PTS ->
  bezier_interp Epsilon dataset 0 = take dataset 0.
Proof.
  intros Hshape.
  destruct (bezier_interp_entries dataset 0 Hshape) as [Hlen Hnth].
  apply (nth_ext _ _ 0 0).
  - rewrite Hlen. symmetry. apply take_length; [exact Hshape |].
    unfold SKY_CTRL_PTS. lia.
  - intros j _. rewrite Hnth, bezier_x_zenith.
    unfold bernstein_blend, dr.sum.
    cbn [SKY_CTRL_PTS seq map fold_right coefs nth Nat.sub]. simpl pow. ring.
Qed.

(** The distance between the blend at x = 1 - epsilon and the last
    control point. *)
Lemma blend_near_last (dataset : TensorXf) (j : nat) (bound : R) :
  (forall i, (i < SKY_CTRL_PTS)%nat -> Rabs (nth j (take dataset i) 0) <= bound) ->
  Rabs (bernstein_blend dataset (1 - Epsilon) j
        - nth j (take dataset (SKY_CTRL_PTS - 1)) 0) <= 10 * Epsilon * bound.
Proof.
  intros Hb.
  assert (Hd : forall i, (i < 6)%nat ->
               - bound <= nth j (take dataset i) 0 <= bound).
  { intros i Hi. specialize (Hb i Hi). revert Hb.
    unfold Rabs. destruct (Rcase_abs _); intros Hb; lra. }
  pose proof (Hd 0%nat ltac:(lia)) as H0. pose proof (Hd 1%nat ltac:(lia)) as H1.
  pose proof (Hd 2%nat ltac:(lia)) as H2. pose proof (Hd 3%nat ltac:(lia)) as H3.
  pose proof (Hd 4%nat ltac:(lia)) as H4. pose proof (Hd 5%nat ltac:(lia)) as H5.
  unfold bernstein_blend, dr.sum.
  cbn [SKY_CTRL_PTS seq map fold_right coefs nth Nat.sub].
  set (d0 := nth j (take dataset 0) 0) in *. set (d1 := nth j (take dataset 1) 0) in *.
  set (d2 := nth j (take dataset 2) 0) in *. set (d3 := nth j (take dataset 3) 0) in *.
  set (d4 := nth j (take dataset 4) 0) in *. set (d5 := nth j (take dataset 5) 0) in *.
  replace (1 - (1 - Epsilon)) with Epsilon by ring.
  set (x := 1 - Epsilon).
  assert (Hx : 0 < x < 1) by (unfold x; lra).
  assert (Hx2 : 0 < x ^ 2 < 1) by (simpl; nra).
  assert (Hx3 : 0 < x ^ 3 < 1) by (simpl; nra).
  assert (Hx4 : 0 < x ^ 4 < 1) by (simpl in *; nra).
  assert (Hx5 : 0 < x ^ 5 < 1) by (simpl in *; nra).
  assert (He2 : 0 < Epsilon ^ 2) by (apply pow_lt; exact Epsilon_pos).
  assert (He3 : 0 < Epsilon ^ 3) by (apply pow_lt; exact Epsilon_pos).
  assert (He4 : 0 < Epsilon ^ 4) by (apply pow_lt; exact Epsilon_pos).
  assert (He5 : 0 < Epsilon ^ 5) by (apply pow_lt; exact Epsilon_pos).
  set (b0 := 1 * x ^ 0 * Epsilon ^ 5). set (b1 := 5 * x ^ 1 * Epsilon ^ 4).
  set (b2 := 10 * x ^ 2 * Epsilon ^ 3). set (b3 := 10 * x ^ 3 * Epsilon ^ 2).
  set (b4 := 5 * x ^ 4 * Epsilon ^ 1). set (b5 := 1 * x ^ 5 * Epsilon ^ 0).
  assert (Hb0 : 0 <= b0) by (unfold b0; simpl pow at 1; nra).
  assert (Hb1 : 0 <= b1)
    by (unfold b1; apply Rmult_le_pos; [simpl; nra | lra]).
  assert (Hb2 : 0 <= b2)
    by (unfold b2; apply Rmult_le_pos; [nra | lra]).
  assert (Hb3 : 0 <= b3)
    by (unfold b3; apply Rmult_le_pos; [nra | lra]).
  assert (Hb4 : 0 <= b4)
    by (unfold b4; apply Rmult_le_pos; [nra | simpl; lra]).
  assert (Hb5 : b5 = x ^ 5) by (unfold b5; simpl; ring).
  assert (Hsum : b0 + b1 + b2 + b3 + b4 = 1 - b5)
    by (unfold b0, b1, b2, b3, b4, b5, x; ring).
  assert (Hgeo : 1 - b5 <= 5 * Epsilon).
  { rewrite Hb5.
    replace (1 - x ^ 5) with (Epsilon * (1 + x + x ^ 2 + x ^ 3 + x ^ 4))
      by (unfold x; ring).
    nra. }
  assert (Hbound : 0 <= bound) by lra.
  apply Rabs_le. split.
  - apply Rle_trans with (- (2 * (1 - b5) * bound)); [nra |].
    rewrite <- Hsum at 1. nra.
  - apply Rle_trans with (2 * (1 - b5) * bound); [| nra].
    rewrite <- Hsum at 1. nra.
Qed.

End BezierFacts.

Lemma Epsilon_double_range : 0 < Epsilon_double < 1.
Proof.
  unfold Epsilon_double.
  assert (H : 1 < 2 ^ 53) by (apply Rlt_pow_R1; [lra | lia]).
  split.
  - apply Rinv_0_lt_compat. lra.
  - rewrite <- Rinv_1. apply Rinv_lt_contravar; lra.
Qed.

(** Tensors of six control points with one entry each. *)
Lemma take_single (d0 d1 d2 d3 d4 d5 : R) (i : nat) :
  take (mkTensor 6 [d0; d1; d2; d3; d4; d5]) i =
  firstn 1 (skipn i [d0; d1; d2; d3; d4; d5]).
Proof.
  unfold take, tensor_size. cbn [shape0 array List.length].
  change (6 / 6)%nat with 1%nat. rewrite Nat.mul_1_r. reflexivity.
Qed.

(** C4, as stated, fails below the horizon: at eta = -pi/2 the source
    takes x = -1, not the clamped value 0, and the blend of the control
    points (1, 0, 0, 0, 0, 0) is 32 instead of 1. *)
Lemma bezier_no_lower_clamp :
  let dataset := mkTensor 6 [1; 0; 0; 0; 0; 0] in
  bezier_x Epsilon_double (- PI / 2) = - 1 /\
  clamped_x Epsilon_double (- PI / 2) = 0 /\
  nth 0 (bezier_interp Epsilon_double dataset (- PI / 2)) 0 = 32 /\
  bernstein_blend dataset (clamped_x Epsilon_double (- PI / 2)) 0 = 1 /\
  nth 0 (bezier_interp Epsilon_double dataset (- PI / 2)) 0
  <> bernstein_blend dataset (clamped_x Epsilon_double (- PI / 2)) 0.
Proof.
  intros dataset.
  pose proof Epsilon_double_range as [He0 He1].
  assert (Hpi : 0 < PI) by apply PI_RGT_0.
  assert (Hx : bezier_x Epsilon_double (- PI / 2) = - 1).
  { unfold bezier_x, dr.minimum, OneMinusEpsilon.
    replace (2 * / PI * (- PI / 2)) with (- 1) by (field; lra).
    rewrite cbrt_minus_one. apply Rmin_left. lra. }
  assert (Hc : clamped_x Epsilon_double (- PI / 2) = 0).
  { unfold clamped_x, dr.clip, dr.maximum, dr.minimum.
    replace (2 / PI * (- PI / 2)) with (- 1) by (field; lra).
    rewrite cbrt_minus_one. rewrite Rmin_left by lra. apply Rmax_right. lra. }
  assert (Hcode : nth 0 (bezier_interp Epsilon_double dataset (- PI / 2)) 0 = 32).
  { destruct (bezier_interp_entries Epsilon_double He0 dataset (- PI / 2) eq_refl)
      as [_ Hnth].
    rewrite Hnth, Hx. unfold bernstein_blend, dataset, dr.sum.
    cbn [SKY_CTRL_PTS seq map fold_right coefs nth Nat.sub].
    rewrite !take_single. cbn [skipn firstn nth]. simpl pow. lra. }
  assert (Hspec : bernstein_blend dataset (clamped_x Epsilon_double (- PI / 2)) 0 = 1).
  { rewrite Hc. unfold bernstein_blend, dataset, dr.sum.
    cbn [SKY_CTRL_PTS seq map fold_right coefs nth Nat.sub].
    rewrite !take_single. cbn [skipn firstn nth]. simpl pow. lra. }
  repeat split; try assumption.
  rewrite Hcode, Hspec. lra.
Qed.

(** C4, amended.  [bezier_interp] computes
    x = min(cbrt((2/pi) eta), 1 - epsilon), with no lower clamp, and
    returns for each entry the sum over the six control points of
    coef[i] x^i (1-x)^(5-i) dataset[i]; for eta >= 0 this x is the
    clamp of the cube root to [0, 1 - epsilon]. *)
Theorem bezier_interp_formula (Epsilon : R) (dataset : TensorXf) (eta : R) (j : nat) :
  0 < Epsilon < 1 ->
  shape0 dataset = SKY_CTRL_PTS ->
  let x := dr.minimum (dr.cbrt (2 * / PI * eta)) (1 - Epsilon) in
  nth j (bezier_interp Epsilon dataset eta) 0 = bernstein_blend dataset x j /\
  (0 <= eta -> x = clamped_x Epsilon eta).
Proof.
  intros [He0 He1] Hshape x. split.
  - destruct (bezier_interp_entries Epsilon He0 dataset eta Hshape) as [_ Hnth].
    apply Hnth.
  - intros Heta. apply (bezier_x_clamped Epsilon He1 eta Heta).
Qed.

Lemma bezier_interp_formula_witness :
  let dataset := mkTensor 6 [1; 2; 3; 4; 5; 6] in
  let x := dr.minimum (dr.cbrt (2 * / PI * (PI / 4))) (1 - Epsilon_double) in
  nth 0 (bezier_interp Epsilon_double dataset (PI / 4)) 0
  = bernstein_blend dataset x 0 /\
  (0 <= PI / 4 -> x = clamped_x Epsilon_double (PI / 4)).
Proof.
  apply (bezier_interp_formula Epsilon_double (mkTensor 6 [1; 2; 3; 4; 5; 6])
           (PI / 4) 0).
  - exact Epsilon_double_range.
  - reflexivity.
Defined.

(** The approach to the last control point is up to the clamp at
    1 - epsilon, not an exact limit over the reals: with the control
    points (0, 0, 0, 0, 1, 0) the blend stays at
    5 (1 - epsilon)^4 epsilon, a value of the order of epsilon, for
    every eta close to pi/2, while the last control point is 0. *)
Lemma bezier_does_not_reach_last_control_point :
  ~ converges_to_last_control_point Epsilon_double
      (mkTensor 6 [0; 0; 0; 0; 1; 0]) 0.
Proof.
  pose proof Epsilon_double_range as [He0 He1].
  set (eps := Epsilon_double) in *.
  assert (Hpi : 0 < PI) by apply PI_RGT_0.
  unfold converges_to_last_control_point, limit1_in, limit_in. intros Hlim.
  set (delta := 5 * (1 - eps) ^ 4 * eps).
  assert (Hdelta : 0 < delta).
  { unfold delta. apply Rmult_lt_0_compat; [| exact He0].
    apply Rmult_lt_0_compat; [lra |]. apply pow_lt. lra. }
  destruct (Hlim delta Hdelta) as [alp [Halp Hclose]].
  assert (Hcube : 0 < (1 - eps) ^ 3 < 1).
  { split; [apply pow_lt; lra |]. simpl. nra. }
  set (eta := Rmax (PI / 2 - alp / 2) (PI / 2 * (1 - eps) ^ 3)).
  assert (Hlow : PI / 2 * (1 - eps) ^ 3 <= eta) by apply Rmax_r.
  assert (Hlow' : PI / 2 - alp / 2 <= eta) by apply Rmax_l.
  assert (Hup : eta < PI / 2).
  { unfold eta. apply Rmax_lub_lt; [lra | nra]. }
  specialize (Hclose eta).
  assert (Hpre : (0 <= eta < PI / 2) /\ dist R_met eta (PI / 2) < alp).
  { split; [split; [nra | exact Hup] |].
    simpl. unfold Rdist. rewrite Rabs_left1 by lra. lra. }
  specialize (Hclose Hpre).
  change (Rabs (nth 0 (bezier_interp eps (mkTensor 6 [0; 0; 0; 0; 1; 0]) eta) 0
                - nth 0 (take (mkTensor 6 [0; 0; 0; 0; 1; 0]) (SKY_CTRL_PTS - 1)) 0)
          < delta) in Hclose.
  destruct (bezier_interp_entries eps He0 (mkTensor 6 [0; 0; 0; 0; 1; 0]) eta eq_refl)
    as [_ Hnth].
  rewrite Hnth in Hclose.
  rewrite (bezier_x_horizon eps He1 eta Hlow) in Hclose.
  unfold bernstein_blend, dr.sum in Hclose.
  cbn [SKY_CTRL_PTS seq map fold_right coefs nth Nat.sub] in Hclose.
  rewrite !take_single in Hclose. cbn [skipn firstn nth] in Hclose.
  replace (1 - (1 - eps)) with eps in Hclose by ring.
  match type of Hclose with
  | Rabs ?e < _ => replace e with delta in Hclose by (unfold delta; simpl; ring)
  end.
  rewrite Rabs_right in Hclose by lra. lra.
Qed.

(** C5.  At eta = 0 [bezier_interp] returns exactly the data of
    control point 0.  As eta approaches pi/2 the result approaches the
    data of control point 5 up to the clamp of x at 1 - epsilon: for
    every eta from (pi/2) (1 - epsilon)^3 on the result is the blend at
    x = 1 - epsilon, and each of its entries is within 10 epsilon M of
    the entry of control point 5, where M bounds the absolute values of
    the six control-point entries. *)
Theorem bezier_interp_boundary (Epsilon : R) (dataset : TensorXf) :
  0 < Epsilon < 1 ->
  shape0 dataset = SKY_CTRL_PTS ->
  bezier_interp Epsilon dataset 0 = take dataset 0 /\
  forall (eta : R) (j : nat) (bound : R),
    PI / 2 * (1 - Epsilon) ^ 3 <= eta ->
    (forall i, (i < SKY_CTRL_PTS)%nat -> Rabs (nth j (take dataset i) 0) <= bound) ->
    nth j (bezier_interp Epsilon dataset eta) 0
    = bernstein_blend dataset (1 - Epsilon) j /\
    Rabs (nth j (bezier_interp Epsilon dataset eta) 0
          - nth j (take dataset (SKY_CTRL_PTS - 1)) 0) <= 10 * Epsilon * bound.
Proof.
  intros [He0 He1] Hshape. split.
  - apply bezier_interp_zenith; assumption.
  - intros eta j bound Heta Hb.
    destruct (bezier_interp_entries Epsilon He0 dataset eta Hshape) as [_ Hnth].
    rewrite Hnth, (bezier_x_horizon Epsilon He1 eta Heta).
    split; [reflexivity |].
    apply blend_near_last; assumption.
Qed.

Lemma bezier_interp_boundary_witness :
  let dataset := mkTensor 6 [1; 2; 3; 4; 5; 6] in
  bezier_interp Epsilon_double dataset 0 = take dataset 0 /\
  forall (eta : R) (j : nat) (bound : R),
    PI / 2 * (1 - Epsilon_double) ^ 3 <= eta ->
    (forall i, (i < SKY_CTRL_PTS)%nat -> Rabs (nth j (take dataset i) 0) <= bound) ->
    nth j (bezier_interp Epsilon_double dataset eta) 0
    = bernstein_blend dataset (1 - Epsilon_double) j /\
    Rabs (nth j (bezier_interp Epsilon_double dataset eta) 0
          - nth j (take dataset (SKY_CTRL_PTS - 1)) 0) <= 10 * Epsilon_double * bound.
Proof.
  apply (bezier_interp_boundary Epsilon_double (mkTensor 6 [1; 2; 3; 4; 5; 6])).
  - exact Epsilon_double_range.
  - reflexivity.
Defined.

(** ** The density of the sky *)

Lemma leb_true (a b : R) : a <= b -> dr.leb a b = true.
Proof. intros H. unfold dr.leb. destruct (Rle_dec a b); [reflexivity | contradiction]. Qed.

Lemma leb_false (a b : R) : b < a -> dr.leb a b = false.
Proof. intros H. unfold dr.leb. destruct (Rle_dec a b); [lra | reflexivity]. Qed.

Lemma eqb_true (a b : R) : a = b -> dr.eqb a b = true.
Proof. intros H. unfold dr.eqb. destruct (Req_dec_T a b); [reflexivity | contradiction]. Qed.

Lemma eqb_false (a b : R) : a <> b -> dr.eqb a b = false.
Proof. intros H. unfold dr.eqb. destruct (Req_dec_T a b); [contradiction | reflexivity]. Qed.

(** C6.  [sky_pdf] returns 0 for a direction below the horizon
    (cos theta < 0), with degenerate azimuth (sin theta = 0), or whose
    elevation in the canonical frame is outside [0, pi/2]; for every
    other direction it returns the sum over the mixture divided by
    sin theta (kept above epsilon). *)
Theorem sky_pdf_rejection (env : Env.Environment) (st : Emitter env)
    (local_dir : Vector3f) (sun_angles : Point2f) :
  let cos_theta := Env.Frame3f_cos_theta env local_dir in
  let sin_theta := Env.Frame3f_sin_theta env local_dir in
  let angles := canonical_angles env local_dir sun_angles in
  (cos_theta < 0 \/ sin_theta = 0 \/ snd angles < 0 \/ PI / 2 < snd angles ->
   forall active, sky_pdf env st local_dir sun_angles active = 0) /\
  (0 <= cos_theta -> sin_theta <> 0 -> 0 <= snd angles <= PI / 2 ->
   sky_pdf env st local_dir sun_angles true =
   tgmm_pdf env (m_tgmm_tables st) angles
   / dr.maximum sin_theta (Env.Epsilon env)).
Proof.
  intros cos_theta sin_theta angles. split.
  - intros Hrej active. unfold sky_pdf. fold cos_theta sin_theta angles.
    destruct Hrej as [Hcos | [Hsin | [Hlow | Hhigh]]].
    + rewrite (leb_false _ _ Hcos). rewrite andb_false_r. reflexivity.
    + rewrite (eqb_true _ _ Hsin). rewrite !andb_false_r. reflexivity.
    + rewrite (leb_false 0 (snd angles) Hlow). rewrite !andb_false_r. reflexivity.
    + rewrite (leb_false (snd angles) (0.5 * PI)) by lra.
      rewrite !andb_false_r. reflexivity.
  - intros Hcos Hsin [Hlow Hhigh]. unfold sky_pdf. fold cos_theta sin_theta angles.
    rewrite (leb_true _ _ Hcos), (eqb_false _ _ Hsin), (leb_true _ _ Hlow).
    rewrite (leb_true (snd angles) (0.5 * PI)) by lra.
    reflexivity.
Qed.

(** A direction pointing straight down is rejected. *)
Lemma sky_pdf_rejection_witness :
  sky_pdf reference_env reference_emitter (0, 0, - 1) (0, 0) true = 0.
Proof.
  apply (sky_pdf_rejection reference_env reference_emitter (0, 0, - 1) (0, 0)).
  left. simpl. lra.
Defined.

(** ** Wavelength sampling *)

(** C8.  [sample_wlgth] raises the "not implemented" error exactly in
    the non-spectral variants; in a spectral variant it returns the
    wavelengths sampled from the stored wavelength distribution and the
    reciprocal of their density. *)
Theorem sample_wlgth_not_implemented (env : Env.Environment) (st : Emitter env)
    (sample : R) (active : bool) :
  ((exists name, sample_wlgth env st sample active = inl (NotImplementedError name))
   <-> is_spectral_v (Env.variant env) = false) /\
  ((exists e, sample_wlgth env st sample active = inl e)
   <-> is_spectral_v (Env.variant env) = false) /\
  (is_spectral_v (Env.variant env) = true ->
   let sampled :=
     Env.sample_pdf env (m_spectral_distr st) (Env.sample_shifted env sample) active in
   sample_wlgth env st sample active = inr (fst sampled, map dr.rcp (snd sampled))).
Proof.
  unfold sample_wlgth.
  destruct (is_spectral_v (Env.variant env)); repeat split.
  - intros [name H]. discriminate.
  - intros H. discriminate.
  - intros [e H]. discriminate.
  - intros H. discriminate.
  - intros _. eexists. reflexivity.
  - intros _. eexists. reflexivity.
  - intros H. discriminate.
Qed.

Lemma sample_wlgth_not_implemented_witness :
  sample_wlgth reference_env reference_emitter (1 / 2) true = inr ([], []).
Proof.
  apply (sample_wlgth_not_implemented reference_env reference_emitter (1 / 2) true).
  reflexivity.
Defined.

(** ** The balance weight *)


Section BalanceWeight.

Variable env : Env.Environment.
Variable b : Base env.
Variable sun_angles : Point2f.
Variables sky_radiance sky_params : list R.

Local Abbreviation sky :=
  (sky_luminance env b sun_angles sky_radiance sky_params).
Local Abbreviation sun := (sun_luminance env b sun_angles).
Local Abbreviation weight :=
  (fst (estimate_sky_sun_ratio env b sun_angles sky_radiance sky_params)).

Lemma weight_is_guarded_ratio :
  weight = nan_to_zero (float_div sky (sky + sun)).
Proof.
  unfold estimate_sky_sun_ratio, sky_luminance, sun_luminance.
  destruct (float_is_array (Env.variant env)); cbn [negb].
  - destruct (is_spectral_v (Env.variant env)); reflexivity.
  - reflexivity.
Qed.



End BalanceWeight.



(** ** Change propagation *)

Lemma contains_only (keys : list string) (only word : string) :
  (forall k, In k keys -> k = only) -> word <> only -> contains keys word = false.
Proof.
  intros Hall Hne. unfold contains. apply not_true_is_false. intros Hex.
  apply existsb_exists in Hex. destruct Hex as [k [Hin Heq]].
  apply String.eqb_eq in Heq. apply Hne. rewrite Heq. apply Hall. exact Hin.
Qed.

Lemma contains_in (keys : list string) (word : string) :
  In word keys -> contains keys word = true.
Proof.
  intros Hin. unfold contains. apply existsb_exists. exists word.
  split; [exact Hin | apply String.eqb_refl].
Qed.

Section ChangePropagation.

Variable env : Env.Environment.

Local Abbreviation changed := (parameters_changed env).

Lemma albedo_only_keeps_mixture (keys : list string) (st : Emitter env) :
  keys <> [] -> (forall k, In k keys -> k = "albedo") ->
  m_tgmm_tables (changed keys st) = m_tgmm_tables st /\
  m_gaussian_distr (changed keys st) = m_gaussian_distr st.
Proof.
  intros Hne Hall. unfold parameters_changed.
  destruct keys as [|k ks]; [contradiction |].
  assert (Hother : forall word, word <> "albedo" -> contains (k :: ks) word = false)
    by (intros word; apply contains_only; exact Hall).
  rewrite (Hother "turbidity"), (Hother "timezone"), (Hother "year"),
    (Hother "day"), (Hother "month"), (Hother "hour"), (Hother "minute"),
    (Hother "second"), (Hother "latitude"), (Hother "longitude"),
    (Hother "sun_direction") by discriminate.
  cbn [orb andb]. rewrite !andb_false_r.
  cbn [orb fst snd m_tgmm_tables m_gaussian_distr].
  split; reflexivity.
Qed.

Lemma turbidity_rebuilds (keys : list string) (st : Emitter env) :
  In "turbidity" keys ->
  let st' := changed keys st in
  let b' := base st' in
  let eta := 0.5 * PI - snd (m_sun_angles st') in
  b' = Env.Base_parameters_changed env keys (base st) /\
  m_sky_params st' =
    bezier_interp (Env.Epsilon env)
      (Env.bilinear_interp env (m_sky_params_dataset b') (m_albedo b') (m_turbidity b'))
      eta /\
  m_sky_radiance st' =
    bezier_interp (Env.Epsilon env)
      (Env.bilinear_interp env (m_sky_rad_dataset b') (m_albedo b') (m_turbidity b'))
      eta /\
  (m_tgmm_tables st', m_gaussian_distr st') =
    build_tgmm_distribution (Env.TURBITDITY_LVLS env) (Env.ELEVATION_CTRL_PTS env)
      (Env.TGMM_COMPONENTS env) (Env.TGMM_GAUSSIAN_PARAMS env)
      (array (m_tgmm_datasets st)) (m_turbidity b') eta.
Proof.
  intros Hin. cbv zeta. unfold parameters_changed.
  rewrite (contains_in keys "turbidity" Hin).
  rewrite !orb_true_r.
  cbn [base m_sun_angles m_sky_params m_sky_radiance m_tgmm_tables
       m_gaussian_distr fst snd].
  repeat split.
Qed.

Lemma empty_keys_recompute_sun (st : Emitter env) :
  let st' := changed [] st in
  let coords := Env.sun_coordinates env (m_time st) (m_location st) in
  m_sun_dir st' =
    Env.transform_apply env (m_to_world (base st'))
      (Env.sph_to_dir env (fst coords) (snd coords)) /\
  m_sun_angles st' = (snd coords, fst coords) /\
  m_time st' = m_time st /\ m_location st' = m_location st /\
  m_active_record st' = m_active_record st.
Proof.
  cbv zeta. unfold parameters_changed. cbn [orb].
  cbn [base m_sun_dir m_sun_angles m_time m_location m_active_record fst snd].
  repeat split.
Qed.

Lemma ctor_direct_mode (props : Properties) (b : Base env)
    (log log' : list Event) (st : Emitter env) :
  has_property props "sun_direction" = true ->
  SunskyEmitter_ctor env props b log = Done st log' ->
  m_active_record st = false /\
  m_time st = Env.default_time env /\
  m_location st = Env.default_location env.
Proof.
  intros Hhas. unfold SunskyEmitter_ctor, read_sun_configuration.
  rewrite Hhas. unfold bind at 1. unfold bind at 1.
  destruct (location_time_given props).
  - discriminate.
  - unfold ret at 1. unfold bind at 1. unfold get_vector.
    destruct (find_property props "sun_direction") as [[r | z | v] |];
      try discriminate.
    unfold ret at 1 2. cbn [fst snd].
    unfold bind, ret, Log_Warn, tell,
      bilinear_interp_logged, bezier_interp_logged, load_tgmm_tables,
      build_tgmm_distribution_logged, estimate_sky_sun_ratio_logged.
    destruct (dr.ltb _ 0); intros H; inversion H; subst; cbn; repeat split.
Qed.

Lemma ctor_rejects_both (props : Properties) (b : Base env) (log : list Event) :
  has_property props "sun_direction" = true ->
  location_time_given props = true ->
  SunskyEmitter_ctor env props b log = Raised (LogError both_given_message) log.
Proof.
  intros Hdir Hloc. unfold SunskyEmitter_ctor, read_sun_configuration.
  rewrite Hdir, Hloc. reflexivity.
Qed.

End ChangePropagation.

(** C3.  A change of "albedo" alone leaves the combined mixture table
    and the component selection distribution as they were; a change
    that includes "turbidity" recomputes the interpolated coefficients
    and the mixture table from the updated base state. *)
Theorem change_isolation (env : Env.Environment) (keys : list string)
    (st : Emitter env) :
  let st' := parameters_changed env keys st in
  let b' := base st' in
  let eta := 0.5 * PI - snd (m_sun_angles st') in
  (keys <> [] -> (forall k, In k keys -> k = "albedo") ->
   m_tgmm_tables st' = m_tgmm_tables st /\
   m_gaussian_distr st' = m_gaussian_distr st) /\
  (In "turbidity" keys ->
   m_sky_params st' =
     bezier_interp (Env.Epsilon env)
       (Env.bilinear_interp env (m_sky_params_dataset b') (m_albedo b') (m_turbidity b'))
       eta /\
   m_sky_radiance st' =
     bezier_interp (Env.Epsilon env)
       (Env.bilinear_interp env (m_sky_rad_dataset b') (m_albedo b') (m_turbidity b'))
       eta /\
   (m_tgmm_tables st', m_gaussian_distr st') =
     build_tgmm_distribution (Env.TURBITDITY_LVLS env) (Env.ELEVATION_CTRL_PTS env)
       (Env.TGMM_COMPONENTS env) (Env.TGMM_GAUSSIAN_PARAMS env)
       (array (m_tgmm_datasets st)) (m_turbidity b') eta).
Proof.
  intros st' b' eta. split.
  - intros Hne Hall. apply albedo_only_keeps_mixture; assumption.
  - intros Hin. apply (turbidity_rebuilds env keys st Hin).
Qed.

Lemma change_isolation_witness :
  let st' := parameters_changed reference_env ["albedo"] reference_emitter in
  m_tgmm_tables st' = m_tgmm_tables reference_emitter /\
  m_gaussian_distr st' = m_gaussian_distr reference_emitter.
Proof.
  apply (change_isolation reference_env ["albedo"] reference_emitter).
  - discriminate.
  - intros k [Hk | []]. symmetry. exact Hk.
Defined.

(** C9.  In direct sun-direction mode, [parameters_changed] with an
    empty key set recomputes the sun direction and the sun angles from
    the time and location records, whatever the stored direction was;
    and the constructor of that mode leaves these records at their
    default values. *)
Theorem empty_keys_overwrite_sun_direction (env : Env.Environment) :
  (forall st : Emitter env,
     m_active_record st = false ->
     let st' := parameters_changed env [] st in
     let coords := Env.sun_coordinates env (m_time st) (m_location st) in
     m_sun_dir st' =
       Env.transform_apply env (m_to_world (base st'))
         (Env.sph_to_dir env (fst coords) (snd coords)) /\
     m_sun_angles st' = (snd coords, fst coords) /\
     m_active_record st' = false) /\
  (forall (props : Properties) (b : Base env) (log log' : list Event)
          (st : Emitter env),
     has_property props "sun_direction" = true ->
     SunskyEmitter_ctor env props b log = Done st log' ->
     m_active_record st = false /\
     m_time st = Env.default_time env /\
     m_location st = Env.default_location env).
Proof.
  split.
  - intros st Hmode.
    destruct (empty_keys_recompute_sun env st) as (Hdir & Hang & _ & _ & Hact).
    cbv zeta. rewrite Hdir, Hang, Hact. repeat split. exact Hmode.
  - intros props b log log' st. apply ctor_direct_mode.
Qed.

Lemma empty_keys_overwrite_sun_direction_witness :
  let st' := parameters_changed reference_env [] reference_emitter in
  m_sun_dir st' = (sin (PI / 2) * cos 0, sin (PI / 2) * sin 0, cos (PI / 2)) /\
  m_sun_angles st' = (0, PI / 2) /\
  m_active_record st' = false.
Proof.
  apply (proj1 (empty_keys_overwrite_sun_direction reference_env) reference_emitter).
  reflexivity.
Defined.

(** The direction supplied by the user, the zenith, is lost. *)
Example reference_sun_direction_lost :
  m_sun_dir (parameters_changed reference_env [] reference_emitter)
  <> m_sun_dir reference_emitter.
Proof.
  destruct (empty_keys_recompute_sun reference_env reference_emitter) as [Hdir _].
  rewrite Hdir. cbn.
  rewrite cos_PI2. intros H. inversion H. lra.
Qed.

(** ** The constructor *)

Lemma location_time_given_true (props : Properties) :
  has_property props "latitude" = true \/ has_property props "longitude" = true \/
  has_property props "timezone" = true \/ has_property props "year" = true \/
  has_property props "month" = true \/ has_property props "day" = true \/
  has_property props "hour" = true \/ has_property props "minute" = true \/
  has_property props "second" = true ->
  location_time_given props = true.
Proof.
  unfold location_time_given.
  intros [H | [H | [H | [H | [H | [H | [H | [H | H]]]]]]]]; rewrite H;
    rewrite ?orb_true_r; reflexivity.
Qed.

(** C7.  With a "sun_direction" property and any of the location and
    time properties, the constructor raises the configuration error,
    and the log of table computations is the one it started with: no
    coefficient or mixture table has been computed. *)
Theorem constructor_rejects_both_modes (env : Env.Environment)
    (props : Properties) (b : Base env) (log : list Event) :
  has_property props "sun_direction" = true ->
  has_property props "latitude" = true \/ has_property props "longitude" = true \/
  has_property props "timezone" = true \/ has_property props "year" = true \/
  has_property props "month" = true \/ has_property props "day" = true \/
  has_property props "hour" = true \/ has_property props "minute" = true \/
  has_property props "second" = true ->
  SunskyEmitter_ctor env props b log = Raised (LogError both_given_message) log.
Proof.
  intros Hdir Hloc. apply ctor_rejects_both; [exact Hdir |].
  apply location_time_given_true. exact Hloc.
Qed.

Lemma constructor_rejects_both_modes_witness :
  SunskyEmitter_ctor reference_env
    [("sun_direction", PVector (0, 0, 1)); ("latitude", PFloat 35)]
    reference_base []
  = Raised (LogError both_given_message) [].
Proof.
  apply (constructor_rejects_both_modes reference_env
           [("sun_direction", PVector (0, 0, 1)); ("latitude", PFloat 35)]
           reference_base []).
  - reflexivity.
  - left. reflexivity.
Defined.

(** By contrast, a construction in direct mode alone succeeds, and
    performs the table computations in the order of the source. *)
Example constructor_direct_mode_log :
  exists st,
    SunskyEmitter_ctor reference_env [("sun_direction", PVector (0, 0, 1))]
      reference_base []
    = Done st [EvBilinearInterp; EvBezierInterp; EvBilinearInterp; EvBezierInterp;
               EvLoadTgmmTables; EvBuildTgmmDistribution; EvEstimateSkySunRatio]
    /\ m_active_record st = false /\ m_sun_dir st = (0, 0, 1).
Proof.
  eexists. unfold SunskyEmitter_ctor, read_sun_configuration, get_vector.
  cbn [has_property find_property String.eqb Ascii.eqb Bool.eqb location_time_given orb].
  unfold bind, ret. cbv beta iota.
  cbn [reference_env reference_base Env.transform_apply Env.transform_inverse
       Env.normalize m_to_world vec_z fst snd].
  unfold dr.ltb. destruct (Rlt_dec 1 0) as [H | _]; [lra |].
  unfold bilinear_interp_logged, bezier_interp_logged, load_tgmm_tables,
    build_tgmm_distribution_logged, estimate_sky_sun_ratio_logged, bind, ret, tell.
  cbv beta iota. cbn [app]. repeat split.
Qed.

(** * Further properties *)

(** ** The combined mixture table *)

Lemma fold_sum (A : Type) (f : A -> R) (l : list A) :
  forall a0, fold_left (fun acc x => acc + f x) l a0 = a0 + dr.sum (map f l).
Proof.
  unfold dr.sum. induction l as [|x l IH]; intros a0; simpl.
  - lra.
  - rewrite IH. lra.
Qed.

Lemma clip_low (v lo hi : R) : v <= lo -> lo <= hi -> dr.clip v lo hi = lo.
Proof.
  intros Hv Hle. unfold dr.clip, dr.maximum, dr.minimum.
  apply Rmax_right. apply Rle_trans with v; [apply Rmin_l | exact Hv].
Qed.

Lemma clip_high (v lo hi : R) : hi <= v -> lo <= hi -> dr.clip v lo hi = hi.
Proof.
  intros Hv Hle. unfold dr.clip, dr.maximum, dr.minimum.
  rewrite Rmin_right by exact Hv. apply Rmax_left. exact Hle.
Qed.

Lemma clip_inside (v lo hi : R) : lo <= v <= hi -> dr.clip v lo hi = v.
Proof.
  intros [Hlo Hhi]. unfold dr.clip, dr.maximum, dr.minimum.
  rewrite Rmin_left by exact Hhi. apply Rmax_left. exact Hlo.
Qed.

Lemma floor2int_IZR (n : Z) : (0 <= n < 2 ^ 32)%Z -> dr.floor2int (IZR n) = n.
Proof. intros Hn. unfold dr.floor2int. rewrite ZfloorZ. apply u32_small. exact Hn. Qed.

Lemma floor2int_remainder (a : R) (n : Z) :
  (n < 2 ^ 32)%Z -> 0 <= a <= IZR n -> 0 <= a - IZR (dr.floor2int a) < 1.
Proof.
  intros Hn [H0 Ha]. unfold dr.floor2int.
  assert (Hlo : (0 <= Zfloor a)%Z) by (apply Zfloor_lub; exact H0).
  assert (Hhi : (Zfloor a <= n)%Z).
  { apply le_IZR. apply Rle_trans with a; [apply Zfloor_bound | exact Ha]. }
  rewrite u32_small by lia.
  pose proof (Zfloor_bound a). lra.
Qed.

Section MixtureTable.

Variables TURBITDITY_LVLS ELEVATION_CTRL_PTS : Z.
Variables TGMM_COMPONENTS TGMM_GAUSSIAN_PARAMS : Z.
Hypothesis turbidity_levels : (2 <= TURBITDITY_LVLS < 2 ^ 32)%Z.
Hypothesis elevation_points : (1 <= ELEVATION_CTRL_PTS < 2 ^ 32)%Z.
Hypothesis components : (1 <= TGMM_COMPONENTS)%Z.
Hypothesis gaussian_params : (1 <= TGMM_GAUSSIAN_PARAMS)%Z.
Hypothesis table_fits :
  (4 * (TGMM_COMPONENTS * TGMM_GAUSSIAN_PARAMS) < 2 ^ 32)%Z.

Local Abbreviation T := TURBITDITY_LVLS.
Local Abbreviation E := ELEVATION_CTRL_PTS.
Local Abbreviation C := TGMM_COMPONENTS.
Local Abbreviation P := TGMM_GAUSSIAN_PARAMS.
Local Abbreviation gwi := (gaussian_weight_idx TGMM_GAUSSIAN_PARAMS).
Local Abbreviation grid := (tgmm_grid TURBITDITY_LVLS ELEVATION_CTRL_PTS).
Local Abbreviation build :=
  (build_tgmm_distribution TURBITDITY_LVLS ELEVATION_CTRL_PTS
     TGMM_COMPONENTS TGMM_GAUSSIAN_PARAMS).

Lemma lerp_entry_other (factor : R) (params : list R) (j : Z) :
  (0 <= j)%Z -> (j mod P <> P - 1)%Z ->
  dr.entry (apply_lerp_factor C P factor params) j = dr.entry params j.
Proof.
  intros Hj Hmod. unfold apply_lerp_factor, dr.entry.
  rewrite (scale_loop_nth gwi factor).
  - replace (existsb _ _) with false; [reflexivity |].
    symmetry. apply not_true_is_false. intros Hex.
    apply existsb_exists in Hex. destruct Hex as [w [Hw Heq]].
    apply in_arange in Hw. apply Nat.eqb_eq in Heq.
    destruct (gwi_small C P components gaussian_params table_fits w Hw) as [Eg Bg].
    assert (Hjw : j = (w * P + (P - 1))%Z) by lia.
    apply Hmod. rewrite Hjw.
    rewrite Z.add_comm, Z.mod_add by lia. apply Z.mod_small. lia.
  - apply NoDup_map_NoDup_ForallPairs; [| apply arange_NoDup].
    intros x y Hx Hy Hxy. apply in_arange in Hx, Hy.
    destruct (gwi_small C P components gaussian_params table_fits x Hx) as [Ex Bx].
    destruct (gwi_small C P components gaussian_params table_fits y Hy) as [Ey By].
    assert (gwi x = gwi y) by lia. nia.
Qed.

Lemma table_length (tgmm_datasets : list R) (turbidity eta : R) :
  List.length (fst (build tgmm_datasets turbidity eta)) =
  Z.to_nat (4 * result_size T E (Z.of_nat (List.length tgmm_datasets))).
Proof.
  unfold build_tgmm_distribution. cbv zeta. cbn [fst].
  change (dr.arange 4) with [0; 1; 2; 3]%Z. cbn [fold_left].
  rewrite !corner_length. unfold dr.zeros. apply repeat_length.
Qed.

Lemma pmf_length (tgmm_datasets : list R) (turbidity eta : R) :
  List.length (m_pmf (snd (build tgmm_datasets turbidity eta))) = Z.to_nat (4 * C).
Proof.
  unfold build_tgmm_distribution. cbv zeta. cbn [snd m_pmf].
  rewrite gather_length. unfold mis_weight_idx.
  rewrite length_map, arange_length. reflexivity.
Qed.

Section Dataset.

Variable tgmm_datasets : list R.
Variables turbidity eta : R.

Local Abbreviation size := (Z.of_nat (List.length tgmm_datasets)).
Local Abbreviation indices := (tgmm_indices T E size (grid turbidity eta)).
Local Abbreviation factors := (tgmm_lerp_factors (grid turbidity eta)).
Local Abbreviation table := (fst (build tgmm_datasets turbidity eta)).
Local Abbreviation pmf := (m_pmf (snd (build tgmm_datasets turbidity eta))).

Hypothesis dataset_shape : size = ((T - 1) * (E * (C * P)))%Z.
Hypothesis dataset_fits : (size < 2 ^ 32)%Z.

Local Abbreviation levels := (proj1 turbidity_levels).
Local Abbreviation points := (proj1 elevation_points).

Lemma rs_is : result_size T E size = (C * P)%Z.
Proof.
  apply (rs_value T E C P levels points components gaussian_params
           tgmm_datasets dataset_shape dataset_fits).
Qed.

Lemma corner_index_fits (m : nat) :
  (m < 4)%nat ->
  (0 <= nth m indices 0%Z /\ nth m indices 0%Z + C * P <= size)%Z.
Proof.
  intros Hm. rewrite <- rs_is.
  apply (index_fits T E levels points tgmm_datasets turbidity eta).
  apply nth_In. unfold tgmm_indices. simpl. lia.
Qed.

Lemma other_entry (m : nat) (j : Z) :
  (m < 4)%nat -> (0 <= j < C * P)%Z -> (j mod P <> P - 1)%Z ->
  dr.entry table (Z.of_nat m * (C * P) + j) =
  dr.entry tgmm_datasets (nth m indices 0%Z + j).
Proof.
  intros Hm Hj Hmod. destruct (corner_index_fits m Hm) as [Hi0 Hi1].
  rewrite <- rs_is.
  rewrite (table_entry T E C P levels points components gaussian_params table_fits
             tgmm_datasets turbidity eta dataset_shape dataset_fits m j Hm)
    by (rewrite rs_is; exact Hj).
  rewrite lerp_entry_other by (lia || exact Hmod).
  rewrite entry_gather_window by (rewrite rs_is; exact Hj).
  rewrite u32_small by lia. reflexivity.
Qed.

Lemma scaled_entry (m : nat) (w : Z) :
  (m < 4)%nat -> (0 <= w < C)%Z ->
  dr.entry table (Z.of_nat m * (C * P) + (w * P + (P - 1))) =
  dr.entry tgmm_datasets (nth m indices 0%Z + (w * P + (P - 1))) * nth m factors 0.
Proof.
  intros Hm Hw.
  destruct (gwi_small C P components gaussian_params table_fits w Hw) as [Eg _].
  rewrite <- Eg, <- rs_is.
  apply (weight_entry T E C P levels points components gaussian_params table_fits
           tgmm_datasets turbidity eta dataset_shape dataset_fits m w Hm Hw).
Qed.

Lemma pmf_entry (k : Z) :
  (0 <= k < 4 * C)%Z ->
  dr.entry pmf k = dr.entry table (k * P + (P - 1)).
Proof.
  intros Hk. unfold build_tgmm_distribution at 1. cbv zeta. cbn [snd m_pmf].
  change (fold_left _ _ _) with table.
  unfold dr.gather, mis_weight_idx, dr.entry at 1. rewrite map_map.
  rewrite (nth_map_in _ _ 0%Z) by (rewrite arange_length; lia).
  rewrite nth_arange by lia. rewrite Z2Nat.id by lia.
  rewrite (u32_small (P * k)) by nia. rewrite u32_small by nia.
  f_equal. ring.
Qed.

End Dataset.

End MixtureTable.

(** X1.  For a dataset of the expected shape, the combined table has
    4 C P entries (C components of P parameters for each of the four
    corners), the selection distribution has 4 C weights, and weight
    [k] of the distribution is the last parameter of Gaussian [k] of the
    table. *)
Theorem combined_table_shape
    (TURBITDITY_LVLS ELEVATION_CTRL_PTS TGMM_COMPONENTS TGMM_GAUSSIAN_PARAMS : Z)
    (tgmm_datasets : list R) (turbidity eta : R) :
  let built :=
    build_tgmm_distribution TURBITDITY_LVLS ELEVATION_CTRL_PTS
      TGMM_COMPONENTS TGMM_GAUSSIAN_PARAMS tgmm_datasets turbidity eta in
  (2 <= TURBITDITY_LVLS < 2 ^ 32)%Z -> (1 <= ELEVATION_CTRL_PTS < 2 ^ 32)%Z ->
  (1 <= TGMM_COMPONENTS)%Z -> (1 <= TGMM_GAUSSIAN_PARAMS)%Z ->
  (4 * (TGMM_COMPONENTS * TGMM_GAUSSIAN_PARAMS) < 2 ^ 32)%Z ->
  Z.of_nat (List.length tgmm_datasets) =
    ((TURBITDITY_LVLS - 1)
     * (ELEVATION_CTRL_PTS * (TGMM_COMPONENTS * TGMM_GAUSSIAN_PARAMS)))%Z ->
  (Z.of_nat (List.length tgmm_datasets) < 2 ^ 32)%Z ->
  Z.of_nat (List.length (fst built)) = (4 * (TGMM_COMPONENTS * TGMM_GAUSSIAN_PARAMS))%Z /\
  Z.of_nat (List.length (m_pmf (snd built))) = (4 * TGMM_COMPONENTS)%Z /\
  forall k, (0 <= k < 4 * TGMM_COMPONENTS)%Z ->
    dr.entry (m_pmf (snd built)) k =
    dr.entry (fst built) (k * TGMM_GAUSSIAN_PARAMS + (TGMM_GAUSSIAN_PARAMS - 1)).
Proof.
  intros built HT HE HC HP Hfit Hshape Hsize. subst built. repeat split.
  - rewrite table_length.
    rewrite (rs_is _ _ _ _ HT HE HC HP _ Hshape Hsize). nia.
  - rewrite pmf_length. lia.
  - intros k Hk. apply pmf_entry; assumption.
Qed.

Lemma combined_table_shape_witness :
  let built := build_tgmm_distribution 10 30 5 5 (repeat (/ 5) (Z.to_nat 6750)) 3 (PI / 4) in
  Z.of_nat (List.length (fst built)) = (4 * (5 * 5))%Z /\
  Z.of_nat (List.length (m_pmf (snd built))) = (4 * 5)%Z /\
  forall k, (0 <= k < 4 * 5)%Z ->
    dr.entry (m_pmf (snd built)) k = dr.entry (fst built) (k * 5 + (5 - 1)).
Proof.
  assert (Hlen : Z.of_nat (List.length (repeat (/ 5) (Z.to_nat 6750))) = 6750%Z)
    by (rewrite repeat_length; lia).
  apply (combined_table_shape 10 30 5 5 (repeat (/ 5) (Z.to_nat 6750)) 3 (PI / 4));
    try rewrite Hlen; lia.
Defined.

(** X2.  Only the weights are rescaled: every other parameter of
    every component of corner [m] (means and standard deviations) is
    copied from the dataset block of that corner unchanged. *)
Theorem mixture_parameters_copied
    (TURBITDITY_LVLS ELEVATION_CTRL_PTS TGMM_COMPONENTS TGMM_GAUSSIAN_PARAMS : Z)
    (tgmm_datasets : list R) (turbidity eta : R) (m : nat) (w i : Z) :
  let size := Z.of_nat (List.length tgmm_datasets) in
  let g := tgmm_grid TURBITDITY_LVLS ELEVATION_CTRL_PTS turbidity eta in
  let indices := tgmm_indices TURBITDITY_LVLS ELEVATION_CTRL_PTS size g in
  let built :=
    build_tgmm_distribution TURBITDITY_LVLS ELEVATION_CTRL_PTS
      TGMM_COMPONENTS TGMM_GAUSSIAN_PARAMS tgmm_datasets turbidity eta in
  (2 <= TURBITDITY_LVLS < 2 ^ 32)%Z -> (1 <= ELEVATION_CTRL_PTS < 2 ^ 32)%Z ->
  (1 <= TGMM_COMPONENTS)%Z -> (1 <= TGMM_GAUSSIAN_PARAMS)%Z ->
  (4 * (TGMM_COMPONENTS * TGMM_GAUSSIAN_PARAMS) < 2 ^ 32)%Z ->
  size = ((TURBITDITY_LVLS - 1)
          * (ELEVATION_CTRL_PTS * (TGMM_COMPONENTS * TGMM_GAUSSIAN_PARAMS)))%Z ->
  (size < 2 ^ 32)%Z ->
  (m < 4)%nat -> (0 <= w < TGMM_COMPONENTS)%Z -> (0 <= i < TGMM_GAUSSIAN_PARAMS - 1)%Z ->
  dr.entry (fst built)
    (Z.of_nat m * (TGMM_COMPONENTS * TGMM_GAUSSIAN_PARAMS)
     + (w * TGMM_GAUSSIAN_PARAMS + i)) =
  dr.entry tgmm_datasets (nth m indices 0%Z + (w * TGMM_GAUSSIAN_PARAMS + i)).
Proof.
  intros size g indices built HT HE HC HP Hfit Hshape Hsize Hm Hw Hi.
  apply other_entry; try assumption.
  - nia.
  - rewrite Z.add_comm, Z.mod_add by lia. rewrite Z.mod_small by lia. lia.
Qed.

Lemma mixture_parameters_copied_witness :
  let tgmm_datasets := repeat (/ 5) (Z.to_nat 6750) in
  dr.entry (fst (build_tgmm_distribution 10 30 5 5 tgmm_datasets 3 (PI / 4)))
    (Z.of_nat 2 * (5 * 5) + (3 * 5 + 1)) =
  dr.entry tgmm_datasets
    (nth 2 (tgmm_indices 10 30 (Z.of_nat (List.length tgmm_datasets))
              (tgmm_grid 10 30 3 (PI / 4))) 0%Z
     + (3 * 5 + 1)).
Proof.
  assert (Hlen : Z.of_nat (List.length (repeat (/ 5) (Z.to_nat 6750))) = 6750%Z)
    by (rewrite repeat_length; lia).
  apply (mixture_parameters_copied 10 30 5 5 (repeat (/ 5) (Z.to_nat 6750))
           3 (PI / 4) 2 3 1);
    try rewrite Hlen; lia.
Defined.

(** ** The bilinear set-up *)

Section GridFacts.

Variables TURBITDITY_LVLS ELEVATION_CTRL_PTS : Z.
Hypothesis turbidity_levels : (2 <= TURBITDITY_LVLS < 2 ^ 32)%Z.
Hypothesis elevation_points : (1 <= ELEVATION_CTRL_PTS < 2 ^ 32)%Z.

Local Abbreviation T := TURBITDITY_LVLS.
Local Abbreviation E := ELEVATION_CTRL_PTS.
Local Abbreviation grid := (tgmm_grid TURBITDITY_LVLS ELEVATION_CTRL_PTS).

Lemma remainders_range (turbidity eta : R) :
  0 <= t_rem (grid turbidity eta) < 1 /\ 0 <= eta_rem (grid turbidity eta) < 1.
Proof.
  unfold tgmm_grid. cbn [t_rem eta_rem]. split.
  - apply (floor2int_remainder _ (T - 1 - 1)); [lia |].
    apply clip_bounds. apply IZR_le. lia.
  - apply (floor2int_remainder _ (E - 1)); [lia |].
    apply clip_bounds. apply IZR_le. lia.
Qed.

Lemma factors_range (turbidity eta : R) (m : nat) :
  0 <= nth m (tgmm_lerp_factors (grid turbidity eta)) 0 <= 1.
Proof.
  destruct (remainders_range turbidity eta) as [Ht He].
  unfold tgmm_lerp_factors.
  destruct m as [|[|[|[|m]]]]; cbn [nth]; try nra.
  destruct m; cbn [nth]; lra.
Qed.

Lemma turbidity_axis (turbidity eta : R) :
  let g := grid turbidity eta in
  (turbidity <= 2 -> t_idx_low g = 0%Z /\ t_rem g = 0) /\
  (IZR T <= turbidity ->
   t_idx_low g = (T - 2)%Z /\ t_idx_high g = (T - 2)%Z /\ t_rem g = 0) /\
  (forall i : Z, (0 <= i <= T - 2)%Z -> turbidity = 2 + IZR i ->
   t_idx_low g = i /\ t_rem g = 0).
Proof.
  cbv zeta. unfold tgmm_grid. cbn [t_idx_low t_idx_high t_rem].
  assert (Hhi : 0 <= IZR (T - 1 - 1)) by (apply IZR_le; lia).
  repeat split.
  - rewrite clip_low by lra. change 0 with (IZR 0). apply floor2int_IZR. lia.
  - rewrite clip_low by lra. change 0 with (IZR 0) at 1.
    rewrite floor2int_IZR by lia. lra.
  - rewrite clip_high; [| rewrite minus_IZR, minus_IZR; lra | lra].
    rewrite floor2int_IZR by lia. lia.
  - rewrite clip_high; [| rewrite minus_IZR, minus_IZR; lra | lra].
    rewrite floor2int_IZR by lia.
    rewrite u32_small by lia. lia.
  - rewrite clip_high; [| rewrite minus_IZR, minus_IZR; lra | lra].
    rewrite floor2int_IZR by lia. lra.
  - subst turbidity. replace (2 + IZR i - 2) with (IZR i) by ring.
    rewrite clip_inside by (split; apply IZR_le; lia).
    apply floor2int_IZR. lia.
  - subst turbidity. replace (2 + IZR i - 2) with (IZR i) by ring.
    rewrite clip_inside by (split; apply IZR_le; lia).
    rewrite floor2int_IZR by lia. lra.
Qed.

Lemma elevation_axis (turbidity eta : R) :
  let g := grid turbidity eta in
  (dr.rad_to_deg eta <= 2 -> eta_idx_low g = 0%Z /\ eta_rem g = 0) /\
  (2 + 3 * IZR (E - 1) <= dr.rad_to_deg eta ->
   eta_idx_low g = (E - 1)%Z /\ eta_idx_high g = (E - 1)%Z /\ eta_rem g = 0) /\
  (forall j : Z, (0 <= j <= E - 1)%Z -> dr.rad_to_deg eta = 2 + 3 * IZR j ->
   eta_idx_low g = j /\ eta_rem g = 0).
Proof.
  cbv zeta. unfold tgmm_grid. cbn [eta_idx_low eta_idx_high eta_rem].
  assert (Hhi : 0 <= IZR (E - 1)) by (apply IZR_le; lia).
  repeat split.
  - rewrite clip_low by lra. change 0 with (IZR 0). apply floor2int_IZR. lia.
  - rewrite clip_low by lra. change 0 with (IZR 0) at 1.
    rewrite floor2int_IZR by lia. lra.
  - rewrite clip_high by lra. apply floor2int_IZR. lia.
  - rewrite clip_high by lra. rewrite floor2int_IZR by lia.
    rewrite u32_small by lia. lia.
  - rewrite clip_high by lra. rewrite floor2int_IZR by lia. lra.
  - rewrite H0. replace ((2 + 3 * IZR j - 2) / 3) with (IZR j) by field.
    rewrite clip_inside by (split; apply IZR_le; lia).
    apply floor2int_IZR. lia.
  - rewrite H0. replace ((2 + 3 * IZR j - 2) / 3) with (IZR j) by field.
    rewrite clip_inside by (split; apply IZR_le; lia).
    rewrite floor2int_IZR by lia. lra.
Qed.

End GridFacts.

(** X3.  The two interpolation remainders lie in [0, 1) and each of
    the four bilinear factors in [0, 1], whatever the turbidity and the
    elevation. *)
Theorem bilinear_factors_range
    (TURBITDITY_LVLS ELEVATION_CTRL_PTS : Z) (turbidity eta : R) :
  let g := tgmm_grid TURBITDITY_LVLS ELEVATION_CTRL_PTS turbidity eta in
  (2 <= TURBITDITY_LVLS < 2 ^ 32)%Z -> (1 <= ELEVATION_CTRL_PTS < 2 ^ 32)%Z ->
  0 <= t_rem g < 1 /\ 0 <= eta_rem g < 1 /\
  Forall (fun f => 0 <= f <= 1) (tgmm_lerp_factors g).
Proof.
  intros g HT HE.
  destruct (remainders_range _ _ HT HE turbidity eta) as [Ht He].
  split; [exact Ht |]. split; [exact He |].
  pose proof (factors_range _ _ HT HE turbidity eta) as Hf.
  unfold tgmm_lerp_factors in *.
  apply Forall_cons; [exact (Hf 0%nat) |].
  apply Forall_cons; [exact (Hf 1%nat) |].
  apply Forall_cons; [exact (Hf 2%nat) |].
  apply Forall_cons; [exact (Hf 3%nat) |].
  apply Forall_nil.
Qed.

Lemma bilinear_factors_range_witness :
  let g := tgmm_grid 10 30 (37 / 10) (PI / 4) in
  0 <= t_rem g < 1 /\ 0 <= eta_rem g < 1 /\
  Forall (fun f => 0 <= f <= 1) (tgmm_lerp_factors g).
Proof.
  apply (bilinear_factors_range 10 30 (37 / 10) (PI / 4)); lia.
Defined.

(** X4.  Outside the tabulated ranges the indices saturate and the
    remainder is 0: a turbidity of at most 2 selects level 0, a turbidity
    of at least TURBITDITY_LVLS selects the last level for both corners;
    an elevation of at most 2 degrees selects control point 0, one of at
    least 2 + 3 (ELEVATION_CTRL_PTS - 1) degrees the last control point
    for both corners. *)
Theorem grid_saturates
    (TURBITDITY_LVLS ELEVATION_CTRL_PTS : Z) (turbidity eta : R) :
  let g := tgmm_grid TURBITDITY_LVLS ELEVATION_CTRL_PTS turbidity eta in
  (2 <= TURBITDITY_LVLS < 2 ^ 32)%Z -> (1 <= ELEVATION_CTRL_PTS < 2 ^ 32)%Z ->
  (turbidity <= 2 -> t_idx_low g = 0%Z /\ t_rem g = 0) /\
  (IZR TURBITDITY_LVLS <= turbidity ->
   t_idx_low g = (TURBITDITY_LVLS - 2)%Z /\
   t_idx_high g = (TURBITDITY_LVLS - 2)%Z /\ t_rem g = 0) /\
  (dr.rad_to_deg eta <= 2 -> eta_idx_low g = 0%Z /\ eta_rem g = 0) /\
  (2 + 3 * IZR (ELEVATION_CTRL_PTS - 1) <= dr.rad_to_deg eta ->
   eta_idx_low g = (ELEVATION_CTRL_PTS - 1)%Z /\
   eta_idx_high g = (ELEVATION_CTRL_PTS - 1)%Z /\ eta_rem g = 0).
Proof.
  intros g HT HE.
  destruct (turbidity_axis TURBITDITY_LVLS ELEVATION_CTRL_PTS HT turbidity eta) as (Htl & Hth & _).
  destruct (elevation_axis TURBITDITY_LVLS ELEVATION_CTRL_PTS HE turbidity eta) as (Hel & Heh & _).
  split; [exact Htl |]. split; [exact Hth |]. split; [exact Hel | exact Heh].
Qed.

Lemma grid_saturates_witness :
  let g := tgmm_grid 10 30 12 0 in
  t_idx_low g = (10 - 2)%Z /\ t_idx_high g = (10 - 2)%Z /\ t_rem g = 0.
Proof.
  apply (grid_saturates 10 30 12 0); try lia. lra.
Defined.

(** X5.  On a node of the grid (turbidity 2 + i, elevation 2 + 3 j
    degrees) the low corner is the node itself and the factors are
    (1, 0, 0, 0): the combined mixture is the mixture tabulated at the
    node, the three other corners having weight zero. *)
Theorem grid_node
    (TURBITDITY_LVLS ELEVATION_CTRL_PTS : Z) (turbidity eta : R) (i j : Z) :
  let g := tgmm_grid TURBITDITY_LVLS ELEVATION_CTRL_PTS turbidity eta in
  (2 <= TURBITDITY_LVLS < 2 ^ 32)%Z -> (1 <= ELEVATION_CTRL_PTS < 2 ^ 32)%Z ->
  (0 <= i <= TURBITDITY_LVLS - 2)%Z -> (0 <= j <= ELEVATION_CTRL_PTS - 1)%Z ->
  turbidity = 2 + IZR i -> dr.rad_to_deg eta = 2 + 3 * IZR j ->
  t_idx_low g = i /\ eta_idx_low g = j /\
  tgmm_lerp_factors g = [1; 0; 0; 0].
Proof.
  intros g HT HE Hi Hj Ht He.
  destruct (turbidity_axis TURBITDITY_LVLS ELEVATION_CTRL_PTS HT turbidity eta) as (_ & _ & Hnode_t).
  destruct (elevation_axis TURBITDITY_LVLS ELEVATION_CTRL_PTS HE turbidity eta) as (_ & _ & Hnode_e).
  destruct (Hnode_t i Hi Ht) as [Hti Htr].
  destruct (Hnode_e j Hj He) as [Hej Her].
  split; [exact Hti |]. split; [exact Hej |].
  subst g. unfold tgmm_lerp_factors. rewrite Htr, Her.
  repeat f_equal; ring.
Qed.

Lemma grid_node_witness :
  let g := tgmm_grid 10 30 (2 + IZR 3) (5 * (PI / 180)) in
  t_idx_low g = 3%Z /\ eta_idx_low g = 1%Z /\ tgmm_lerp_factors g = [1; 0; 0; 0].
Proof.
  apply (grid_node 10 30 (2 + IZR 3) (5 * (PI / 180)) 3 1); try lia.
  - reflexivity.
  - unfold dr.rad_to_deg. assert (0 < PI) by apply PI_RGT_0. field. lra.
Defined.

(** ** The combined mixture as a distribution and as a density *)

(** X6.  If the component weights of the four corner blocks of the
    dataset are non-negative, so is every weight of the selection
    distribution. *)
Theorem combined_weights_nonnegative
    (TURBITDITY_LVLS ELEVATION_CTRL_PTS TGMM_COMPONENTS TGMM_GAUSSIAN_PARAMS : Z)
    (tgmm_datasets : list R) (turbidity eta : R) :
  let size := Z.of_nat (List.length tgmm_datasets) in
  let g := tgmm_grid TURBITDITY_LVLS ELEVATION_CTRL_PTS turbidity eta in
  let indices := tgmm_indices TURBITDITY_LVLS ELEVATION_CTRL_PTS size g in
  let built :=
    build_tgmm_distribution TURBITDITY_LVLS ELEVATION_CTRL_PTS
      TGMM_COMPONENTS TGMM_GAUSSIAN_PARAMS tgmm_datasets turbidity eta in
  (2 <= TURBITDITY_LVLS < 2 ^ 32)%Z -> (1 <= ELEVATION_CTRL_PTS < 2 ^ 32)%Z ->
  (1 <= TGMM_COMPONENTS)%Z -> (1 <= TGMM_GAUSSIAN_PARAMS)%Z ->
  (4 * (TGMM_COMPONENTS * TGMM_GAUSSIAN_PARAMS) < 2 ^ 32)%Z ->
  size = ((TURBITDITY_LVLS - 1)
          * (ELEVATION_CTRL_PTS * (TGMM_COMPONENTS * TGMM_GAUSSIAN_PARAMS)))%Z ->
  (size < 2 ^ 32)%Z ->
  (forall index w, In index indices -> (0 <= w < TGMM_COMPONENTS)%Z ->
     0 <= dr.entry tgmm_datasets
            (index + (w * TGMM_GAUSSIAN_PARAMS + (TGMM_GAUSSIAN_PARAMS - 1)))) ->
  forall k, (0 <= k < 4 * TGMM_COMPONENTS)%Z -> 0 <= dr.entry (m_pmf (snd built)) k.
Proof.
  intros size g indices built HT HE HC HP Hfit Hshape Hsize Hpos k Hk.
  subst built. rewrite pmf_entry by assumption.
  set (C := TGMM_COMPONENTS) in *. set (P := TGMM_GAUSSIAN_PARAMS) in *.
  assert (Hq : (0 <= k / C < 4)%Z).
  { split; [apply Z.div_pos; lia | apply Z.div_lt_upper_bound; lia]. }
  assert (Hr : (0 <= k mod C < C)%Z) by (apply Z.mod_pos_bound; lia).
  assert (Hm : (Z.to_nat (k / C) < 4)%nat) by lia.
  replace (k * P + (P - 1))%Z
    with (Z.of_nat (Z.to_nat (k / C)) * (C * P) + (k mod C * P + (P - 1)))%Z.
  - rewrite scaled_entry by assumption.
    apply Rmult_le_pos.
    + apply Hpos; [| exact Hr]. apply nth_In. unfold tgmm_indices. simpl. lia.
    + apply (factors_range TURBITDITY_LVLS ELEVATION_CTRL_PTS HT HE).
  - rewrite Z2Nat.id by lia. rewrite (Z.div_mod k C) at 3 by lia. ring.
Qed.

Lemma combined_weights_nonnegative_witness :
  0 <= dr.entry (m_pmf (snd (build_tgmm_distribution 10 30 5 5
                               (repeat (/ 5) (Z.to_nat 6750)) 3 (PI / 4)))) 7.
Proof.
  assert (Hlen : Z.of_nat (List.length (repeat (/ 5) (Z.to_nat 6750))) = 6750%Z)
    by (rewrite repeat_length; lia).
  apply (combined_weights_nonnegative 10 30 5 5 (repeat (/ 5) (Z.to_nat 6750))
           3 (PI / 4)); try rewrite Hlen; try lia.
  intros index w _ _. unfold dr.entry.
  destruct (nth_in_or_default (Z.to_nat (index + (w * 5 + (5 - 1))))
              (repeat (/ 5) (Z.to_nat 6750)) 0) as [Hin | Hd].
  - apply repeat_spec in Hin. rewrite Hin. lra.
  - rewrite Hd. lra.
Defined.

Section MixtureDensity.

Variable env : Env.Environment.

Local Abbreviation T := (Env.TURBITDITY_LVLS env).
Local Abbreviation E := (Env.ELEVATION_CTRL_PTS env).
Local Abbreviation C := (Env.TGMM_COMPONENTS env).
Local Abbreviation P := (Env.TGMM_GAUSSIAN_PARAMS env).

Hypothesis turbidity_levels : (2 <= T < 2 ^ 32)%Z.
Hypothesis elevation_points : (1 <= E < 2 ^ 32)%Z.
Hypothesis components : (1 <= C)%Z.
Hypothesis gaussian_params : P = 5%Z.
Hypothesis table_fits : (4 * (C * P) < 2 ^ 32)%Z.

Variable tgmm_datasets : list R.
Variables turbidity eta : R.
Variable angles : Point2f.

Local Abbreviation size := (Z.of_nat (List.length tgmm_datasets)).
Local Abbreviation indices := (tgmm_indices T E size (tgmm_grid T E turbidity eta)).
Local Abbreviation factors := (tgmm_lerp_factors (tgmm_grid T E turbidity eta)).
Local Abbreviation table :=
  (fst (build_tgmm_distribution T E C P tgmm_datasets turbidity eta)).

Hypothesis dataset_shape : size = ((T - 1) * (E * (C * P)))%Z.
Hypothesis dataset_fits : (size < 2 ^ 32)%Z.

Lemma corner_term (m : nat) (w gi : Z) :
  (m < 4)%nat -> (0 <= w < C)%Z -> gi = ((Z.of_nat m * C + w) * P)%Z ->
  tgmm_term env table angles gi =
  tgmm_term env tgmm_datasets angles (nth m indices 0%Z + w * P) * nth m factors 0.
Proof.
  intros Hm Hw ->.
  assert (HP1 : (1 <= P)%Z) by lia.
  assert (Hother : forall i, (0 <= i < 4)%Z ->
            dr.entry table ((Z.of_nat m * C + w) * P + i) =
            dr.entry tgmm_datasets (nth m indices 0%Z + w * P + i)).
  { intros i Hi.
    replace ((Z.of_nat m * C + w) * P + i)%Z
      with (Z.of_nat m * (C * P) + (w * P + i))%Z by ring.
    rewrite other_entry; try assumption.
    - f_equal. ring.
    - nia.
    - rewrite Z.add_comm, Z.mod_add by lia. rewrite Z.mod_small by lia. lia. }
  assert (Hweight :
            dr.entry table ((Z.of_nat m * C + w) * P + 4) =
            dr.entry tgmm_datasets (nth m indices 0%Z + w * P + 4)
            * nth m factors 0).
  { replace ((Z.of_nat m * C + w) * P + 4)%Z
      with (Z.of_nat m * (C * P) + (w * P + (P - 1)))%Z by lia.
    rewrite scaled_entry; try assumption.
    f_equal. f_equal. lia. }
  unfold tgmm_term. cbv zeta.
  rewrite Hweight.
  rewrite (Hother 0%Z), (Hother 1%Z), (Hother 2%Z), (Hother 3%Z) by lia.
  unfold Rdiv. ring.
Qed.

Lemma corner_sum (m : nat) (shift : Z -> Z) :
  (m < 4)%nat -> (forall w, shift w = (Z.of_nat m * C + w)%Z) ->
  dr.sum (map (fun w => tgmm_term env table angles (shift w * P)) (dr.arange C)) =
  nth m factors 0 * block_pdf env tgmm_datasets angles (nth m indices 0%Z).
Proof.
  intros Hm Hshift. unfold block_pdf.
  rewrite Rmult_comm, <- sum_map_scale. f_equal.
  apply map_ext_in. intros w Hw. apply in_arange in Hw.
  apply corner_term; [exact Hm | exact Hw |]. rewrite Hshift. reflexivity.
Qed.

Lemma density_blend :
  tgmm_pdf env table angles =
  dr.sum (map (fun m => nth m factors 0
                        * block_pdf env tgmm_datasets angles (nth m indices 0%Z))
              (seq 0 4)).
Proof.
  unfold tgmm_pdf. rewrite fold_sum, Rplus_0_l.
  unfold gaussian_indices. rewrite map_map.
  replace (4 * C)%Z with (C + (C + (C + C)))%Z by ring.
  rewrite !arange_add by lia.
  rewrite !map_app, !map_map, !sum_app.
  cbn [seq map]. unfold dr.sum at 5. cbn [fold_right]. rewrite Rplus_0_r.
  f_equal; [| f_equal; [| f_equal]].
  - apply (corner_sum 0 (fun x => x)); [lia | intros w; cbv beta; cbn [Z.of_nat Pos.of_succ_nat Pos.succ]; lia].
  - apply (corner_sum 1 (fun x => (C + x)%Z)); [lia | intros w; cbv beta; cbn [Z.of_nat Pos.of_succ_nat Pos.succ]; lia].
  - apply (corner_sum 2 (fun x => (C + (C + x))%Z)); [lia | intros w; cbv beta; cbn [Z.of_nat Pos.of_succ_nat Pos.succ]; lia].
  - apply (corner_sum 3 (fun x => (C + (C + (C + x)))%Z)); [lia | intros w; cbv beta; cbn [Z.of_nat Pos.of_succ_nat Pos.succ]; lia].
Qed.

End MixtureDensity.

(** X7.  The density that [sky_pdf] sums over the combined table is
    the bilinear blend of the densities of the four corner mixtures of
    the dataset: the sum over the corners of the corner's factor times
    the density of the mixture tabulated there. *)
Theorem combined_density_is_blend (env : Env.Environment)
    (tgmm_datasets : list R) (turbidity eta : R) (angles : Point2f) :
  let T := Env.TURBITDITY_LVLS env in
  let E := Env.ELEVATION_CTRL_PTS env in
  let C := Env.TGMM_COMPONENTS env in
  let P := Env.TGMM_GAUSSIAN_PARAMS env in
  let size := Z.of_nat (List.length tgmm_datasets) in
  let g := tgmm_grid T E turbidity eta in
  let indices := tgmm_indices T E size g in
  let factors := tgmm_lerp_factors g in
  let table := fst (build_tgmm_distribution T E C P tgmm_datasets turbidity eta) in
  (2 <= T < 2 ^ 32)%Z -> (1 <= E < 2 ^ 32)%Z -> (1 <= C)%Z -> P = 5%Z ->
  (4 * (C * P) < 2 ^ 32)%Z ->
  size = ((T - 1) * (E * (C * P)))%Z -> (size < 2 ^ 32)%Z ->
  tgmm_pdf env table angles =
  dr.sum (map (fun m => nth m factors 0
                        * block_pdf env tgmm_datasets angles (nth m indices 0%Z))
              (seq 0 4)).
Proof.
  intros T E C P size g indices factors table HT HE HC HP Hfit Hshape Hsize.
  apply density_blend; assumption.
Qed.

Lemma combined_density_is_blend_witness :
  let tgmm_datasets := repeat (/ 5) (Z.to_nat 6750) in
  let size := Z.of_nat (List.length tgmm_datasets) in
  let g := tgmm_grid 10 30 3 (PI / 4) in
  tgmm_pdf reference_env
    (fst (build_tgmm_distribution 10 30 5 5 tgmm_datasets 3 (PI / 4))) (PI, PI / 4) =
  dr.sum (map (fun m => nth m (tgmm_lerp_factors g) 0
                        * block_pdf reference_env tgmm_datasets (PI, PI / 4)
                            (nth m (tgmm_indices 10 30 size g) 0%Z))
              (seq 0 4)).
Proof.
  assert (Hlen : Z.of_nat (List.length (repeat (/ 5) (Z.to_nat 6750))) = 6750%Z)
    by (rewrite repeat_length; lia).
  apply (combined_density_is_blend reference_env (repeat (/ 5) (Z.to_nat 6750))
           3 (PI / 4) (PI, PI / 4));
    cbn [reference_env Env.TURBITDITY_LVLS Env.ELEVATION_CTRL_PTS
         Env.TGMM_COMPONENTS Env.TGMM_GAUSSIAN_PARAMS];
    try rewrite Hlen; lia.
Defined.

(** ** The Bezier blend stays within the control points *)

Section BezierHull.

Variable Epsilon : R.
Hypothesis Epsilon_range : 0 < Epsilon < 1.

Lemma bezier_x_range (eta : R) : 0 <= eta -> 0 <= bezier_x Epsilon eta <= 1 - Epsilon.
Proof.
  intros Heta.
  rewrite (bezier_x_clamped Epsilon (proj2 Epsilon_range) eta Heta).
  unfold clamped_x. apply clip_bounds. lra.
Qed.

Lemma blend_constant (dataset : TensorXf) (x : R) (j : nat) (v : R) :
  (forall i, (i < SKY_CTRL_PTS)%nat -> nth j (take dataset i) 0 = v) ->
  bernstein_blend dataset x j = v.
Proof.
  intros Hv. unfold bernstein_blend, dr.sum.
  cbn [SKY_CTRL_PTS seq map fold_right coefs nth Nat.sub].
  rewrite !Hv by (unfold SKY_CTRL_PTS; lia). ring.
Qed.

Lemma blend_within (dataset : TensorXf) (x : R) (j : nat) (lo hi : R) :
  0 <= x <= 1 ->
  (forall i, (i < SKY_CTRL_PTS)%nat -> lo <= nth j (take dataset i) 0 <= hi) ->
  lo <= bernstein_blend dataset x j <= hi.
Proof.
  intros Hx Hd.
  pose proof (Hd 0%nat ltac:(unfold SKY_CTRL_PTS; lia)) as H0.
  pose proof (Hd 1%nat ltac:(unfold SKY_CTRL_PTS; lia)) as H1.
  pose proof (Hd 2%nat ltac:(unfold SKY_CTRL_PTS; lia)) as H2.
  pose proof (Hd 3%nat ltac:(unfold SKY_CTRL_PTS; lia)) as H3.
  pose proof (Hd 4%nat ltac:(unfold SKY_CTRL_PTS; lia)) as H4.
  pose proof (Hd 5%nat ltac:(unfold SKY_CTRL_PTS; lia)) as H5.
  unfold bernstein_blend, dr.sum.
  cbn [SKY_CTRL_PTS seq map fold_right coefs nth Nat.sub].
  set (d0 := nth j (take dataset 0) 0) in *. set (d1 := nth j (take dataset 1) 0) in *.
  set (d2 := nth j (take dataset 2) 0) in *. set (d3 := nth j (take dataset 3) 0) in *.
  set (d4 := nth j (take dataset 4) 0) in *. set (d5 := nth j (take dataset 5) 0) in *.
  set (y := 1 - x).
  assert (Hy : 0 <= y) by (unfold y; lra).
  assert (Hpx : forall n, 0 <= x ^ n) by (intros n; apply pow_le; lra).
  assert (Hpy : forall n, 0 <= y ^ n) by (intros n; apply pow_le; exact Hy).
  set (b0 := 1 * x ^ 0 * y ^ 5). set (b1 := 5 * x ^ 1 * y ^ 4).
  set (b2 := 10 * x ^ 2 * y ^ 3). set (b3 := 10 * x ^ 3 * y ^ 2).
  set (b4 := 5 * x ^ 4 * y ^ 1). set (b5 := 1 * x ^ 5 * y ^ 0).
  assert (Hb : forall c n k, 0 <= c -> 0 <= c * x ^ n * y ^ k).
  { intros c n k Hc. apply Rmult_le_pos; [apply Rmult_le_pos |]; auto. }
  assert (Hb0 : 0 <= b0) by (apply Hb; lra).
  assert (Hb1 : 0 <= b1) by (apply Hb; lra).
  assert (Hb2 : 0 <= b2) by (apply Hb; lra).
  assert (Hb3 : 0 <= b3) by (apply Hb; lra).
  assert (Hb4 : 0 <= b4) by (apply Hb; lra).
  assert (Hb5 : 0 <= b5) by (apply Hb; lra).
  assert (Hsum : b0 + b1 + b2 + b3 + b4 + b5 = 1)
    by (unfold b0, b1, b2, b3, b4, b5, y; ring).
  replace (b0 * d0 + (b1 * d1 + (b2 * d2 + (b3 * d3 + (b4 * d4 + (b5 * d5 + 0))))))
    with (b0 * d0 + b1 * d1 + b2 * d2 + b3 * d3 + b4 * d4 + b5 * d5) by ring.
  split.
  - apply Rle_trans with (b0 * lo + b1 * lo + b2 * lo + b3 * lo + b4 * lo + b5 * lo).
    + replace (b0 * lo + b1 * lo + b2 * lo + b3 * lo + b4 * lo + b5 * lo)
        with ((b0 + b1 + b2 + b3 + b4 + b5) * lo) by ring.
      rewrite Hsum. lra.
    + repeat apply Rplus_le_compat; apply Rmult_le_compat_l; lra.
  - apply Rle_trans with (b0 * hi + b1 * hi + b2 * hi + b3 * hi + b4 * hi + b5 * hi).
    + repeat apply Rplus_le_compat; apply Rmult_le_compat_l; lra.
    + replace (b0 * hi + b1 * hi + b2 * hi + b3 * hi + b4 * hi + b5 * hi)
        with ((b0 + b1 + b2 + b3 + b4 + b5) * hi) by ring.
      rewrite Hsum. lra.
Qed.

End BezierHull.

(** X8.  The six Bernstein weights sum to 1 and, for a sun above the
    horizon (eta >= 0), are non-negative: control points that agree on
    an entry give that value for every eta, and for eta >= 0 every entry
    of the result lies between the least and the greatest of the six
    control-point entries. *)
Theorem bezier_interp_within_control_points
    (Epsilon : R) (dataset : TensorXf) (eta : R) (j : nat) :
  0 < Epsilon < 1 ->
  shape0 dataset = SKY_CTRL_PTS ->
  (forall v, (forall i, (i < SKY_CTRL_PTS)%nat -> nth j (take dataset i) 0 = v) ->
     nth j (bezier_interp Epsilon dataset eta) 0 = v) /\
  (0 <= eta ->
   forall lo hi,
     (forall i, (i < SKY_CTRL_PTS)%nat -> lo <= nth j (take dataset i) 0 <= hi) ->
     lo <= nth j (bezier_interp Epsilon dataset eta) 0 <= hi).
Proof.
  intros He Hshape.
  destruct (bezier_interp_entries Epsilon (proj1 He) dataset eta Hshape) as [_ Hnth].
  rewrite Hnth. split.
  - intros v Hv. apply blend_constant. exact Hv.
  - intros Heta lo hi Hd. apply blend_within; [| exact Hd].
    pose proof (bezier_x_range Epsilon He eta Heta). lra.
Qed.

Lemma bezier_interp_within_control_points_witness :
  let dataset := mkTensor 6 [1; 2; 3; 4; 5; 6] in
  (forall v, (forall i, (i < SKY_CTRL_PTS)%nat -> nth 0 (take dataset i) 0 = v) ->
     nth 0 (bezier_interp Epsilon_double dataset (PI / 4)) 0 = v) /\
  (0 <= PI / 4 ->
   forall lo hi,
     (forall i, (i < SKY_CTRL_PTS)%nat -> lo <= nth 0 (take dataset i) 0 <= hi) ->
     lo <= nth 0 (bezier_interp Epsilon_double dataset (PI / 4)) 0 <= hi).
Proof.
  apply (bezier_interp_within_control_points Epsilon_double
           (mkTensor 6 [1; 2; 3; 4; 5; 6]) (PI / 4) 0).
  - exact Epsilon_double_range.
  - reflexivity.
Defined.

(** ** The canonical frame of [sky_pdf] *)

(** X9.  For a direction whose azimuth and a sun whose azimuth both
    lie in [0, 2 pi], the azimuth [sky_pdf] evaluates the mixture at lies
    in [0, 2 pi] again, and the elevation is the one of the direction. *)
Theorem canonical_azimuth_range (env : Env.Environment)
    (local_dir : Vector3f) (sun_angles : Point2f) :
  0 <= snd (Env.dir_to_sph env local_dir) <= 2 * PI ->
  0 <= fst sun_angles <= 2 * PI ->
  0 <= fst (canonical_angles env local_dir sun_angles) <= 2 * PI /\
  snd (canonical_angles env local_dir sun_angles) = fst (Env.dir_to_sph env local_dir).
Proof.
  intros Hphi Hsun. pose proof PI_RGT_0 as Hpi.
  unfold canonical_angles, flip, dr.select, dr.ltb. cbn [fst snd].
  split; [| reflexivity].
  set (ax := snd (Env.dir_to_sph env local_dir) - (fst sun_angles - 0.5 * PI)).
  assert (Hax : - (3 / 2) * PI <= ax <= 5 / 2 * PI) by (unfold ax; lra).
  destruct (Rlt_dec ax 0) as [Hneg | Hpos].
  - destruct (Rlt_dec (2 * PI) (ax + 2 * PI)) as [H | H]; lra.
  - destruct (Rlt_dec (2 * PI) ax) as [H | H]; lra.
Qed.

Lemma canonical_azimuth_range_witness :
  0 <= fst (canonical_angles reference_env (0, 0, 1) (PI, 0)) <= 2 * PI /\
  snd (canonical_angles reference_env (0, 0, 1) (PI, 0))
  = fst (Env.dir_to_sph reference_env (0, 0, 1)).
Proof.
  pose proof PI_RGT_0 as Hpi.
  apply (canonical_azimuth_range reference_env (0, 0, 1) (PI, 0)); simpl; lra.
Defined.

(** ** The balance weight and the wavelength distribution *)

(** X10.  When the two luminances are non-negative the balance weight
    is a finite number of [0, 1], as the documentation of
    [estimate_sky_sun_ratio] says. *)
Theorem balance_weight_in_unit_interval (env : Env.Environment) (b : Base env)
    (sun_angles : Point2f) (sky_radiance sky_params : list R) :
  0 <= sky_luminance env b sun_angles sky_radiance sky_params ->
  0 <= sun_luminance env b sun_angles ->
  exists w,
    fst (estimate_sky_sun_ratio env b sun_angles sky_radiance sky_params) = Finite w
    /\ 0 <= w <= 1.
Proof.
  intros Hsky Hsun.
  rewrite (weight_is_guarded_ratio env b sun_angles sky_radiance sky_params).
  set (sky := sky_luminance env b sun_angles sky_radiance sky_params) in *.
  set (sun := sun_luminance env b sun_angles) in *.
  unfold nan_to_zero, float_div, dr.select.
  destruct (Req_dec_T (sky + sun) 0) as [Hz | Hnz].
  - assert (Hs : sky = 0) by lra.
    destruct (Req_dec_T sky 0) as [_ | H]; [| contradiction].
    exists 0. cbn [isnan]. split; [reflexivity | lra].
  - exists (sky / (sky + sun)). cbn [isnan]. split; [reflexivity |].
    assert (Hpos : 0 < sky + sun) by lra.
    split.
    + apply Rmult_le_pos; [exact Hsky |]. left. apply Rinv_0_lt_compat. exact Hpos.
    + apply Rmult_le_reg_r with (sky + sun); [exact Hpos |].
      unfold Rdiv. rewrite Rmult_assoc, Rinv_l by lra. lra.
Qed.

Lemma balance_weight_in_unit_interval_witness :
  exists w,
    fst (estimate_sky_sun_ratio reference_env reference_base (0, 0) [] []) = Finite w
    /\ 0 <= w <= 1.
Proof.
  apply (balance_weight_in_unit_interval reference_env reference_base (0, 0) [] []).
  - unfold sky_luminance, sky_lum. simpl. lra.
  - unfold sun_luminance, sun_lum. simpl. lra.
Defined.

Lemma all_zero_shifted (l : list R) :
  l <> [] -> all_zero l = true -> all_zero (map (fun r => r + 1) l) = false.
Proof.
  destruct l as [|r l]; [contradiction |].
  intros _ Hz. unfold all_zero in *. cbn [map forallb] in *.
  apply andb_true_iff in Hz. destruct Hz as [Hr _].
  unfold dr.eqb in Hr. destruct (Req_dec_T r 0) as [-> | _]; [| discriminate].
  rewrite eqb_false by lra. reflexivity.
Qed.

(** X11.  The wavelength distribution returned with the weight: in a
    scalar variant the flat two-point density over the wavelength range;
    in a vectorized non-spectral variant the default-constructed one; in
    a vectorized spectral variant a density with CHANNEL_COUNT - 1
    entries over the wavelength range that, when there is an entry at
    all, is never identically zero. *)
Theorem wavelength_distribution_well_formed (env : Env.Environment) (b : Base env)
    (sun_angles : Point2f) (sky_radiance sky_params : list R) :
  let distr := snd (estimate_sky_sun_ratio env b sun_angles sky_radiance sky_params) in
  (float_is_array (Env.variant env) = false ->
   distr = RangeDistribution (wavelength_range env) [1; 1]) /\
  (float_is_array (Env.variant env) = true ->
   is_spectral_v (Env.variant env) = false -> distr = EmptyDistribution) /\
  (float_is_array (Env.variant env) = true ->
   is_spectral_v (Env.variant env) = true ->
   exists spectrum,
     distr = RangeDistribution (wavelength_range env) spectrum /\
     List.length spectrum = (Env.CHANNEL_COUNT env - 1)%nat /\
     (spectrum <> [] -> all_zero spectrum = false)).
Proof.
  cbv zeta. unfold estimate_sky_sun_ratio. repeat split.
  - intros ->. reflexivity.
  - intros -> ->. reflexivity.
  - intros -> ->. cbn [negb snd].
    match goal with
    | |- context [all_zero ?s] => set (spectrum := s)
    end.
    assert (Hlen : List.length spectrum = (Env.CHANNEL_COUNT env - 1)%nat)
      by (unfold spectrum; rewrite length_map, length_seq; reflexivity).
    destruct (all_zero spectrum) eqn:Hz.
    + eexists. split; [reflexivity |]. split.
      * rewrite length_map. exact Hlen.
      * intros Hne. apply all_zero_shifted; [| exact Hz].
        intros Hnil. apply Hne. rewrite Hnil. reflexivity.
    + eexists. split; [reflexivity |]. split; [exact Hlen |].
      intros _. exact Hz.
Qed.

Lemma wavelength_distribution_well_formed_witness :
  exists spectrum,
    snd (estimate_sky_sun_ratio reference_env reference_base (0, 0) [] [])
    = RangeDistribution (wavelength_range reference_env) spectrum /\
    List.length spectrum = (Env.CHANNEL_COUNT reference_env - 1)%nat /\
    (spectrum <> [] -> all_zero spectrum = false).
Proof.
  apply (wavelength_distribution_well_formed reference_env reference_base (0, 0) [] []);
    reflexivity.
Defined.

(** ** The constructor: failures and the direct mode *)

Lemma ret_only_property_errors (A : Type) (a : A) : only_property_errors (ret a).
Proof. intros log. left. exists a. reflexivity. Qed.

Lemma get_float_only_property_errors (props : Properties) (name : string) (d : R) :
  only_property_errors (get_float props name d).
Proof.
  intros log. unfold get_float.
  destruct (find_property props name) as [[r | z | v] |].
  - left. eexists. reflexivity.
  - left. eexists. reflexivity.
  - right. eexists. reflexivity.
  - left. eexists. reflexivity.
Qed.

Lemma get_int_only_property_errors (props : Properties) (name : string) (d : Z) :
  only_property_errors (get_int props name d).
Proof.
  intros log. unfold get_int.
  destruct (find_property props name) as [[r | z | v] |].
  - right. eexists. reflexivity.
  - left. eexists. reflexivity.
  - right. eexists. reflexivity.
  - left. eexists. reflexivity.
Qed.

Lemma get_vector_only_property_errors (props : Properties) (name : string) :
  only_property_errors (get_vector props name).
Proof.
  intros log. unfold get_vector.
  destruct (find_property props name) as [[r | z | v] |].
  - right. eexists. reflexivity.
  - right. eexists. reflexivity.
  - left. eexists. reflexivity.
  - right. eexists. reflexivity.
Qed.

Lemma bind_only_property_errors (A B : Type) (m : M A) (k : A -> M B) :
  only_property_errors m -> (forall a, only_property_errors (k a)) ->
  only_property_errors (bind m k).
Proof.
  intros Hm Hk log. unfold bind.
  destruct (Hm log) as [[a ->] | [name ->]].
  - apply Hk.
  - right. exists name. reflexivity.
Qed.

Lemma bind_done (A B : Type) (m : M A) (k : A -> M B) (log log1 : list Event) (a : A) :
  m log = Done a log1 -> bind m k log = k a log1.
Proof. intros H. unfold bind. rewrite H. reflexivity. Qed.

Lemma bind_raised (A B : Type) (m : M A) (k : A -> M B) (log log1 : list Event)
    (e : Exception) :
  m log = Raised e log1 -> bind m k log = Raised e log1.
Proof. intros H. unfold bind. rewrite H. reflexivity. Qed.

Section ConstructorFacts.

Variable env : Env.Environment.

Lemma read_record_mode (props : Properties) (b : Base env) :
  has_property props "sun_direction" = false ->
  only_property_errors (read_sun_configuration env props b).
Proof.
  intros Hdir. unfold read_sun_configuration. rewrite Hdir.
  repeat (apply bind_only_property_errors;
          [first [apply get_float_only_property_errors
                 | apply get_int_only_property_errors] | intros ?]).
  apply ret_only_property_errors.
Qed.

Lemma read_direct_mode (props : Properties) (b : Base env) :
  has_property props "sun_direction" = true ->
  location_time_given props = false ->
  only_property_errors (read_sun_configuration env props b).
Proof.
  intros Hdir Hloc. unfold read_sun_configuration. rewrite Hdir, Hloc.
  apply bind_only_property_errors; [apply ret_only_property_errors | intros _].
  apply bind_only_property_errors; [apply get_vector_only_property_errors | intros v].
  apply ret_only_property_errors.
Qed.

(** The constructor in terms of the reading of the configuration,
    the TGMM file and the two distributions being taken as given. *)
Lemma ctor_after_read (props : Properties) (b : Base env) (log : list Event) :
  match read_sun_configuration env props b log with
  | Done cfg log1 =>
      exists st log2,
        SunskyEmitter_ctor env props b log = Done st log2 /\
        derived_state_consistent env st /\
        base st = b /\
        m_active_record st = fst (fst (fst cfg)) /\
        m_sun_dir st = snd (fst (fst cfg)) /\
        m_tgmm_datasets st = Env.tgmm_tables_file env /\
        log2 =
          log1
          ++ (if dr.ltb (vec_z (Env.transform_apply env
                                  (Env.transform_inverse env (m_to_world b))
                                  (snd (fst (fst cfg))))) 0
              then [EvWarn below_horizon_message] else [])
          ++ constructor_events /\
        m_sun_angles st =
          flip (Env.dir_to_sph env
                  (Env.transform_apply env
                     (Env.transform_inverse env (m_to_world b))
                     (snd (fst (fst cfg)))))
  | Raised e log1 => SunskyEmitter_ctor env props b log = Raised e log1
  end.
Proof.
  unfold SunskyEmitter_ctor.
  destruct (read_sun_configuration env props b log) as [cfg log1 | e log1] eqn:Hread;
    [rewrite (bind_done _ _ _ _ _ _ _ Hread)
    | rewrite (bind_raised _ _ _ _ _ _ _ Hread); reflexivity].
  unfold bilinear_interp_logged, bezier_interp_logged, load_tgmm_tables,
    build_tgmm_distribution_logged, estimate_sky_sun_ratio_logged,
    Log_Warn, bind, ret, tell, constructor_events.
  destruct (dr.ltb _ 0); cbv beta iota;
    (eexists; eexists; split; [reflexivity |]);
    unfold derived_state_consistent;
    cbn [base m_sun_angles m_sky_params m_sky_radiance m_tgmm_tables
         m_gaussian_distr m_sky_sampling_w m_spectral_distr m_tgmm_datasets
         m_active_record m_sun_dir];
    repeat split;
    try (symmetry; apply surjective_pairing);
    rewrite <- ?app_assoc; reflexivity.
Qed.

End ConstructorFacts.

(** X12.  A failure of the constructor with the configuration error
    or with a property error happens before any table computation: the
    log is the one the constructor started with.  The configuration
    error is raised only when "sun_direction" and a location or time
    property are both given. *)
Theorem constructor_failures (env : Env.Environment) (props : Properties)
    (b : Base env) (log log' : list Event) (e : Exception) :
  SunskyEmitter_ctor env props b log = Raised e log' ->
  e = LogError both_given_message \/ (exists name, e = PropertyError name) ->
  log' = log /\
  (e = LogError both_given_message ->
   has_property props "sun_direction" = true /\
   location_time_given props = true).
Proof.
  intros Hctor _.
  pose proof (ctor_after_read env props b log) as Hafter.
  destruct (read_sun_configuration env props b log) as [cfg log1 | e1 log1] eqn:Hread.
  - destruct Hafter as (st & log2 & Hdone & _). congruence.
  - rewrite Hafter in Hctor. inversion Hctor; subst e1 log1. clear Hctor Hafter.
    destruct (has_property props "sun_direction") eqn:Hdir.
    + destruct (location_time_given props) eqn:Hloc.
      * unfold read_sun_configuration in Hread. rewrite Hdir, Hloc in Hread.
        cbv in Hread. inversion Hread. split; [reflexivity |].
        intros _. split; reflexivity.
      * destruct (read_direct_mode env props b Hdir Hloc log) as [[a Ha] | [name Hn]].
        -- congruence.
        -- rewrite Hn in Hread. inversion Hread. split; [reflexivity |].
           intros He. discriminate He.
    + destruct (read_record_mode env props b Hdir log) as [[a Ha] | [name Hn]].
      * congruence.
      * rewrite Hn in Hread. inversion Hread. split; [reflexivity |].
        intros He. discriminate He.
Qed.

Lemma constructor_failures_witness :
  [] = @nil Event /\
  (LogError both_given_message = LogError both_given_message ->
   has_property [("sun_direction", PVector (0, 0, 1)); ("hour", PFloat 12)]
     "sun_direction" = true /\
   location_time_given [("sun_direction", PVector (0, 0, 1)); ("hour", PFloat 12)]
   = true).
Proof.
  apply (constructor_failures reference_env
           [("sun_direction", PVector (0, 0, 1)); ("hour", PFloat 12)]
           reference_base [] [] (LogError both_given_message)).
  - reflexivity.
  - left. reflexivity.
Defined.

(** X13.  When the construction from a vector "sun_direction" and no
    location or time property returns an emitter, the emitter is in
    direct mode and holds the normalized direction and the angles of
    that direction in the local frame; the below-horizon warning has
    been logged exactly when the local direction has a negative z, and
    after it the seven table computations in the order of the source. *)
Theorem constructor_direct_mode (env : Env.Environment) (props : Properties)
    (b : Base env) (log log' : list Event) (v : Vector3f) (st : Emitter env) :
  find_property props "sun_direction" = Some (PVector v) ->
  location_time_given props = false ->
  SunskyEmitter_ctor env props b log = Done st log' ->
  let local_sun_dir :=
    Env.transform_apply env (Env.transform_inverse env (m_to_world b))
      (Env.normalize env v) in
  log' = log
         ++ (if dr.ltb (vec_z local_sun_dir) 0
             then [EvWarn below_horizon_message] else [])
         ++ constructor_events /\
  m_active_record st = false /\
  m_sun_dir st = Env.normalize env v /\
  m_sun_angles st = flip (Env.dir_to_sph env local_sun_dir) /\
  base st = b.
Proof.
  intros Hfind Hloc Hctor local_sun_dir.
  pose proof (ctor_after_read env props b log) as Hafter.
  assert (Hread : read_sun_configuration env props b log =
                  Done (false, Env.normalize env v, Env.default_time env,
                        Env.default_location env) log).
  { unfold read_sun_configuration, has_property. rewrite Hfind, Hloc.
    unfold bind, ret, get_vector. rewrite Hfind. reflexivity. }
  rewrite Hread in Hafter.
  destruct Hafter as (st1 & log2 & Hdone & _ & Hbase & Hact & Hdir & _ & Hlog & Hang).
  rewrite Hdone in Hctor. injection Hctor as Hst Hl.
  rewrite <- Hst, <- Hl. cbn [fst snd] in *.
  split; [exact Hlog |]. split; [exact Hact |]. split; [exact Hdir |].
  split; [exact Hang | exact Hbase].
Qed.

Lemma constructor_direct_mode_witness :
  exists st log',
    SunskyEmitter_ctor reference_env [("sun_direction", PVector (0, 0, - 1))]
      reference_base [] = Done st log' /\
    log' = []
           ++ (if dr.ltb (vec_z (0, 0, - 1)) 0
               then [EvWarn below_horizon_message] else [])
           ++ constructor_events /\
    m_active_record st = false /\
    m_sun_dir st = (0, 0, - 1) /\
    m_sun_angles st = flip (Env.dir_to_sph reference_env (0, 0, - 1)) /\
    base st = reference_base.
Proof.
  pose proof (ctor_after_read reference_env
                [("sun_direction", PVector (0, 0, - 1))] reference_base []) as Hafter.
  change (read_sun_configuration reference_env
            [("sun_direction", PVector (0, 0, - 1))] reference_base [])
    with (@Done (bool * Vector3f * DateTimeRecord * LocationRecord)
            (false, (0, 0, - 1), Env.default_time reference_env,
             Env.default_location reference_env) []) in Hafter.
  destruct Hafter as (st & log2 & Hdone & _).
  exists st, log2. split; [exact Hdone |].
  apply (constructor_direct_mode reference_env
           [("sun_direction", PVector (0, 0, - 1))] reference_base [] log2
           (0, 0, - 1) st); [reflexivity | reflexivity | exact Hdone].
Defined.

(** X14.  After a successful construction the cached coefficients,
    mixture table, selection distribution, balance weight and wavelength
    distribution are the ones computed from the base members, the sun
    angles and the TGMM file the emitter holds. *)
Theorem constructor_establishes_consistency (env : Env.Environment)
    (props : Properties) (b : Base env) (log log' : list Event) (st : Emitter env) :
  SunskyEmitter_ctor env props b log = Done st log' ->
  derived_state_consistent env st /\
  base st = b /\
  m_tgmm_datasets st = Env.tgmm_tables_file env.
Proof.
  intros Hctor.
  pose proof (ctor_after_read env props b log) as Hafter.
  destruct (read_sun_configuration env props b log) as [cfg log1 | e1 log1].
  - destruct Hafter as (st1 & log2 & Hdone & Hcons & Hbase & _ & _ & Hfile & _).
    rewrite Hdone in Hctor. injection Hctor as Hst Hl. rewrite <- Hst.
    split; [exact Hcons | split; [exact Hbase | exact Hfile]].
  - congruence.
Qed.

Lemma constructor_establishes_consistency_witness :
  exists st,
    SunskyEmitter_ctor reference_env [("sun_direction", PVector (0, 0, 1))]
      reference_base [] = Done st constructor_events /\
    derived_state_consistent reference_env st /\
    base st = reference_base /\
    m_tgmm_datasets st = Env.tgmm_tables_file reference_env.
Proof.
  destruct constructor_direct_mode_log as [st [Hdone _]].
  exists st. split; [exact Hdone |].
  apply (constructor_establishes_consistency reference_env
           [("sun_direction", PVector (0, 0, 1))] reference_base []
           constructor_events st).
  exact Hdone.
Defined.

(** ** Change notifications keep the cache consistent *)

Section CacheConsistency.

Variable env : Env.Environment.

Lemma empty_keys_consistent (st : Emitter env) :
  derived_state_consistent env (parameters_changed env [] st).
Proof.
  unfold derived_state_consistent, parameters_changed.
  cbn [orb]. rewrite !orb_true_r.
  cbn [base m_sun_angles m_sky_params m_sky_radiance m_tgmm_tables
       m_gaussian_distr m_sky_sampling_w m_spectral_distr m_tgmm_datasets fst snd].
  repeat split; try reflexivity; symmetry; apply surjective_pairing.
Qed.

Lemma changed_keys_consistent (keys : list string) (st : Emitter env) :
  let b := base st in
  let b' := Env.Base_parameters_changed env keys b in
  derived_state_consistent env st ->
  m_sky_params_dataset b' = m_sky_params_dataset b ->
  m_sky_rad_dataset b' = m_sky_rad_dataset b ->
  (keys <> [] -> contains keys "albedo" = false -> m_albedo b' = m_albedo b) ->
  (keys <> [] -> contains keys "turbidity" = false -> m_turbidity b' = m_turbidity b) ->
  derived_state_consistent env (parameters_changed env keys st).
Proof.
  intros b b' (Hp & Hr & Ht & _) Hdp Hdr Halb Hturb.
  destruct keys as [|k ks]; [apply empty_keys_consistent |].
  assert (Hne : k :: ks <> []) by discriminate.
  specialize (Halb Hne). specialize (Hturb Hne).
  unfold derived_state_consistent, parameters_changed.
  fold b. fold b'.
  set (ca := contains (k :: ks) "albedo") in *.
  set (ct := contains (k :: ks) "turbidity") in *.
  set (ctr := (false || (m_active_record st && _))%bool).
  set (cdir := (negb (m_active_record st) && contains (k :: ks) "sun_direction")%bool).
  cbn [orb].
  destruct ctr, cdir, ca, ct;
    cbn [orb base m_sun_angles m_sky_params m_sky_radiance m_tgmm_tables
         m_gaussian_distr m_sky_sampling_w m_spectral_distr m_tgmm_datasets fst snd];
    repeat split;
    try (symmetry; apply surjective_pairing);
    rewrite ?Hdp, ?Hdr, ?Halb, ?Hturb by reflexivity;
    first [reflexivity | exact Hp | exact Hr | exact Ht].
Qed.

(** The sun angles against the configuration. *)
Lemma sun_angles_current (keys : list string) (st : Emitter env) :
  let b := base st in
  let b' := Env.Base_parameters_changed env keys b in
  let st' := parameters_changed env keys st in
  (if m_active_record st then
     keys = [] \/ names_record_key keys = true
     \/ m_sun_angles st = configured_sun_angles env st
   else
     keys <> [] /\
     (contains keys "sun_direction" = true
      \/ (m_sun_angles st = configured_sun_angles env st
          /\ m_to_world b' = m_to_world b))) ->
  m_sun_angles st' = configured_sun_angles env st'.
Proof.
  intros b b' st' Hcond. subst st'.
  unfold configured_sun_angles in *. unfold parameters_changed. cbv zeta.
  fold b. fold b'.
  cbn [m_active_record m_time m_location m_sun_angles m_sun_dir base].
  fold (names_record_key keys).
  destruct (m_active_record st) eqn:Hact.
  - cbn [andb negb orb].
    destruct keys as [|k ks]; [reflexivity |].
    cbn [orb].
    destruct (names_record_key (k :: ks)) eqn:Hn; cbn [fst snd]; [reflexivity |].
    destruct Hcond as [H | [H | H]]; [discriminate H | discriminate H | exact H].
  - destruct Hcond as [Hne Hcond].
    destruct keys as [|k ks]; [contradiction |].
    cbn [andb negb orb].
    destruct (contains (k :: ks) "sun_direction") eqn:Hs; cbn [fst snd].
    + reflexivity.
    + destruct Hcond as [H | [H Hw]]; [discriminate H |].
      rewrite H. fold b. fold b'. rewrite Hw. reflexivity.
Qed.

Lemma sun_angles_kept (keys : list string) (st : Emitter env) :
  m_active_record st = false -> keys <> [] ->
  contains keys "sun_direction" = false ->
  m_sun_angles (parameters_changed env keys st) = m_sun_angles st.
Proof.
  intros Hact Hne Hs. unfold parameters_changed. cbv zeta.
  cbn [m_sun_angles]. rewrite Hact, Hs.
  destruct keys as [|k ks]; [contradiction |].
  cbn [andb negb orb fst snd]. reflexivity.
Qed.

Lemma tracked_key (keys : list string) (st : Emitter env) :
  (m_active_record st = true /\
   (contains keys "timezone" || contains keys "year" || contains keys "day"
    || contains keys "month" || contains keys "hour" || contains keys "minute"
    || contains keys "second" || contains keys "latitude"
    || contains keys "longitude")%bool = true)
  \/ (m_active_record st = false /\ contains keys "sun_direction" = true) ->
  let st' := parameters_changed env keys st in
  let b' := base st' in
  let eta := 0.5 * PI - snd (m_sun_angles st') in
  m_sun_angles st' =
    (if m_active_record st then
       (snd (Env.sun_coordinates env (m_time st) (m_location st)),
        fst (Env.sun_coordinates env (m_time st) (m_location st)))
     else if match keys with [] => true | _ :: _ => false end then
       (snd (Env.sun_coordinates env (m_time st) (m_location st)),
        fst (Env.sun_coordinates env (m_time st) (m_location st)))
     else
       flip (Env.dir_to_sph env
               (Env.transform_apply env (Env.transform_inverse env (m_to_world b'))
                  (m_sun_dir st)))) /\
  m_sky_params st' =
    bezier_interp (Env.Epsilon env)
      (Env.bilinear_interp env (m_sky_params_dataset b') (m_albedo b') (m_turbidity b'))
      eta /\
  m_sky_radiance st' =
    bezier_interp (Env.Epsilon env)
      (Env.bilinear_interp env (m_sky_rad_dataset b') (m_albedo b') (m_turbidity b'))
      eta /\
  (m_tgmm_tables st', m_gaussian_distr st') =
    build_tgmm_distribution (Env.TURBITDITY_LVLS env) (Env.ELEVATION_CTRL_PTS env)
      (Env.TGMM_COMPONENTS env) (Env.TGMM_GAUSSIAN_PARAMS env)
      (array (m_tgmm_datasets st)) (m_turbidity b') eta.
Proof.
  intros Hkey. cbv zeta. unfold parameters_changed.
  destruct Hkey as [[Hact Hk] | [Hact Hk]]; rewrite Hact.
  - rewrite Hk. cbn [andb negb]. rewrite !orb_true_r.
    cbn [orb base m_sun_angles m_sky_params m_sky_radiance m_tgmm_tables
         m_gaussian_distr fst snd].
    repeat split.
  - rewrite Hk. cbn [andb negb orb]. rewrite !orb_false_r.
    destruct keys as [|k ks];
      cbn [orb base m_sun_angles m_sky_params m_sky_radiance m_tgmm_tables
           m_gaussian_distr fst snd];
      repeat split.
Qed.

Lemma untracked_keys (keys : list string) (st : Emitter env) :
  keys <> [] ->
  contains keys "albedo" = false -> contains keys "turbidity" = false ->
  (if m_active_record st
   then (contains keys "timezone" || contains keys "year" || contains keys "day"
         || contains keys "month" || contains keys "hour" || contains keys "minute"
         || contains keys "second" || contains keys "latitude"
         || contains keys "longitude")%bool
   else contains keys "sun_direction") = false ->
  let st' := parameters_changed env keys st in
  m_sun_dir st' = m_sun_dir st /\ m_sun_angles st' = m_sun_angles st /\
  m_sky_params st' = m_sky_params st /\ m_sky_radiance st' = m_sky_radiance st /\
  m_tgmm_tables st' = m_tgmm_tables st /\ m_gaussian_distr st' = m_gaussian_distr st.
Proof.
  intros Hne Ha Ht Hmode. cbv zeta. unfold parameters_changed.
  destruct keys as [|k ks]; [contradiction |].
  rewrite Ha, Ht.
  destruct (m_active_record st).
  - rewrite Hmode.
    cbn [andb negb orb m_sun_dir m_sun_angles m_sky_params m_sky_radiance
         m_tgmm_tables m_gaussian_distr fst snd].
    repeat split.
  - rewrite Hmode.
    cbn [andb negb orb m_sun_dir m_sun_angles m_sky_params m_sky_radiance
         m_tgmm_tables m_gaussian_distr fst snd].
    repeat split.
Qed.

Lemma notifications_frame (changes : list (list string)) :
  forall st : Emitter env,
    let st' := fold_left (fun s keys => parameters_changed env keys s) changes st in
    m_active_record st' = m_active_record st /\
    m_time st' = m_time st /\ m_location st' = m_location st /\
    m_tgmm_datasets st' = m_tgmm_datasets st.
Proof.
  induction changes as [|keys changes IH]; intros st.
  - cbn. repeat split.
  - cbn [fold_left]. cbv zeta in IH.
    destruct (IH (parameters_changed env keys st)) as (Ha & Ht & Hl & Hd).
    cbv zeta. rewrite Ha, Ht, Hl, Hd. unfold parameters_changed.
    cbn [m_active_record m_time m_location m_tgmm_datasets]. repeat split.
Qed.

End CacheConsistency.

(** X15.  Change notifications keep the cache in step with the
    configuration.  The tables: after an empty key set they are the ones
    computed from the base members and the sun angles held, whatever
    they were, and every notification keeps them so, provided the base
    class leaves the datasets alone and changes the albedo and the
    turbidity only when the keys name them.  The sun angles held: in
    record mode they are those of the time and location records after a
    notification that is empty or names a record key, and stay so under
    any other; in direct mode they are those of the stored direction in
    the local frame after a non-empty notification that names
    "sun_direction", and stay so under a non-empty one that leaves
    [to_world] as it was.  A non-empty notification of direct mode
    without "sun_direction" keeps the angles as they are, whatever has
    happened to [to_world]. *)
Theorem parameters_changed_keeps_consistency (env : Env.Environment)
    (keys : list string) (st : Emitter env) :
  let b := base st in
  let b' := Env.Base_parameters_changed env keys b in
  let st' := parameters_changed env keys st in
  derived_state_consistent env (parameters_changed env [] st) /\
  (derived_state_consistent env st ->
   m_sky_params_dataset b' = m_sky_params_dataset b ->
   m_sky_rad_dataset b' = m_sky_rad_dataset b ->
   (keys <> [] -> contains keys "albedo" = false -> m_albedo b' = m_albedo b) ->
   (keys <> [] -> contains keys "turbidity" = false ->
    m_turbidity b' = m_turbidity b) ->
   derived_state_consistent env st') /\
  ((if m_active_record st then
      keys = [] \/ names_record_key keys = true
      \/ m_sun_angles st = configured_sun_angles env st
    else
      keys <> [] /\
      (contains keys "sun_direction" = true
       \/ (m_sun_angles st = configured_sun_angles env st
           /\ m_to_world b' = m_to_world b))) ->
   m_sun_angles st' = configured_sun_angles env st') /\
  (m_active_record st = false -> keys <> [] ->
   contains keys "sun_direction" = false ->
   m_sun_angles st' = m_sun_angles st).
Proof.
  intros b b' st'. split; [| split; [| split]].
  - apply empty_keys_consistent.
  - apply changed_keys_consistent.
  - apply sun_angles_current.
  - apply sun_angles_kept.
Qed.

Lemma parameters_changed_keeps_consistency_witness :
  let st' :=
    parameters_changed reference_env ["sun_direction"] reference_constructed in
  derived_state_consistent reference_env st' /\
  m_sun_angles st' = configured_sun_angles reference_env st'.
Proof.
  pose proof (parameters_changed_keeps_consistency reference_env ["sun_direction"]
                reference_constructed) as (_ & Htab & Hsun & _).
  split.
  - apply Htab.
    + apply empty_keys_consistent.
    + reflexivity.
    + reflexivity.
    + intros _ _. reflexivity.
    + intros _ _. reflexivity.
  - apply Hsun.
    change (m_active_record reference_constructed) with false.
    cbv iota. split; [discriminate | left; reflexivity].
Defined.

(** X16.  Every parameter that [traverse] exposes for the active mode
    is one [parameters_changed] reacts to: a change of that key alone
    recomputes the sun angles (from the time and location records in
    record mode, from the stored direction in direct mode), the
    interpolated coefficients and the mixture table. *)
Theorem exposed_parameters_are_tracked (env : Env.Environment) (st : Emitter env)
    (k : string) (f : ParamFlags) :
  In (k, f) (own_parameters env st) ->
  let st' := parameters_changed env [k] st in
  let b' := base st' in
  let eta := 0.5 * PI - snd (m_sun_angles st') in
  m_sun_angles st' =
    (if m_active_record st then
       (snd (Env.sun_coordinates env (m_time st) (m_location st)),
        fst (Env.sun_coordinates env (m_time st) (m_location st)))
     else
       flip (Env.dir_to_sph env
               (Env.transform_apply env (Env.transform_inverse env (m_to_world b'))
                  (m_sun_dir st)))) /\
  m_sky_params st' =
    bezier_interp (Env.Epsilon env)
      (Env.bilinear_interp env (m_sky_params_dataset b') (m_albedo b') (m_turbidity b'))
      eta /\
  m_sky_radiance st' =
    bezier_interp (Env.Epsilon env)
      (Env.bilinear_interp env (m_sky_rad_dataset b') (m_albedo b') (m_turbidity b'))
      eta /\
  (m_tgmm_tables st', m_gaussian_distr st') =
    build_tgmm_distribution (Env.TURBITDITY_LVLS env) (Env.ELEVATION_CTRL_PTS env)
      (Env.TGMM_COMPONENTS env) (Env.TGMM_GAUSSIAN_PARAMS env)
      (array (m_tgmm_datasets st)) (m_turbidity b') eta.
Proof.
  intros Hin.
  assert (Hkey :
    (m_active_record st = true /\
     (contains [k] "timezone" || contains [k] "year" || contains [k] "day"
      || contains [k] "month" || contains [k] "hour" || contains [k] "minute"
      || contains [k] "second" || contains [k] "latitude"
      || contains [k] "longitude")%bool = true)
    \/ (m_active_record st = false /\ contains [k] "sun_direction" = true)).
  { unfold own_parameters in Hin. destruct (m_active_record st).
    - left. split; [reflexivity |].
      cbn [In] in Hin.
      repeat (destruct Hin as [Hin | Hin];
              [injection Hin as <- _; reflexivity |]).
      contradiction.
    - right. split; [reflexivity |].
      destruct Hin as [Hin | []]. injection Hin as <- _. reflexivity. }
  pose proof (tracked_key env [k] st Hkey) as H. cbv zeta in H.
  destruct (m_active_record st); exact H.
Qed.

Lemma exposed_parameters_are_tracked_witness :
  let st' := parameters_changed reference_env ["sun_direction"] reference_emitter in
  m_sun_angles st' = flip (Env.dir_to_sph reference_env (0, 0, 1)) /\
  m_sky_params st' =
    bezier_interp Epsilon_double (mkTensor 6 [1; 2; 3; 4; 5; 6])
      (0.5 * PI - snd (m_sun_angles st')) /\
  m_sky_radiance st' =
    bezier_interp Epsilon_double (mkTensor 6 [1; 2; 3; 4; 5; 6])
      (0.5 * PI - snd (m_sun_angles st')) /\
  (m_tgmm_tables st', m_gaussian_distr st') =
    build_tgmm_distribution 10 30 5 5 (repeat (/ 5) (Z.to_nat 6750)) 3
      (0.5 * PI - snd (m_sun_angles st')).
Proof.
  apply (exposed_parameters_are_tracked reference_env reference_emitter
           "sun_direction" Differentiable).
  left. reflexivity.
Defined.

(** X17.  The keys of the other mode are ignored: in record mode a
    change of "sun_direction", in direct mode a change of any location
    or time key, leaves the sun direction, the sun angles, the
    coefficients, the mixture table and the selection distribution as
    they were. *)
Theorem foreign_parameters_are_ignored (env : Env.Environment) (st : Emitter env) :
  (m_active_record st = true ->
   let st' := parameters_changed env ["sun_direction"] st in
   m_sun_dir st' = m_sun_dir st /\ m_sun_angles st' = m_sun_angles st /\
   m_sky_params st' = m_sky_params st /\ m_sky_radiance st' = m_sky_radiance st /\
   m_tgmm_tables st' = m_tgmm_tables st /\
   m_gaussian_distr st' = m_gaussian_distr st) /\
  (m_active_record st = false ->
   forall k,
     In k ["latitude"; "longitude"; "timezone"; "year"; "day"; "month"; "hour";
           "minute"; "second"] ->
     let st' := parameters_changed env [k] st in
     m_sun_dir st' = m_sun_dir st /\ m_sun_angles st' = m_sun_angles st /\
     m_sky_params st' = m_sky_params st /\ m_sky_radiance st' = m_sky_radiance st /\
     m_tgmm_tables st' = m_tgmm_tables st /\
     m_gaussian_distr st' = m_gaussian_distr st).
Proof.
  split.
  - intros Hact. apply untracked_keys; try reflexivity; try discriminate.
    rewrite Hact. reflexivity.
  - intros Hact k Hin. cbn [In] in Hin.
    repeat (destruct Hin as [<- | Hin];
            [apply untracked_keys; try reflexivity; try discriminate;
             rewrite Hact; reflexivity |]).
    contradiction.
Qed.

Lemma foreign_parameters_are_ignored_witness :
  let st' := parameters_changed reference_env ["hour"] reference_emitter in
  m_sun_dir st' = m_sun_dir reference_emitter /\
  m_sun_angles st' = m_sun_angles reference_emitter /\
  m_sky_params st' = m_sky_params reference_emitter /\
  m_sky_radiance st' = m_sky_radiance reference_emitter /\
  m_tgmm_tables st' = m_tgmm_tables reference_emitter /\
  m_gaussian_distr st' = m_gaussian_distr reference_emitter.
Proof.
  apply (proj2 (foreign_parameters_are_ignored reference_env reference_emitter)
           eq_refl "hour").
  simpl. tauto.
Defined.

(** X18.  No sequence of change notifications switches the mode or
    touches the time and location records or the TGMM dataset; the set
    of parameters [traverse] exposes therefore never changes. *)
Theorem notifications_keep_mode (env : Env.Environment)
    (changes : list (list string)) (st : Emitter env) :
  let st' := fold_left (fun s keys => parameters_changed env keys s) changes st in
  m_active_record st' = m_active_record st /\
  m_time st' = m_time st /\ m_location st' = m_location st /\
  m_tgmm_datasets st' = m_tgmm_datasets st /\
  forall base_entries cb,
    traverse env base_entries cb st' = traverse env base_entries cb st.
Proof.
  intros st'.
  destruct (notifications_frame env changes st) as (Ha & Ht & Hl & Hd).
  fold st' in Ha, Ht, Hl, Hd.
  repeat split; try assumption.
  unfold traverse, own_parameters. rewrite Ha. reflexivity.
Qed.

(** X19.  In an emitter whose cache is consistent, every entry that
    the loop of [sky_pdf] reads (offsets 0 to 4 from each Gaussian
    index) lies inside the mixture table. *)
Theorem sky_pdf_reads_inside_table (env : Env.Environment) (st : Emitter env) :
  let T := Env.TURBITDITY_LVLS env in
  let E := Env.ELEVATION_CTRL_PTS env in
  let C := Env.TGMM_COMPONENTS env in
  let P := Env.TGMM_GAUSSIAN_PARAMS env in
  let size := Z.of_nat (List.length (array (m_tgmm_datasets st))) in
  (2 <= T < 2 ^ 32)%Z -> (1 <= E < 2 ^ 32)%Z -> (1 <= C)%Z -> P = 5%Z ->
  (4 * (C * P) < 2 ^ 32)%Z ->
  size = ((T - 1) * (E * (C * P)))%Z -> (size < 2 ^ 32)%Z ->
  derived_state_consistent env st ->
  forall gi i, In gi (gaussian_indices env) -> (0 <= i <= 4)%Z ->
    (0 <= gi + i < Z.of_nat (List.length (m_tgmm_tables st)))%Z.
Proof.
  intros T E C P size HT HE HC HP Hfit Hshape Hsize (_ & _ & Htab & _) gi i Hgi Hi.
  subst T E C P size.
  apply (f_equal fst) in Htab. cbn [fst] in Htab. rewrite Htab.
  rewrite table_length.
  assert (HP1 : (1 <= Env.TGMM_GAUSSIAN_PARAMS env)%Z) by lia.
  rewrite (rs_is _ _ _ _ HT HE HC HP1 _ Hshape Hsize).
  unfold gaussian_indices in Hgi. apply in_map_iff in Hgi.
  destruct Hgi as [k [<- Hk]]. apply in_arange in Hk.
  nia.
Qed.

Lemma sky_pdf_reads_inside_table_witness :
  (0 <= 95 + 4 < Z.of_nat (List.length (m_tgmm_tables reference_constructed)))%Z.
Proof.
  assert (Hlen : Z.of_nat (List.length (repeat (/ 5) (Z.to_nat 6750))) = 6750%Z)
    by (rewrite repeat_length; lia).
  apply (sky_pdf_reads_inside_table reference_env reference_constructed);
    cbn [reference_env reference_constructed reference_emitter parameters_changed
         m_tgmm_datasets array Env.TURBITDITY_LVLS Env.ELEVATION_CTRL_PTS
         Env.TGMM_COMPONENTS Env.TGMM_GAUSSIAN_PARAMS];
    try rewrite Hlen; try lia.
  - apply empty_keys_consistent.
  - unfold gaussian_indices. apply in_map_iff. exists 19%Z.
    split; [reflexivity |]. apply in_arange.
    cbn [reference_env Env.TGMM_COMPONENTS]. lia.
Defined.

(** ** Sampling of the sky *)

Lemma Epsilon_double_small : Epsilon_double <= 1 / 2.
Proof.
  unfold Epsilon_double.
  assert (H : 2 <= 2 ^ 53).
  { change (2 ^ 53) with (2 * 2 ^ 52).
    assert (1 <= 2 ^ 52) by (apply pow_R1_Rle; lra). lra. }
  unfold Rdiv. rewrite Rmult_1_l. apply Rinv_le_contravar; lra.
Qed.

(** X20.  The two clamps of [sample_sky]: the arguments handed to the
    inverse error function lie strictly between -1 and 1, where it is
    defined, and the sampled elevation angle does not exceed pi/2,
    whatever the samples and the mixture table. *)
Theorem sample_sky_stays_in_domain (env : Env.Environment)
    (sample_reuse : DiscreteDistribution -> R -> bool -> Z * R) (erfinv : R -> R)
    (st : Emitter env) (sample sun_angles : Point2f) (active : bool) :
  0 < Env.Epsilon env <= 1 / 2 ->
  let u := sample_sky_uniforms env sample_reuse st sample active in
  - 1 < 2 * fst u - 1 < 1 /\ - 1 < 2 * snd u - 1 < 1 /\
  snd (sample_sky_angles env sample_reuse erfinv st sample sun_angles active)
  <= PI / 2.
Proof.
  intros He u.
  assert (Hclip : forall v,
            Env.Epsilon env
            <= dr.clip v (Env.Epsilon env) (OneMinusEpsilon (Env.Epsilon env))
            <= 1 - Env.Epsilon env).
  { intros v. apply clip_bounds. unfold OneMinusEpsilon. lra. }
  subst u. unfold sample_sky_uniforms. cbv zeta. cbn [fst snd].
  split; [| split].
  - match goal with |- context [dr.clip ?v _ _] => pose proof (Hclip v) end. lra.
  - match goal with |- context [dr.clip ?v _ _] => pose proof (Hclip v) end. lra.
  - unfold sample_sky_angles. cbv zeta. cbn [snd]. unfold dr.minimum.
    apply Rle_trans with (0.5 * PI - Env.Epsilon env); [apply Rmin_r | lra].
Qed.

Lemma sample_sky_stays_in_domain_witness :
  let u := sample_sky_uniforms reference_env (fun _ _ _ => (0%Z, 1 / 2))
             reference_single_gaussian (1 / 2, 1 / 2) true in
  - 1 < 2 * fst u - 1 < 1 /\ - 1 < 2 * snd u - 1 < 1 /\
  snd (sample_sky_angles reference_env (fun _ _ _ => (0%Z, 1 / 2)) (fun _ => 0)
         reference_single_gaussian (1 / 2, 1 / 2) (0, 0) true)
  <= PI / 2.
Proof.
  apply (sample_sky_stays_in_domain reference_env (fun _ _ _ => (0%Z, 1 / 2))
           (fun _ => 0) reference_single_gaussian (1 / 2, 1 / 2) (0, 0) true).
  cbn [reference_env Env.Epsilon].
  pose proof Epsilon_double_range. pose proof Epsilon_double_small. lra.
Defined.

(** X21.  [sky_pdf] undoes the rotation of [sample_sky]: if the
    azimuth drawn in the canonical frame lies strictly between 0 and
    2 pi, and [dir_to_sph] gives back the sampled angles up to a shift
    of the azimuth by a period (-2 pi, 0 or 2 pi), then the canonical
    angles at which [sky_pdf] evaluates the mixture for the sampled
    direction are exactly the angles drawn. *)
Theorem sampled_direction_maps_back (env : Env.Environment)
    (sample_reuse : DiscreteDistribution -> R -> bool -> Z * R) (erfinv : R -> R)
    (sphdir : R -> R -> Vector3f)
    (st : Emitter env) (sample sun_angles : Point2f) (active : bool) (n : Z) :
  let angles :=
    sample_sky_angles env sample_reuse erfinv st sample sun_angles active in
  let dir := sample_sky env sample_reuse erfinv sphdir st sample sun_angles active in
  let phi_c := fst angles - (fst sun_angles - 0.5 * PI) in
  (- 1 <= n <= 1)%Z ->
  0 < phi_c < 2 * PI ->
  Env.dir_to_sph env dir = (snd angles, fst angles + 2 * PI * IZR n) ->
  canonical_angles env dir sun_angles = (phi_c, snd angles).
Proof.
  intros angles dir phi_c Hn Hphi Hdir. pose proof PI_RGT_0 as Hpi.
  unfold canonical_angles, flip, dr.select, dr.ltb. rewrite Hdir. cbn [fst snd].
  fold phi_c.
  replace (fst angles + 2 * PI * IZR n - (fst sun_angles - 0.5 * PI))
    with (phi_c + 2 * PI * IZR n) by (unfold phi_c; ring).
  assert (Hcases : n = (- 1)%Z \/ n = 0%Z \/ n = 1%Z) by lia.
  destruct Hcases as [-> | [-> | ->]].
  - destruct (Rlt_dec (phi_c + 2 * PI * -1) 0) as [_ | H]; [| lra].
    destruct (Rlt_dec (2 * PI) (phi_c + 2 * PI * -1 + 2 * PI)) as [H | _]; [lra |].
    f_equal. ring.
  - destruct (Rlt_dec (phi_c + 2 * PI * 0) 0) as [H | _]; [lra |].
    destruct (Rlt_dec (2 * PI) (phi_c + 2 * PI * 0)) as [H | _]; [lra |].
    f_equal. ring.
  - destruct (Rlt_dec (phi_c + 2 * PI * 1) 0) as [H | _]; [lra |].
    destruct (Rlt_dec (2 * PI) (phi_c + 2 * PI * 1)) as [_ | H]; [| lra].
    f_equal. ring.
Qed.

Lemma reference_sampled_angles :
  sample_sky_angles reference_env (fun _ _ _ => (0%Z, 1 / 2)) (fun _ => 0)
    reference_single_gaussian (1 / 2, 1 / 2) (0, 0) true = (0, 0).
Proof.
  pose proof PI_RGT_0 as Hpi.
  pose proof Epsilon_double_range. pose proof Epsilon_double_small.
  unfold sample_sky_angles. cbv zeta.
  cbn [reference_env reference_single_gaussian m_tgmm_tables m_gaussian_distr
       Env.TGMM_GAUSSIAN_PARAMS Env.Epsilon fst snd].
  change (dr.entry [PI / 2; 0; 1; 1; 1] (0 * 5 + 0)) with (PI / 2).
  change (dr.entry [PI / 2; 0; 1; 1; 1] (0 * 5 + 1)) with 0.
  change (dr.entry [PI / 2; 0; 1; 1; 1] (0 * 5 + 2)) with 1.
  change (dr.entry [PI / 2; 0; 1; 1; 1] (0 * 5 + 3)) with 1.
  cbv beta. pose proof PI2_3_2 as Hpi2.
  f_equal.
  - lra.
  - unfold dr.minimum. rewrite Rmin_left by lra. ring.
Qed.

Lemma sampled_direction_maps_back_witness :
  canonical_angles reference_env
    (sample_sky reference_env (fun _ _ _ => (0%Z, 1 / 2)) (fun _ => 0)
       (fun theta _ => (0, 0, cos theta))
       reference_single_gaussian (1 / 2, 1 / 2) (0, 0) true)
    (0, 0)
  = (0 - (0 - 0.5 * PI), 0).
Proof.
  pose proof PI_RGT_0 as Hpi.
  pose proof (sampled_direction_maps_back reference_env (fun _ _ _ => (0%Z, 1 / 2))
                (fun _ => 0) (fun theta _ => (0, 0, cos theta))
                reference_single_gaussian (1 / 2, 1 / 2) (0, 0) true 0) as H.
  cbv zeta in H. unfold sample_sky in *. rewrite reference_sampled_angles in *.
  cbn [fst snd] in *. apply H.
  - lia.
  - lra.
  - cbn [reference_env Env.dir_to_sph vec_z snd].
    rewrite cos_0, acos_1. f_equal. ring.
Defined.
